(** * discord.ext.slash: a shallow embedding of [discord/ext/slash/__init__.py]

    The development follows the source file top to bottom: Python values and
    dictionaries, the exceptions the code raises, [Option] and [Choice],
    [Command] and [Group] (construction, serialisation, the guard chain),
    [Context] (entity resolution and option binding) and [SlashBot]
    (dispatch and the reconciliation of the registered commands).

    Conventions.  A Python [dict] is an association list with unique keys in
    insertion order; a Python [set] of names is a [gset]; a Python [str] is
    the [string] of its UTF-8 encoding; code that can raise returns [result];
    collaborators of discord.py (cache, fetch, the constructors of its
    classes, HTTP) are record fields or section variables.  Floating point
    values are not modelled. *)

From Stdlib Require Import ZArith String Ascii List Bool Lia DecimalString.
From stdpp Require Import base gmap strings list fin_maps.

#[local] Set Warnings "-register-all,-clear-no-such-hyp".
Local Open Scope string_scope.
Local Open Scope list_scope.
Local Open Scope Z_scope.

(* ===================================================================== *)
(** ** Exceptions and the error monad *)
(* ===================================================================== *)

(** [CommandInvokeError] is raised with a message, or wraps the exception
    that interrupted the invocation. *)
Inductive exn :=
| ValueError (msg : string)
| TypeError (msg : string)
| KeyError (key : string)
| AttributeError (attr : string)
| UnboundLocalError (var : string)
| HTTPException
| OSError (msg : string)
| RuntimeError (msg : string)
| CancelledError
| CheckFailure (qualname : string)
| CommandNotFound (name : string)
| CommandInvokeError (d : invoke_detail)
with invoke_detail :=
| NoSuchOption (name : string)   (* f'No such option: {opt["name"]!r}' *)
| Original (e : exn).            (* CommandInvokeError(exc) from exc *)

Inductive result (A : Type) :=
| Ok (a : A)
| Raise (e : exn).
Arguments Ok {A} a.
Arguments Raise {A} e.

Definition bind {A B} (m : result A) (k : A -> result B) : result B :=
  match m with
  | Ok a => k a
  | Raise e => Raise e
  end.

Notation "x <- e ;; k" := (bind e (fun x => k))
  (at level 100, e at next level, right associativity).


(** [[f(x) for x in l]] where [f] may raise: stops at the first exception. *)
Fixpoint mapM {A B} (f : A -> result B) (l : list A) : result (list B) :=
  match l with
  | [] => Ok []
  | x :: r => y <- f x ;; ys <- mapM f r ;; Ok (y :: ys)
  end.

(* ===================================================================== *)
(** ** Python dictionaries with string keys *)
(* ===================================================================== *)

Section Dict.
Context {V : Type}.

Fixpoint dict_get (k : string) (d : list (string * V)) : option V :=
  match d with
  | [] => None
  | (k', v) :: r => if String.eqb k k' then Some v else dict_get k r
  end.

(** [d[k] = v]: an existing key keeps its position, a new key goes last. *)
Fixpoint dict_set (k : string) (v : V) (d : list (string * V))
  : list (string * V) :=
  match d with
  | [] => [(k, v)]
  | (k', v') :: r =>
      if String.eqb k k' then (k, v) :: r else (k', v') :: dict_set k v r
  end.

(** [d.pop(k, None)] as far as the dictionary is concerned. *)
Fixpoint dict_del (k : string) (d : list (string * V)) : list (string * V) :=
  match d with
  | [] => []
  | (k', v') :: r =>
      if String.eqb k k' then r else (k', v') :: dict_del k r
  end.

Definition dict_has (k : string) (d : list (string * V)) : bool :=
  match dict_get k d with Some _ => true | None => false end.

Definition dict_keys (d : list (string * V)) : list string := map fst d.
Definition dict_values (d : list (string * V)) : list V := map snd d.

(** [d[k]] *)
Definition dict_item (k : string) (d : list (string * V)) : result V :=
  match dict_get k d with
  | Some v => Ok v
  | None => Raise (KeyError k)
  end.
End Dict.

(* ===================================================================== *)
(** ** Python values that travel as JSON *)
(* ===================================================================== *)

Inductive json :=
| JNull
| JBool (b : bool)
| JInt (z : Z)
| JStr (s : string)
| JList (l : list json)
| JDict (d : list (string * json)).

(** Truth value of [if x:]. *)
Definition py_truthy (j : json) : bool :=
  match j with
  | JNull => false
  | JBool b => b
  | JInt z => negb (z =? 0)
  | JStr s => negb (String.eqb s "")
  | JList l => match l with [] => false | _ => true end
  | JDict d => match d with [] => false | _ => true end
  end.

(** [all(f(x, y) for x, y in zip(l1, l2))] on lists of the same length. *)
Fixpoint all2 {A B} (f : A -> B -> bool) (l1 : list A) (l2 : list B) : bool :=
  match l1, l2 with
  | [], [] => true
  | x :: xs, y :: ys => f x y && all2 f xs ys
  | _, _ => false
  end.

(** Python [==] on these values: [bool] is a subtype of [int], lists compare
    element by element, dictionaries compare as finite maps. *)
Fixpoint py_eq (a b : json) {struct a} : bool :=
  match a, b with
  | JNull, JNull => true
  | JBool x, JBool y => Bool.eqb x y
  | JBool x, JInt z => z =? Z.b2z x
  | JInt z, JBool x => z =? Z.b2z x
  | JInt x, JInt y => x =? y
  | JStr x, JStr y => String.eqb x y
  | JList l1, JList l2 => all2 py_eq l1 l2
  | JDict d1, JDict d2 =>
      Nat.eqb (length d1) (length d2) &&
      forallb (fun kv => match dict_get (fst kv) d2 with
                         | Some v' => py_eq (snd kv) v'
                         | None => false
                         end) d1
  | _, _ => false
  end.

(** A value stands for a Python value if no dictionary in it has a key
    twice. *)
Fixpoint keys_unique (ks : list string) : bool :=
  match ks with
  | [] => true
  | k :: r => negb (existsb (String.eqb k) r) && keys_unique r
  end.

Fixpoint json_wf (j : json) : bool :=
  match j with
  | JList l => forallb json_wf l
  | JDict d =>
      keys_unique (dict_keys d) && forallb (fun kv => json_wf (snd kv)) d
  | _ => true
  end.

(** [a.get(k, ...) == b.get(k, ...)]: the Ellipsis default equals only
    itself. *)
Definition get_eq (k : string) (a b : list (string * json)) : bool :=
  match dict_get k a, dict_get k b with
  | None, None => true
  | Some x, Some y => py_eq x y
  | _, _ => false
  end.

(** *** [str(n)] and [int(x)] *)

(** A Python [str] is the [string] of the bytes of its UTF-8 encoding. *)

Definition py_str_int (z : Z) : string := NilZero.string_of_int (Z.to_int z).

Definition byte_of (a : ascii) : Z := Z.of_nat (nat_of_ascii a).

(** The six bits a continuation byte of UTF-8 carries. *)
Definition continuation (a : ascii) : option Z :=
  let n := byte_of a in
  if (128 <=? n) && (n <? 192) then Some (n - 128) else None.

(** The code points of a string, [None] if its bytes are not the shortest
    UTF-8 encoding of any. *)
Fixpoint code_points (l : list ascii) : option (list Z) :=
  match l with
  | [] => Some []
  | a :: r =>
      let n := byte_of a in
      if n <? 128 then cons n <$> code_points r
      else if n <? 192 then None
      else if n <? 224 then
        match r with
        | b :: r =>
            match continuation b with
            | Some x =>
                let c := (n - 192) * 64 + x in
                if c <? 128 then None else cons c <$> code_points r
            | None => None
            end
        | _ => None
        end
      else if n <? 240 then
        match r with
        | b :: b' :: r =>
            match continuation b, continuation b' with
            | Some x, Some y =>
                let c := ((n - 224) * 64 + x) * 64 + y in
                if c <? 2048 then None else cons c <$> code_points r
            | _, _ => None
            end
        | _ => None
        end
      else if n <? 248 then
        match r with
        | b :: b' :: b'' :: r =>
            match continuation b, continuation b', continuation b'' with
            | Some x, Some y, Some z =>
                let c := (((n - 240) * 64 + x) * 64 + y) * 64 + z in
                if (c <? 65536) || (1114111 <? c) then None
                else cons c <$> code_points r
            | _, _, _ => None
            end
        | _ => None
        end
      else None
  end.

(** The white space of Unicode outside ASCII. *)
Definition unicode_space (c : Z) : bool :=
  (c =? 133) || (c =? 160) || (c =? 5760)
  || ((8192 <=? c) && (c <=? 8202))
  || (c =? 8232) || (c =? 8233) || (c =? 8239) || (c =? 8287)
  || (c =? 12288).

(** The decimal digits of Unicode outside ASCII (category Nd, Unicode 14.0):
    the code point of the zero of each run of ten digits. *)
Definition decimal_zeros : list Z :=
  [1632; 1776; 1984; 2406; 2534; 2662; 2790; 2918; 3046; 3174; 3302; 3430;
   3558; 3664; 3792; 3872; 4160; 4240; 6112; 6160; 6470; 6608; 6784; 6800;
   6992; 7088; 7232; 7248; 42528; 43216; 43264; 43472; 43504; 43600; 44016;
   65296; 66720; 68912; 69734; 69872; 69942; 70096; 70384; 70736; 70864;
   71248; 71360; 71472; 71904; 72016; 72784; 73040; 73120; 92768; 92864;
   93008; 120782; 120792; 120802; 120812; 120822; 123200; 123632; 125264;
   130032].

Definition unicode_decimal (c : Z) : option Z :=
  (fun zero => c - zero)
    <$> List.find (fun zero => (zero <=? c) && (c <=? zero + 9))
                  decimal_zeros.

(** What [int] reads a character as: an ASCII character as itself, any
    other white space as a space, any other decimal digit as the ASCII
    digit of its value; it refuses every other character. *)
Definition as_ascii (c : Z) : option ascii :=
  if c <? 128 then Some (ascii_of_nat (Z.to_nat c))
  else if unicode_space c then Some " "%char
  else (fun d => ascii_of_nat (Z.to_nat (48 + d))) <$> unicode_decimal c.

Fixpoint all_ascii (cs : list Z) : option (list ascii) :=
  match cs with
  | [] => Some []
  | c :: r =>
      match as_ascii c, all_ascii r with
      | Some a, Some l => Some (a :: l)
      | _, _ => None
      end
  end.

(** The ASCII white space [int] strips at both ends. *)
Definition is_space (a : ascii) : bool :=
  let n := nat_of_ascii a in
  ((9 <=? n) && (n <=? 13) || (n =? 32))%nat.

Definition digit_of (a : ascii) : option Z :=
  let n := nat_of_ascii a in
  if ((48 <=? n) && (n <=? 57))%nat then Some (Z.of_nat (n - 48)) else None.

Fixpoint drop_spaces (l : list ascii) : list ascii :=
  match l with
  | c :: r => if is_space c then drop_spaces r else l
  | [] => []
  end.

(** Digits with single underscores between them. *)
Fixpoint parse_digits (after_digit : bool) (acc : Z) (l : list ascii)
  : option Z :=
  match l with
  | [] => if after_digit then Some acc else None
  | c :: r =>
      match digit_of c with
      | Some d => parse_digits true (10 * acc + d) r
      | None =>
          if Ascii.eqb c "_"%char && after_digit
          then parse_digits false acc r
          else None
      end
  end.

(** [int(s)] for a string, in base ten.  No limit is put on the number of
    digits. *)
Definition int_of_str (s : string) : option Z :=
  match (match code_points (list_ascii_of_string s) with
         | Some cs => all_ascii cs
         | None => None
         end) with
  | Some l =>
      let body := rev (drop_spaces (rev (drop_spaces l))) in
      match body with
      | c :: r =>
          if Ascii.eqb c "-"%char then Z.opp <$> parse_digits false 0 r
          else if Ascii.eqb c "+"%char then parse_digits false 0 r
          else parse_digits false 0 body
      | [] => None
      end
  | None => None
  end.

(** [int(x)] *)
Definition py_int (j : json) : result Z :=
  match j with
  | JInt z => Ok z
  | JBool b => Ok (Z.b2z b)
  | JStr s =>
      match int_of_str s with
      | Some z => Ok z
      | None => Raise (ValueError "invalid literal for int() with base 10")
      end
  | _ => Raise (TypeError "int() argument must be a string or a number")
  end.

(* ===================================================================== *)
(** ** [ApplicationCommandOptionType] *)
(* ===================================================================== *)

Module ApplicationCommandOptionType.
Definition SUB_COMMAND : Z := 1.
Definition SUB_COMMAND_GROUP : Z := 2.
Definition STRING : Z := 3.
Definition INTEGER : Z := 4.
Definition USER : Z := 6.
Definition CHANNEL : Z := 7.
Definition ROLE : Z := 8.
End ApplicationCommandOptionType.

(* ===================================================================== *)
(** ** [InteractionResponseType] and [MessageFlags] *)
(* ===================================================================== *)

Module InteractionResponseType.
Definition Pong : Z := 1.
Definition Acknowledge : Z := 2.
Definition ChannelMessage : Z := 3.
Definition ChannelMessageWithSource : Z := 4.
Definition DeferredChannelMessageWithSource : Z := 5.
Definition AcknowledgeWithSource : Z := DeferredChannelMessageWithSource.
End InteractionResponseType.

Module MessageFlags.
Definition CROSSPOSTED : Z := Z.shiftl 1 0.
Definition IS_CROSSPOST : Z := Z.shiftl 1 1.
Definition SUPPRESS_EMBEDS : Z := Z.shiftl 1 2.
Definition SOURCE_MESSAGE_DELETED : Z := Z.shiftl 1 3.
Definition URGENT : Z := Z.shiftl 1 4.
Definition HAS_THREAD : Z := Z.shiftl 1 5.
Definition EPHEMERAL : Z := Z.shiftl 1 6.
End MessageFlags.

(* ===================================================================== *)
(** ** [class Choice] *)
(* ===================================================================== *)

Module Choice.
Record t := mk { name : json; value : json }.

(** What [from_data] can be given: a [Choice], or plain data. *)
Inductive data :=
| Inst (c : t)
| Data (j : json).

(** [cls] called with the keywords [kw]: both keywords are needed and no
    other is accepted. *)
Definition call_kwargs (kw : list (string * json)) : result t :=
  match dict_get "name" kw, dict_get "value" kw with
  | Some n, Some v =>
      if forallb (fun k => String.eqb k "name" || String.eqb k "value")
                 (dict_keys kw)
      then Ok (mk n v)
      else Raise (TypeError "__init__() got an unexpected keyword argument")
  | _, _ => Raise (TypeError "__init__() missing required argument")
  end.

Definition from_data (d : data) : result t :=
  match d with
  | Inst c => Ok c
  | Data (JStr s) => Ok (mk (JStr s) (JStr s))
  | Data (JDict kw) => call_kwargs kw
  | Data _ => Raise (TypeError "argument after ** must be a mapping")
  end.

Definition to_dict (c : t) : list (string * json) :=
  [("name", name c); ("value", value c)].
End Choice.

(* ===================================================================== *)
(** ** [class Option] *)
(* ===================================================================== *)

Module Option.
(** [type] is an [ApplicationCommandOptionType] or a plain [int]; [name] is
    [JNull] until it is set; [required] is whatever was passed and is only
    ever tested for truth. *)
Record t := mk {
  description : json;
  type : Z;
  name : json;
  required : json;
  choices : option (list Choice.t)
}.

(** [Option(description, type, name=.., required=.., choices=..)], every
    keyword given. *)
Definition init (description : json) (type : Z) (name required : json)
           (choices : option (list Choice.data)) : result t :=
  match choices with
  | Some cs =>
      cs' <- mapM Choice.from_data cs ;;
      Ok (mk description type name required (Some cs'))
  | None => Ok (mk description type name required None)
  end.

(** Iterating over the value passed as [choices]. *)
Definition iter_choices (j : json) : result (option (list Choice.data)) :=
  match j with
  | JNull => Ok None
  | JList l => Ok (Some (map Choice.Data l))
  | JStr s =>
      Ok (Some (map (fun c => Choice.Data (JStr (String c EmptyString)))
                    (list_ascii_of_string s)))
  | JDict d => Ok (Some (map (fun k => Choice.Data (JStr k)) (dict_keys d)))
  | _ => Raise (TypeError "object is not iterable")
  end.

(** [Option] called with the keywords [kw]: [description] is required,
    [type] defaults to [STRING], the other keywords are popped with their
    defaults and any further keyword is ignored.  A [type] that is not an
    integer has no counterpart in [t] and is refused here. *)
Definition call_kwargs (kw : list (string * json)) : result t :=
  match dict_get "description" kw with
  | None => Raise (TypeError "__init__() missing required argument")
  | Some d =>
      ty <- match dict_get "type" kw with
            | None => Ok ApplicationCommandOptionType.STRING
            | Some (JInt z) => Ok z
            | Some (JBool b) => Ok (Z.b2z b)
            | Some _ => Raise (TypeError "type is not an integer")
            end ;;
      cs <- match dict_get "choices" kw with
            | None => Ok None
            | Some j => iter_choices j
            end ;;
      init d ty
           (default JNull (dict_get "name" kw))
           (default (JBool false) (dict_get "required" kw))
           cs
  end.

Definition to_dict (o : t) : list (string * json) :=
  let data := [("type", JInt (type o));
               ("name", name o);
               ("description", description o)] in
  let data := if py_truthy (required o)
              then dict_set "required" (required o) data else data in
  match choices o with
  | Some cs =>
      dict_set "choices" (JList (map (fun c => JDict (Choice.to_dict c)) cs))
               data
  | None => data
  end.

(** [type(self)] called with the keywords [self.to_dict()] *)
Definition clone (o : t) : result t := call_kwargs (to_dict o).

Definition set_required (r : json) (o : t) : t :=
  mk (description o) (type o) (name o) r (choices o).
Definition set_name (n : json) (o : t) : t :=
  mk (description o) (type o) n (required o) (choices o).
End Option.

(* ===================================================================== *)
(** ** Callbacks, their signatures and cogs *)
(* ===================================================================== *)

(** A coroutine function is known by its identity; what it does when awaited
    is given separately (see [Section Invoke]). *)
Definition fn := string.

(** The value of a parameter annotation, as far as [Command.__init__] tells
    values apart. *)
Inductive ann_value :=
| AnnOption (o : Option.t)   (* isinstance(typ, Option) *)
| AnnContext                 (* a class, subclass of Context *)
| AnnClass                   (* any other class, Parameter.empty included *)
| AnnObject.                 (* any other object *)

(** An annotation is a value, or a string that [eval] turns into a value or
    fails on. *)
Inductive annotation :=
| Ann (v : ann_value)
| AnnStr (evaluated : option ann_value).

Record Param := {
  p_name : string;
  p_annotation : annotation;
  p_has_default : bool         (* param.default is not param.empty *)
}.

Record Coroutine := {
  co_fn : fn;
  co_name : string;            (* __name__ *)
  co_doc : option string;      (* __doc__ *)
  co_params : list Param       (* signature(coro).parameters.values() *)
}.

(** The check a command has: the do-nothing [check] closure of
    [Command.__init__] unless another one was given or set. *)
Inductive check_ref :=
| DefaultCheck
| UserCheck (f : fn).

Record Cog := {
  cog_id : nat;                    (* identity of the cog object *)
  cog_check : option fn            (* hasattr(cog, 'cog_check') *)
}.

(* ===================================================================== *)
(** ** [class Command] and [class Group] *)
(* ===================================================================== *)

Module Command.
(** One record for both classes: [slash] is [None] on a plain [Command]
    (the attribute does not exist) and [Some] on a [Group].  [parent] is
    the chain of ancestors as the command sees it when it is used. *)
Inductive t := mk {
  cog : option Cog;
  coro : Coroutine;
  id : option Z;
  name : string;
  description : string;
  guild_id : option Z;
  parent : option t;
  options : list (string * Option.t);
  default : bool;
  _ctx_arg : string;
  _check : check_ref;
  slash : option (list (string * t))
}.

Definition is_group (c : t) : bool :=
  match slash c with Some _ => true | None => false end.

Definition set_id (i : option Z) (c : t) : t :=
  mk (cog c) (coro c) i (name c) (description c) (guild_id c) (parent c)
     (options c) (default c) (_ctx_arg c) (_check c) (slash c).

(** The annotation after the [isinstance(typ, str)] step. *)
Definition eval_annotation (a : annotation) : ann_value :=
  match a with
  | Ann v => v
  | AnnStr (Some v) => v
  | AnnStr None => AnnClass          (* typ = param.empty *)
  end.

Definition is_context (v : ann_value) : bool :=
  match v with AnnContext => true | _ => false end.

Definition is_option (v : ann_value) : bool :=
  match v with AnnOption _ => true | _ => false end.

(** One turn of [for param in signature(coro).parameters.values()]; the
    state is [self._ctx_arg] and [self.options]. *)
Definition init_param (st : option string * list (string * Option.t))
           (p : Param)
  : result (option string * list (string * Option.t)) :=
  let typ := eval_annotation (p_annotation p) in
  if negb (is_option typ || is_context typ) && negb (p_has_default p)
  then Raise (TypeError
                "cannot have a required argument with no valid annotation")
  else
    let ctx_arg := if is_context typ then Some (p_name p) else fst st in
    match typ with
    | AnnOption o =>
        o <- Option.clone o ;;
        let o := if p_has_default p then o
                 else Option.set_required (JBool true) o in
        let o := match Option.name o with
                 | JNull => Option.set_name (JStr (p_name p)) o
                 | _ => o
                 end in
        Ok (ctx_arg, dict_set (p_name p) o (snd st))
    | _ => Ok (ctx_arg, snd st)
    end.

Fixpoint init_params (st : option string * list (string * Option.t))
         (ps : list Param)
  : result (option string * list (string * Option.t)) :=
  match ps with
  | [] => Ok st
  | p :: r => st' <- init_param st p ;; init_params st' r
  end.

(** [Command.__init__(coro, name=.., description=.., guild=.., parent=..,
    check=..)]; a keyword that is [None] here was not passed, and
    [description=None] is [Some None].  [group] tells whether
    [Group.__init__] is running, which adds [slash = {}]. *)
Definition init (group : bool) (coro : Coroutine)
           (kw_name : option string) (kw_description : option (option string))
           (kw_guild : option json)
           (kw_parent : option t) (kw_check : option fn) : result t :=
  let name := match kw_name with Some n => n | None => co_name coro end in
  match (match kw_description with
         | Some d => d
         | None => co_doc coro
         end) with
  | None | Some "" => Raise (ValueError "Please specify a description")
  | Some description =>
      guild_id <- match kw_guild with
                  | None | Some JNull => Ok None
                  | Some g => z <- py_int g ;; Ok (Some z)
                  end ;;
      st <- init_params (None, []) (co_params coro) ;;
      match fst st with
      | None =>
          Raise (ValueError "One argument must be type-hinted slash.Context")
      | Some ctx_arg =>
          Ok (mk None coro None name description guild_id kw_parent (snd st)
                 false ctx_arg
                 (match kw_check with
                  | Some f => UserCheck f
                  | None => DefaultCheck
                  end)
                 (if group then Some [] else None))
      end
  end.

(** [qualname] *)
Fixpoint qualname (c : t) : string :=
  match parent c with
  | None => name c
  | Some p => qualname p +:+ " " +:+ name c
  end.

(** [Command.to_dict] and [Group.to_dict]; which one runs depends on the
    class of [self].  The [default] entry is behind [and False]. *)
Fixpoint to_dict (c : t) : list (string * json) :=
  let data := [("name", JStr (name c));
               ("description", JStr (description c))] in
  match slash c with
  | None =>
      match options c with
      | [] => data
      | _ =>
          dict_set "options"
            (JList (map (fun o => JDict (Option.to_dict o))
                        (dict_values (options c))))
            data
      end
  | Some [] => data
  | Some subs =>
      dict_set "options"
        (JList (map (fun sub =>
                       JDict (dict_set "type"
                                (JInt (match slash (snd sub) with
                                       | Some _ =>
                                           ApplicationCommandOptionType.SUB_COMMAND_GROUP
                                       | None =>
                                           ApplicationCommandOptionType.SUB_COMMAND
                                       end))
                                (to_dict (snd sub))))
                    subs))
        data
  end.
End Command.

(** Parameters annotated with a subclass of [Context]. *)
Definition context_params (coro : Coroutine) : list string :=
  map p_name
      (List.filter (fun p => Command.is_context
                               (Command.eval_annotation (p_annotation p)))
                   (co_params coro)).

(* ===================================================================== *)
(** ** Objects of discord.py, the client and the context *)
(* ===================================================================== *)

(** What an attribute such as [ctx.guild] or a bound argument can hold.
    [Object] is [discord.Object], the bare identifier; [Full] is whatever a
    cache accessor or a fetch gave back; the others are built by this module
    from the data of the event, through the classes of discord.py: each holds
    the identifier its constructor gave it, and the data and the guild the
    constructor was called with. *)
Inductive entity :=
| Object (id : Z)
| Full (kind : string) (id : Z)
| PartialMember (id : Z) (data : json) (guild : option entity)
| User (id : Z) (data : json)
| PartialChannel (cls : string) (id : Z) (data : json)
                 (guild : option entity)
| PartialRole (id : Z) (data : json) (guild : option entity).

Definition entity_id (e : entity) : Z :=
  match e with
  | Object i | Full _ i | PartialMember i _ _ | User i _
  | PartialChannel _ i _ _ | PartialRole i _ _ => i
  end.

(** [type(value) is discord.Object] *)
Definition is_Object (e : entity) : bool :=
  match e with Object _ => true | _ => false end.

(** A keyword argument of the command callback. *)
Inductive argval :=
| VRaw (j : json)          (* the value of the event, as it came *)
| VEntity (e : entity)
| VSelf.                   (* the context itself *)

(** [SlashBot], with the accessors of discord.py it is used through.  A cache
    accessor gives [None] on a miss; a fetch raises on failure.  A
    constructor of discord.py, called with data and a guild, gives the
    identifier of the object it builds or raises what it raises, such as
    [KeyError] for a key it reads and the data lacks; what it reads depends on
    the class and on what the connection has cached. *)
Record Client := {
  debug_guild : option Z;
  resolve_not_fetch : bool;
  fetch_if_not_get : bool;
  _checks : list fn;
  user_id : Z;                                       (* client.user.id *)
  get_guild : Z -> option entity;
  fetch_guild : Z -> result entity;
  get_channel : Z -> option entity;
  fetch_channel : Z -> result entity;
  guild_get_member : Z -> Z -> option entity;        (* guild.get_member *)
  guild_fetch_member : Z -> Z -> result entity;      (* guild.fetch_member *)
  guild_get_channel : Z -> Z -> option entity;       (* guild.get_channel *)
  guild_get_role : Z -> Z -> option entity;          (* guild.get_role *)
  _channel_factory : json -> option string;          (* discord.channel *)
  member_init : json -> option entity -> result Z;
    (* PartialMember(data=.., guild=.., state=..) *)
  user_init : json -> result Z;
    (* discord.User(state=.., data=..) *)
  channel_init : string -> json -> option entity -> result Z;
    (* ctype(state=.., guild=.., data=..), by the name of the class *)
  role_init : json -> option entity -> result Z
    (* PartialRole(state=.., guild=.., data=..) *)
}.

(** Everything the module calls that is not its own code. *)
Inductive callable :=
| Check (k : check_ref) (bound : option Cog)
    (* parent._check, or partial(parent._check, parent.cog) *)
| CogCheck (c : Cog) (f : fn)        (* the bound method cog.cog_check *)
| GlobalCheck (f : fn)               (* an element of client._checks *)
| Hook (coro : fn) (bound : option Cog)
    (* parent.coro, or partial(parent.coro, parent.cog) *)
| Body (coro : fn) (bound : option Cog) (kwargs : list (string * argval)).
    (* self.coro called with the options as keywords *)

(** What awaiting a call gives. *)
Inductive outcome :=
| Returns (v : json)
| Raises (e : exn).

(** What [Context] asks of its collaborators while it is built. *)
Inductive lookup :=
| Get (typename : string) (id : Z)        (* get_method(default.id) *)
| Fetch (typename : string) (id : Z)      (* fetch_method(default.id) *)
| Resolve (typename : string) (id : Z).   (* resolve_method(obj) *)

(** What can be observed of the handling of an event, in order. *)
Inductive action :=
| Looked (l : lookup)
| Called (c : callable)
| Dispatched (e : exn).                   (* dispatch('command_error', ..) *)

(** Code that can raise and leaves a trace of events of type [E]. *)
Definition traced (E A : Type) : Type := list E * result A.

Definition tret {E A} (a : A) : traced E A := ([], Ok a).
Definition traise {E A} (e : exn) : traced E A := ([], Raise e).
Definition emit {E} (ev : E) : traced E unit := ([ev], Ok tt).
Definition lift {E A} (r : result A) : traced E A := ([], r).

Definition tbind {E A B} (m : traced E A) (k : A -> traced E B)
  : traced E B :=
  match m with
  | (tr, Ok a) => let (tr', r) := k a in (tr ++ tr', r)
  | (tr, Raise e) => (tr, Raise e)
  end.

(** The same run seen through another type of events. *)
Definition relabel {E F A} (f : E -> F) (m : traced E A) : traced F A :=
  (map f (fst m), snd m).

Notation "x <~ e ;; k" := (tbind e (fun x => k))
  (at level 100, e at next level, right associativity).

(* ===================================================================== *)
(** ** The invocation event *)
(* ===================================================================== *)

(** An entry of [options]: it has a [name] and may have a ['value'] key, an
    ['options'] key, both or neither. *)
Inductive EvOpt := mkEvOpt {
  eo_name : string;
  eo_value : option json;
  eo_options : option (list EvOpt)
}.

(** The [INTERACTION_CREATE] payload; an optional key that is absent is
    [None]. *)
Record Event := {
  ev_version : json;
  ev_id : json;
  ev_guild_id : option json;
  ev_channel_id : json;
  ev_member : option json;
  ev_token : json;
  ev_data_id : json;                                       (* data.id *)
  ev_data_name : string;                                   (* data.name *)
  ev_options : option (list EvOpt);                        (* data.options *)
  ev_resolved : option (list (string * list (string * json)))
}.

(* ===================================================================== *)
(** ** [class Context] *)
(* ===================================================================== *)

Module Context.
Record t := mk {
  client : Client;
  command : Command.t;
  id : Z;
  guild : option entity;
  channel : entity;
  author : option entity;
  token : json;
  cog : option Cog;
  options : list (string * argval);
  me : entity
}.

(** The exceptions the [try] statement of [_try_get] handles. *)
Definition caught (e : exn) : bool :=
  match e with
  | HTTPException | AttributeError _ | ValueError _ => true
  | _ => false
  end.

(** [fq] and [fng] once their [None] defaults are replaced. *)
Definition fq_of (client : Client) (fq : option bool) : bool :=
  match fq with Some b => b | None => negb (resolve_not_fetch client) end.
Definition fng_of (client : Client) (fng : option bool) : bool :=
  match fng with Some b => b | None => fetch_if_not_get client end.

(** What [_try_get] does after its [try] statement, from
    [if resolved is None] on. *)
Definition resolve_or_default (default : entity) (typename : string)
           (resolve_method : option (json -> result entity))
           (resolved : option (list (string * list (string * json))))
  : traced lookup entity :=
  match resolved with
  | None => tret default
  | Some r =>
      frag <~ lift (dict_item (typename +:+ "s") r) ;;
      match dict_get (py_str_int (entity_id default)) frag with
      | None | Some JNull => tret default
      | Some obj =>
          _ <~ emit (Resolve typename (entity_id default)) ;;
          match resolve_method with
          | Some resolve => lift (resolve obj)
          | None => traise (TypeError "'NoneType' object is not callable")
          end
      end
  end.

(** The [try] statement of [_try_get]; [after] is the code that follows
    it, run when the statement neither returns nor lets an exception
    through. *)
Definition get_or_fetch (default : entity)
           (get_method : option (Z -> result (option entity)))
           (fetch_method : option (Z -> result entity))
           (typename : string) (fng : bool) (after : traced lookup entity)
  : traced lookup entity :=
  let id := entity_id default in
  match get_method with
  | None => traise (TypeError "'NoneType' object is not callable")
  | Some get =>
      _ <~ emit (Get typename id) ;;
      match get id with
      | Raise e => if caught e then after else traise e
      | Ok obj =>
          match obj, fng with
          | None, true =>
              match fetch_method with
              | None =>
                  traise (TypeError "'NoneType' object is not callable")
              | Some fetch =>
                  _ <~ emit (Fetch typename id) ;;
                  match fetch id with
                  | Ok o => tret o                    (* else: return obj *)
                  | Raise e => if caught e then after else traise e
                  end
              end
          | _, false => after                         (* raise ValueError *)
          | Some o, true => tret o                    (* return obj *)
          end
      end
  end.

(** The condition of [if fq or resolved is None or str(default.id) not in
    resolved[typename+'s']]. *)
Definition enters_try (default : entity) (typename : string)
           (resolved : option (list (string * list (string * json))))
           (fq : bool) : result bool :=
  if fq then Ok true
  else match resolved with
       | None => Ok true
       | Some r =>
           frag <- dict_item (typename +:+ "s") r ;;
           Ok (negb (dict_has (py_str_int (entity_id default)) frag))
       end.

(** [_try_get(default, get_method, fetch_method, typename,
    resolve_method=.., resolved=.., fng=.., fq=..)].  [resolved] maps
    ['members'], ['users'], ... to dictionaries from the identifier, as a
    string, to the data of the object. *)
Definition _try_get (client : Client) (default : entity)
           (get_method : option (Z -> result (option entity)))
           (fetch_method : option (Z -> result entity))
           (typename : string)
           (resolve_method : option (json -> result entity))
           (resolved : option (list (string * list (string * json))))
           (fng fq : option bool) : traced lookup entity :=
  let fq := fq_of client fq in
  let fng := fng_of client fng in
  enter <~ lift (enters_try default typename resolved fq) ;;
  if enter
  then get_or_fetch default get_method fetch_method typename fng
         (resolve_or_default default typename resolve_method resolved)
  else resolve_or_default default typename resolve_method resolved.

(** [self.guild.get_member] and the like: [self.guild] has the method only
    if it is a guild. *)
Definition guild_method {A} (guild : option entity)
           (attr : string) (m : Z -> Z -> A) (i : Z) : result A :=
  match guild with
  | Some (Full "Guild" g) => Ok (m g i)
  | _ => Raise (AttributeError attr)
  end.

Definition _get_member (client : Client) (guild : option entity) (mid : Z)
  : result (option entity) :=
  guild_method guild "get_member" (guild_get_member client) mid.

Definition _fetch_member (client : Client) (guild : option entity) (mid : Z)
  : result entity :=
  r <- guild_method guild "fetch_member" (guild_fetch_member client) mid ;;
  r.

(** [discord.Object(value)] converts its argument with [int] and turns a
    failure into [TypeError]. *)
Definition Object_init (value : json) : result entity :=
  match py_int value with
  | Ok z => Ok (Object z)
  | Raise _ => Raise (TypeError "id parameter must be convertable to int")
  end.

Definition not_a_dict {A} : result A :=
  Raise (TypeError "object does not support item assignment").

Section Binding.
Variable client : Client.
Variable guild : option entity.                        (* self.guild *)
Variable resolved : list (string * list (string * json)).

(** The closures of [_kwargs_from_options]; [value] is the
    [discord.Object] made from the value of the option. *)
Definition resolve_member (value : entity) (member : json)
  : result entity :=
  users <- dict_item "users" resolved ;;
  user <- dict_item (py_str_int (entity_id value)) users ;;
  match member with
  | JDict m =>
      let member := JDict (dict_set "user" user m) in
      i <- member_init client member guild ;;
      Ok (PartialMember i member guild)
  | _ => not_a_dict
  end.

Definition resolve_user (user : json) : result entity :=
  i <- user_init client user ;;
  Ok (User i user).

(** The nested function [get_channel]. *)
Definition guild_channel (oid : Z) : result (option entity) :=
  guild_method guild "get_channel" (guild_get_channel client) oid.

Definition resolve_channel (channel : json) : result entity :=
  match channel with
  | JDict c =>
      let c := if dict_has "position" c then c
               else dict_set "position" (JInt (-1)) c in
      ctype <- dict_item "type" c ;;
      match _channel_factory client ctype with
      | Some cls =>
          let cls := if String.eqb cls "TextChannel"
                     then "PartialTextChannel"
                     else if String.eqb cls "CategoryChannel"
                     then "PartialCategoryChannel"
                     else if String.eqb cls "VoiceChannel"
                     then "PartialVoiceChannel"
                     else cls in
          i <- channel_init client cls (JDict c) guild ;;
          Ok (PartialChannel cls i (JDict c) guild)
      | None => Raise (TypeError "'NoneType' object is not callable")
      end
  | _ => Raise (AttributeError "setdefault")
  end.

(** The nested function [get_role]. *)
Definition guild_role (oid : Z) : result (option entity) :=
  guild_method guild "get_role" (guild_get_role client) oid.

Definition resolve_role (role : json) : result entity :=
  match role with
  | JDict r =>
      p <- dict_item "permissions" r ;;
      let r := dict_set "permissions_new" p r in
      i <- role_init client (JDict r) guild ;;
      Ok (PartialRole i (JDict r) guild)
  | _ => not_a_dict
  end.

Definition is_entity_type (opttype : Z) : bool :=
  (opttype =? ApplicationCommandOptionType.USER)
  || (opttype =? ApplicationCommandOptionType.CHANNEL)
  || (opttype =? ApplicationCommandOptionType.ROLE).

(** From [opttype = ...] to just before [kwargs[opt['name']] = value]. *)
Definition bind_value (opttype : Z) (value : json) : traced lookup argval :=
  if is_entity_type opttype then
    value <~ lift (Object_init value) ;;
    if opttype =? ApplicationCommandOptionType.USER then
      v <~ _try_get client value
             (Some (_get_member client guild))
             (Some (_fetch_member client guild)) "member"
             (Some (resolve_member value)) (Some resolved) None None ;;
      v <~ (if is_Object v
            then _try_get client v None None "user"
                   (Some resolve_user) (Some resolved) None (Some false)
            else tret v) ;;
      tret (VEntity v)
    else if opttype =? ApplicationCommandOptionType.CHANNEL then
      v <~ _try_get client value
             (Some guild_channel) (Some (fetch_channel client)) "channel"
             (Some resolve_channel) (Some resolved) None None ;;
      tret (VEntity v)
    else
      v <~ _try_get client value
             (Some guild_role) None "role"
             (Some resolve_role) (Some resolved) (Some false) None ;;
      tret (VEntity v)
  else tret (VRaw value).

(** What [_kwargs_from_options] leaves in [self.command] and
    [self.options]. *)
Definition bound : Type := Command.t * list (string * argval).

(** [for k, v in self.command.options.items(): if v.name == name] *)
Definition find_option (cmd : Command.t) (name : string)
  : option string :=
  fst <$> List.find (fun kv => py_eq (Option.name (snd kv)) (JStr name))
                    (Command.options cmd).

(** After the [for] loop.  [last] stands for the variable [opt] as the
    loop left it: its name, and the call that goes down into it, that is
    [_kwargs_from_options(opt.get('options', []), resolved)] once
    [self.command] is given. *)
Definition after_loop (cmd : Command.t) (kwargs : list (string * argval))
           (last : option (string * (Command.t -> traced lookup bound)))
  : traced lookup bound :=
  match Command.slash cmd with
  | Some subs =>
      match last with
      | None => traise (UnboundLocalError "opt")
      | Some (name, down) =>
          child <~ lift (dict_item name subs) ;;
          down child
      end
  | None => tret (cmd, dict_set (Command._ctx_arg cmd) VSelf kwargs)
  end.

(** The [for opt in options] loop; [down opt cmd] is the recursive call
    on the options of [opt]. *)
Fixpoint kwargs_loop (down : EvOpt -> Command.t -> traced lookup bound)
         (cmd : Command.t) (kwargs : list (string * argval))
         (last : option (string * (Command.t -> traced lookup bound)))
         (opts : list EvOpt) {struct opts} : traced lookup bound :=
  match opts with
  | [] => after_loop cmd kwargs last
  | opt :: rest =>
      match eo_value opt with
      | Some value =>
          match find_option cmd (eo_name opt) with
          | None =>
              traise (CommandInvokeError (NoSuchOption (eo_name opt)))
          | Some k =>
              o <~ lift (dict_item k (Command.options cmd)) ;;
              v <~ bind_value (Option.type o) value ;;
              kwargs_loop down cmd (dict_set k v kwargs)
                          (Some (k, down opt)) rest
          end
      | None =>
          match eo_options opt with
          | Some _ =>
              match Command.slash cmd with
              | Some subs =>
                  child <~ lift (dict_item (eo_name opt) subs) ;;
                  down opt child
              | None => traise (AttributeError "slash")
              end
          | None =>
              kwargs_loop down cmd kwargs
                          (Some (eo_name opt, down opt)) rest
          end
      end
  end.

(** [_kwargs_from_options(opt.get('options', []), resolved)] with
    [self.command] set to [cmd]. *)
Fixpoint descend (opt : EvOpt) (cmd : Command.t) {struct opt}
  : traced lookup bound :=
  match opt with
  | mkEvOpt _ _ (Some subs) => kwargs_loop descend cmd [] None subs
  | mkEvOpt _ _ None => after_loop cmd [] None
  end.

Definition _kwargs_from_options (cmd : Command.t) (options : list EvOpt)
  : traced lookup bound :=
  kwargs_loop descend cmd [] None options.
End Binding.

(** [PartialMember(data=event['member'], guild=self.guild, ..)] *)
Definition author_of (client : Client) (member : json)
           (guild : option entity) : result entity :=
  i <- member_init client member guild ;;
  Ok (PartialMember i member guild).

Definition no_resolved : list (string * list (string * json)) :=
  [("members", []); ("users", []); ("channels", []); ("roles", [])].

(** [Context.__init__(client, cmd, event)], up to the call of
    [_kwargs_from_options]: [self.id], [self.guild], [self.channel] and
    [self.author]. *)
Record head := mk_head {
  h_id : Z;
  h_guild : option entity;
  h_channel : entity;
  h_author : option entity
}.

Definition init_head (client : Client) (event : Event)
  : traced lookup head :=
  i <~ lift (py_int (ev_id event)) ;;
  guild <~ match ev_guild_id event with
           | Some g =>
               if py_truthy g then
                 o <~ lift (Object_init g) ;;
                 e <~ _try_get client o
                        (Some (fun i => Ok (get_guild client i)))
                        (Some (fetch_guild client)) "guild"
                        None None None None ;;
                 tret (Some e)
               else tret None
           | None => tret None
           end ;;
  channel <~ (o <~ lift (Object_init (ev_channel_id event)) ;;
              _try_get client o
                (Some (fun i => Ok (get_channel client i)))
                (Some (fetch_channel client)) "channel"
                None None None None) ;;
  author <~ match ev_member event with
            | Some m =>
                if py_truthy m then
                  a <~ lift (author_of client m guild) ;;
                  e <~ _try_get client a
                         (Some (_get_member client guild))
                         (Some (_fetch_member client guild))
                         "author-member" None None None None ;;
                  tret (Some e)
                else tret None
            | None => tret None
            end ;;
  tret (mk_head i guild channel author).

(** [event['data'].get('resolved', {...})] and
    [event['data'].get('options', [])] *)
Definition resolved_of (event : Event)
  : list (string * list (string * json)) :=
  match ev_resolved event with Some r => r | None => no_resolved end.
Definition options_of (event : Event) : list EvOpt :=
  match ev_options event with Some l => l | None => [] end.

(** [Context.__init__(client, cmd, event)] *)
Definition init (client : Client) (cmd : Command.t) (event : Event)
  : traced lookup t :=
  h <~ init_head client event ;;
  b <~ _kwargs_from_options client (h_guild h) (resolved_of event)
         cmd (options_of event) ;;
  me <~ _try_get client (Object (user_id client))
          (Some (_get_member client (h_guild h)))
          (Some (_fetch_member client (h_guild h))) "me-member"
          None None None None ;;
  tret (mk client (fst b) (h_id h) (h_guild h) (h_channel h) (h_author h)
           (ev_token event) (Command.cog (fst b)) (snd b) me).

(** *** [respond] and [delete] *)

(** [discord.Embed] as far as [respond] looks at it: its truth value and
    what [to_dict()] gives. *)
Record Embed := mk_embed {
  embed_bool : bool;
  embed_to_dict : list (string * json)
}.

(** [discord.Webhook.partial(id=.., token=.., adapter=..)] *)
Record Webhook := mk_webhook {
  w_id : Z;
  w_token : json
}.

(** What can be observed of [respond] and [delete]: the warning about a
    response type, and the request with its route and its body. *)
Inductive effect :=
| Warned (rtype : Z)
| Requested (method path : string) (channel_id guild_id : Z)
            (body : option (list (string * json))).

(** [self.guild.id] *)
Definition guild_dot_id (ctx : t) : result Z :=
  match guild ctx with
  | Some g => Ok (entity_id g)
  | None => Raise (AttributeError "id")
  end.

(** [if embed] and [if embeds], the latter for a list or [None]. *)
Definition embed_truthy (embed : option Embed) : bool :=
  match embed with Some e => embed_bool e | None => false end.
Definition embeds_truthy (embeds : option (list Embed)) : bool :=
  match embeds with Some (_ :: _) => true | _ => false end.

(** [embeds] after [if embed: embeds = [embed]] and
    [if embeds: embeds = [emb.to_dict() for emb, _ in zip(embeds,
    range(10))]].  A value that is not true is left alone and stays not
    true; it is the empty list here. *)
Definition embed_dicts (embed : option Embed) (embeds : option (list Embed))
  : list json :=
  let embeds := if embed_truthy embed
                then match embed with Some e => Some [e] | None => embeds end
                else embeds in
  match embeds with
  | Some l => map (fun emb => JDict (embed_to_dict emb)) (firstn 10 l)
  | None => []
  end.

(** [data[outer][k] = v] *)
Definition set_in (outer k : string) (v : json) (data : list (string * json))
  : result (list (string * json)) :=
  match dict_get outer data with
  | Some (JDict inner) =>
      Ok (dict_set outer (JDict (dict_set k v inner)) data)
  | Some _ => not_a_dict
  | None => Raise (KeyError outer)
  end.

Section Respond.
(** What [respond] uses and this module does not define: the builtin [str],
    [discord.AllowedMentions] with its [merge] and [to_dict],
    [self.client.http.request], [self.client.app_info.id] and
    [self.client.allowed_mentions]. *)
Variable py_str : json -> string.
Variable AllowedMentions : Type.
Variable merge : AllowedMentions -> AllowedMentions -> AllowedMentions.
Variable mentions_to_dict : AllowedMentions -> list (string * json).
Variable http :
  string -> string -> option (list (string * json)) -> result json.
Variable app_id : Z.
Variable client_mentions : option AllowedMentions.

(** [mentions], from [mentions = self.client.allowed_mentions] on. *)
Definition merged_mentions (allowed_mentions : option AllowedMentions)
  : option AllowedMentions :=
  match client_mentions, allowed_mentions with
  | Some m, Some a => Some (merge m a)
  | None, Some a => Some a
  | m, None => m
  end.

(** [data] when [self.webhook is not None]. *)
Definition edit_data (content : string) (embeds : list json)
           (mentions : option AllowedMentions) : list (string * json) :=
  let data := [] in
  let data := if negb (String.eqb content "")
              then dict_set "content" (JStr content) data else data in
  let data := match embeds with
              | [] => data
              | _ => dict_set "embeds" (JList embeds) data
              end in
  match mentions with
  | Some m => dict_set "allowed_mentions" (JDict (mentions_to_dict m)) data
  | None => data
  end.

(** [data] when [self.webhook is None]. *)
Definition callback_data (content : string) (embeds : list json)
           (mentions : option AllowedMentions) (flags : option Z) (rtype : Z)
  : result (list (string * json)) :=
  let data := [("type", JInt rtype)] in
  data <- (if negb (String.eqb content "")
              || match embeds with [] => false | _ => true end
           then Ok (dict_set "data" (JDict [("content", JStr content)]) data)
           else if rtype =? InteractionResponseType.ChannelMessageWithSource
           then Raise (ValueError "sending channel message with no content")
           else Ok data) ;;
  data <- match embeds with
          | [] => Ok data
          | _ => set_in "data" "embeds" (JList embeds) data
          end ;;
  data <- match mentions with
          | Some m =>
              set_in "data" "allowed_mentions" (JDict (mentions_to_dict m))
                     data
          | None => Ok data
          end ;;
  match flags with
  | Some f =>
      if f =? 0 then Ok data
      else
        (* data.setdefault('data', {})['flags'] = int(flags) *)
        let data := if dict_has "data" data then data
                    else dict_set "data" (JDict []) data in
        set_in "data" "flags" (JInt f) data
  | None => Ok data
  end.

Definition original_path (ctx : t) : string :=
  "/webhooks/" +:+ py_str_int app_id +:+ "/" +:+ py_str (token ctx)
    +:+ "/messages/@original".

Definition callback_path (ctx : t) : string :=
  "/interactions/" +:+ py_str_int (id ctx) +:+ "/" +:+ py_str (token ctx)
    +:+ "/callback".

(** [respond(content, embed=.., embeds=.., allowed_mentions=.., flags=..,
    rtype=..)].  [webhook] is [self.webhook] when the call starts; the
    result gives [self.webhook] when it ends, what was observed, and how the
    call ended.  [flags] and [rtype] are integers, [embeds] a list. *)
Definition respond (ctx : t) (webhook : option Webhook) (content : json)
           (embed : option Embed) (embeds : option (list Embed))
           (allowed_mentions : option AllowedMentions) (flags : option Z)
           (rtype : Z) : option Webhook * traced effect unit :=
  let warned :=
    if (rtype =? InteractionResponseType.Acknowledge)
       || (rtype =? InteractionResponseType.ChannelMessage)
    then [Warned rtype] else [] in
  let content := py_str content in
  if embed_truthy embed && embeds_truthy embeds
  then (webhook,
        (warned, Raise (TypeError "Cannot specify both embed and embeds")))
  else
    let embeds := embed_dicts embed embeds in
    let mentions := merged_mentions allowed_mentions in
    match webhook with
    | Some _ =>
        let data := edit_data content embeds mentions in
        let path := original_path ctx in
        match guild_dot_id ctx with
        | Raise e => (webhook, (warned, Raise e))
        | Ok g =>
            (webhook,
             (warned ++ [Requested "PATCH" path (entity_id (channel ctx)) g
                                   (Some data)],
              _ <- http "PATCH" path (Some data) ;; Ok tt))
        end
    | None =>
        match callback_data content embeds mentions flags rtype with
        | Raise e => (None, (warned, Raise e))
        | Ok data =>
            let path := callback_path ctx in
            match guild_dot_id ctx with
            | Raise e => (None, (warned, Raise e))
            | Ok g =>
                (Some (mk_webhook app_id (token ctx)),
                 (warned ++ [Requested "POST" path (entity_id (channel ctx)) g
                                       (Some data)],
                  _ <- http "POST" path (Some data) ;; Ok tt))
            end
        end
    end.

(** [delete()] *)
Definition delete (ctx : t) : traced effect unit :=
  let path := original_path ctx in
  match guild_dot_id ctx with
  | Raise e => ([], Raise e)
  | Ok g =>
      ([Requested "DELETE" path (entity_id (channel ctx)) g None],
       _ <- http "DELETE" path None ;; Ok tt)
  end.
End Respond.
End Context.

(* ===================================================================== *)
(** ** The guard chain and the invocation of a command *)
(* ===================================================================== *)

Section Invoke.
(** What the callbacks of the application do when called with a context. *)
Variable behave : callable -> Context.t -> outcome.

(** The [check] closure of [Command.__init__] takes anything and returns
    [None]. *)
Definition await (c : callable) (ctx : Context.t) : traced action json :=
  _ <~ emit (Called c) ;;
  match c with
  | Check DefaultCheck _ => tret JNull
  | _ => match behave c ctx with
         | Returns v => tret v
         | Raises e => traise e
         end
  end.

(** [parent.cog.cog_check not in cogs]: bound methods of the same object. *)
Definition cog_check_in (c : Cog) (cogs : list callable) : bool :=
  existsb (fun x => match x with
                    | CogCheck c' _ => Nat.eqb (cog_id c) (cog_id c')
                    | _ => false
                    end) cogs.

(** The [while parent is not None] loop of [can_run], entered at [p]. *)
Fixpoint can_run_walk (p : Command.t) (parents cogs : list callable)
  : list callable * list callable :=
  let '(parents, cogs) :=
    match Command.cog p with
    | Some c =>
        let cogs := match cog_check c with
                    | Some f => if cog_check_in c cogs then cogs
                                else cogs ++ [CogCheck c f]
                    | None => cogs
                    end in
        (parents ++ [Check (Command._check p) (Some c)], cogs)
    | None => (parents ++ [Check (Command._check p) None], cogs)
    end in
  match Command.parent p with
  | Some q => can_run_walk q parents cogs
  | None => (parents, cogs)
  end.

(** The list [parents] that [can_run] goes through. *)
Definition can_run_checks (self : Command.t) (ctx : Context.t)
  : list callable :=
  let '(parents, cogs) :=
    match Command.parent self with
    | Some p => can_run_walk p [] []
    | None => ([], [])
    end in
  let parents := parents ++ cogs in
  let parents := parents ++ map GlobalCheck (_checks (Context.client ctx)) in
  let parents := rev parents in
  parents ++ [Check (Command._check self) None].

(** [for check in parents: if await check(ctx) is False: return False] *)
Fixpoint run_checks (checks : list callable) (ctx : Context.t)
  : traced action bool :=
  match checks with
  | [] => tret true
  | c :: r =>
      v <~ await c ctx ;;
      match v with
      | JBool false => tret false
      | _ => run_checks r ctx
      end
  end.

Definition can_run (self : Command.t) (ctx : Context.t) : traced action bool :=
  run_checks (can_run_checks self ctx) ctx.

(** The [while] loop of [invoke_parents], entered at [p]. *)
Fixpoint invoke_parents_walk (p : Command.t) (parents : list callable)
  : list callable :=
  let parents :=
    parents ++ [Hook (co_fn (Command.coro p)) (Command.cog p)] in
  match Command.parent p with
  | Some q => invoke_parents_walk q parents
  | None => parents
  end.

Fixpoint run_hooks (hooks : list callable) (ctx : Context.t)
  : traced action unit :=
  match hooks with
  | [] => tret tt
  | h :: r => _ <~ await h ctx ;; run_hooks r ctx
  end.

Definition invoke_parents (self : Command.t) (ctx : Context.t)
  : traced action unit :=
  let parents := match Command.parent self with
                 | Some p => invoke_parents_walk p []
                 | None => []
                 end in
  run_hooks (rev parents) ctx.

(** The arguments of the [logger.debug] call are evaluated whether or not
    the message is printed. *)
Definition invoke_log_args (ctx : Context.t) : result unit :=
  match Context.author ctx, Context.guild ctx with
  | None, _ | _, None => Raise (AttributeError "id")
  | Some _, Some _ => Ok tt
  end.

Definition invoke (self : Command.t) (ctx : Context.t) : traced action unit :=
  ok <~ can_run self ctx ;;
  if negb ok then traise (CheckFailure (Command.qualname self))
  else
    _ <~ lift (invoke_log_args ctx) ;;
    _ <~ invoke_parents self ctx ;;
    _ <~ await (Body (co_fn (Command.coro self)) (Command.cog self)
                     (Context.options ctx)) ctx ;;
    tret tt.

(** *** [SlashBot.on_interaction_create] *)

(** [cmd.guild_id == event['guild_id']] *)
Definition guild_id_eq (g : option Z) (j : json) : bool :=
  match g with
  | Some z => py_eq (JInt z) j
  | None => match j with JNull => true | _ => false end
  end.

Definition is_CommandError (e : exn) : bool :=
  match e with
  | CheckFailure _ | CommandNotFound _ | CommandInvokeError _ => true
  | _ => false
  end.

(** The three searches with [discord.utils.get]; [slash] lists the set
    [self.slash] in the order it is iterated. *)
Definition find_command (slash : list Command.t) (event : Event)
  : result Command.t :=
  i <- py_int (ev_data_id event) ;;
  match List.find (fun c => match Command.id c with
                            | Some z => z =? i
                            | None => false
                            end) slash with
  | Some c => Ok c
  | None =>
      g <- match ev_guild_id event with
           | Some g => Ok g
           | None => Raise (KeyError "guild_id")
           end ;;
      match List.find (fun c => String.eqb (Command.name c)
                                           (ev_data_name event)
                                && guild_id_eq (Command.guild_id c) g)
                      slash with
      | Some c => Ok c
      | None =>
          match List.find (fun c => String.eqb (Command.name c)
                                               (ev_data_name event))
                          slash with
          | Some c => Ok c
          | None => Raise (CommandNotFound (ev_data_name event))
          end
      end
  end.

(** [cmd.coro.__annotations__[cmd._ctx_arg](self, cmd, event)]: the
    annotation is called; a class annotated as the context is taken to
    construct like [Context]. *)
Definition make_context (client : Client) (cmd : Command.t) (event : Event)
  : traced action Context.t :=
  match List.find (fun p => String.eqb (p_name p) (Command._ctx_arg cmd))
                  (co_params (Command.coro cmd)) with
  | Some p =>
      match p_annotation p with
      | Ann AnnContext => relabel Looked (Context.init client cmd event)
      | Ann _ => traise (TypeError "annotation is not the context class")
      | AnnStr _ => traise (TypeError "'str' object is not callable")
      end
  | None => traise (KeyError (Command._ctx_arg cmd))
  end.

Definition on_interaction_create (client : Client) (slash : list Command.t)
           (event : Event) : traced action unit :=
  if negb (py_eq (ev_version event) (JInt 1))
  then traise (RuntimeError "Interaction data version is not supported")
  else
    cmd <~ lift (find_command slash event) ;;
    ctx <~ make_context client cmd event ;;
    match invoke (Context.command ctx) ctx with
    | (tr, Ok _) => (tr, Ok tt)
    | (tr, Raise e) =>
        if is_CommandError e then (tr ++ [Dispatched e], Ok tt)
        else match e with
             | CancelledError => (tr, Ok tt)
             | _ => (tr ++ [Dispatched (CommandInvokeError (Original e))],
                     Ok tt)
             end
    end.
End Invoke.

(* ===================================================================== *)
(** ** [class SlashBot]: the registered commands *)
(* ===================================================================== *)

(** What a name taken from the API can be as a dictionary key: [True] and [1]
    are the same key, lists and dictionaries cannot be keys. *)
Inductive pykey :=
| KStr (s : string)
| KInt (z : Z)
| KNone.

Global Instance pykey_eq_dec : EqDecision pykey.
Proof. solve_decision. Defined.

Global Instance pykey_countable : Countable pykey :=
  inj_countable'
    (fun k => match k with
              | KStr s => inl s
              | KInt z => inr (inl z)
              | KNone => inr (inr tt)
              end)
    (fun x => match x with
              | inl s => KStr s
              | inr (inl z) => KInt z
              | inr (inr _) => KNone
              end)
    (fun k => match k with KStr _ | KInt _ | KNone => eq_refl end).

Definition key_of (j : json) : result pykey :=
  match j with
  | JStr s => Ok (KStr s)
  | JInt z => Ok (KInt z)
  | JBool b => Ok (KInt (Z.b2z b))
  | JNull => Ok KNone
  | _ => Raise (TypeError "unhashable type")
  end.

Fixpoint foldM {A B} (f : A -> B -> result A) (a : A) (l : list B)
  : result A :=
  match l with
  | [] => Ok a
  | x :: r => a' <- f a x ;; foldM f a' r
  end.

Module SlashBot.
(** [SlashBot.__init__], as far as its own keyword arguments go: the
    attributes [debug_guild], [resolve_not_fetch] and [fetch_if_not_get].
    A keyword that was not passed is [None]. *)
Record settings := mk_settings {
  s_debug_guild : option Z;
  s_resolve_not_fetch : bool;
  s_fetch_if_not_get : bool
}.

Definition init (kw_debug_guild kw_resolve_not_fetch kw_fetch_if_not_get
                 : option json) : result settings :=
  let popped := match kw_debug_guild with Some j => j | None => JInt 0 end in
  z <- py_int (if py_truthy popped then popped else JInt 0) ;;
  Ok (mk_settings
        (if z =? 0 then None else Some z)
        (match kw_resolve_not_fetch with
         | Some j => py_truthy j
         | None => true
         end)
        (match kw_fetch_if_not_get with
         | Some j => py_truthy j
         | None => false
         end)).

(** The keyword arguments kept for one request: the body, the identifier
    that goes into the path, and the command the answer is for.  The
    command is an object shared with [guilds]; it is known here by the
    place it has there. *)
Record request := mk_request {
  r_json : option (list (string * json));
  r_id : option Z;
  r_cmd : option (option Z * pykey)
}.

(** [state[method]]: from the guild to the name to the request. *)
Abbreviation requests := (gmap (option Z) (gmap pykey request)).

Record state := mk_state {
  POST : requests;
  PATCH : requests;
  DELETE : requests
}.

Definition empty_state : state := mk_state ∅ ∅ ∅.

Definition lookup_request (rs : requests) (guild_id : option Z)
           (name : pykey) : option request :=
  match rs !! guild_id with
  | Some g => g !! name
  | None => None
  end.

(** [rs.setdefault(guild_id, {})[name] = r] *)
Definition set_request (rs : requests) (guild_id : option Z) (name : pykey)
           (r : request) : requests :=
  <[guild_id := <[name := r]> (default ∅ (rs !! guild_id))]> rs.

(** [{data['name']: data for data in done}] *)
Definition index_done (done : list json)
  : result (gmap pykey (list (string * json))) :=
  foldM (fun m data =>
           match data with
           | JDict d =>
               n <- dict_item "name" d ;;
               k <- key_of n ;;
               Ok (<[k := d]> m)
           | _ => Raise (TypeError "indices must be integers")
           end)
        ∅ done.

(** [todo[name]] *)
Definition todo_item (todo : gmap string Command.t) (name : pykey)
  : result Command.t :=
  match name with
  | KStr s => match todo !! s with
              | Some c => Ok c
              | None => Raise (KeyError s)
              end
  | _ => Raise (KeyError "name")
  end.

(** [todo[name].id = i] *)
Definition set_todo_id (todo : gmap string Command.t) (name : pykey) (i : Z)
  : gmap string Command.t :=
  match name with
  | KStr s => alter (Command.set_id (Some i)) s todo
  | _ => todo
  end.

Definition todo_keys (todo : gmap string Command.t) : gset pykey :=
  set_map KStr (dom todo).

(** [int(done[name]['id'])] *)
Definition done_id (done : gmap pykey (list (string * json))) (name : pykey)
  : result Z :=
  match done !! name with
  | Some data => j <- dict_item "id" data ;; py_int j
  | None => Raise (KeyError "name")
  end.

(** [all(done[name].get(k, ...) == cmd_dict.get(k, ...) for k in
    {'name', 'description', 'options'})] *)
Definition up_to_date (remote cmd_dict : list (string * json)) : bool :=
  get_eq "name" remote cmd_dict
  && get_eq "description" remote cmd_dict
  && get_eq "options" remote cmd_dict.

Definition to_delete (done : gmap pykey (list (string * json)))
           (todo : gmap string Command.t) : gset pykey :=
  dom done ∖ todo_keys todo.
Definition to_update (done : gmap pykey (list (string * json)))
           (todo : gmap string Command.t) : gset pykey :=
  dom done ∩ todo_keys todo.
Definition to_create (done : gmap pykey (list (string * json)))
           (todo : gmap string Command.t) : gset pykey :=
  todo_keys todo ∖ dom done.

(** The body of [for name in to_create]. *)
Definition create_step (guild_id : option Z)
           (st : state * gmap string Command.t) (name : pykey)
  : result (state * gmap string Command.t) :=
  c <- todo_item (snd st) name ;;
  Ok (mk_state
        (set_request (POST (fst st)) guild_id name
           (mk_request (Some (Command.to_dict c)) None
                       (Some (guild_id, name))))
        (PATCH (fst st)) (DELETE (fst st)),
      snd st).

(** The body of [for name in to_update]. *)
Definition update_step (done : gmap pykey (list (string * json)))
           (guild_id : option Z)
           (st : state * gmap string Command.t) (name : pykey)
  : result (state * gmap string Command.t) :=
  c <- todo_item (snd st) name ;;
  let cmd_dict := Command.to_dict c in
  remote <- match done !! name with
            | Some data => Ok data
            | None => Raise (KeyError "name")
            end ;;
  if up_to_date remote cmd_dict then
    i <- done_id done name ;;
    Ok (fst st, set_todo_id (snd st) name i)
  else
    i <- done_id done name ;;
    Ok (mk_state
          (POST (fst st))
          (set_request (PATCH (fst st)) guild_id name
             (mk_request (Some (dict_del "name" cmd_dict)) (Some i)
                         (Some (guild_id, name))))
          (DELETE (fst st)),
        snd st).

(** The body of [for name in to_delete]. *)
Definition delete_step (done : gmap pykey (list (string * json)))
           (guild_id : option Z)
           (st : state * gmap string Command.t) (name : pykey)
  : result (state * gmap string Command.t) :=
  i <- done_id done name ;;
  Ok (mk_state
        (POST (fst st)) (PATCH (fst st))
        (set_request (DELETE (fst st)) guild_id name
           (mk_request None (Some i) None)),
      snd st).

(** [sync_cmds(state, todo, done, guild_id)]; [state] and the commands of
    [todo] are changed in place, so both are given back.  Each of the three
    sets is gone through in the order of [elements]. *)
Definition sync_cmds (state : state) (todo : gmap string Command.t)
           (done : list json) (guild_id : option Z)
  : result (SlashBot.state * gmap string Command.t) :=
  done <- index_done done ;;
  st <- foldM (create_step guild_id) (state, todo)
              (elements (to_create done todo)) ;;
  st <- foldM (update_step done guild_id) st
              (elements (to_update done todo)) ;;
  foldM (delete_step done guild_id) st (elements (to_delete done todo)).

(** *** Sending the requests *)

(** One call of [process_command]. *)
Record task := mk_task {
  t_name : pykey;
  t_guild_id : option Z;
  t_method : string;
  t_path : string;
  t_kwargs : request
}.

(** What [process_command] logs. *)
Inductive log :=
| Exception (name : pykey)          (* 'Error when processing command' *)
| Debug (method : string) (name : pykey) (guild_id : option Z).

Definition global_path (app_id : Z) : string :=
  "/applications/" +:+ py_str_int app_id +:+ "/commands".
Definition guild_path (app_id guild_id : Z) : string :=
  "/applications/" +:+ py_str_int app_id +:+ "/guilds/"
    +:+ py_str_int guild_id +:+ "/commands".

(** [global_path], or [guild_path.format(guild_id)]. *)
Definition commands_path (app_id : Z) (guild_id : option Z) : string :=
  match guild_id with
  | None => global_path app_id
  | Some g => guild_path app_id g
  end.

(** The three nested loops that end [register_commands]: one task for each
    request of [state], the identifier moved from the keywords to the
    path. *)
Definition tasks_of_method (app_id : Z) (method : string) (rs : requests)
  : list task :=
  '(guild_id, guild) ← map_to_list rs;
  '(name, kwargs) ← map_to_list guild;
  let path := commands_path app_id guild_id in
  let path := match r_id kwargs with
              | Some i => path +:+ "/" +:+ py_str_int i
              | None => path
              end in
  [mk_task name guild_id method path
           (mk_request (r_json kwargs) None (r_cmd kwargs))].

Definition tasks_of (app_id : Z) (st : state) : list task :=
  tasks_of_method app_id "POST" (POST st)
  ++ tasks_of_method app_id "PATCH" (PATCH st)
  ++ tasks_of_method app_id "DELETE" (DELETE st).

Section Requests.
(** [self.http.request(route, json=..)], by method and path. *)
Variable http :
  string -> string -> option (list (string * json)) -> result json.

(** [cmd.id = i] on the command the request was kept for. *)
Definition set_cmd_id (guilds : gmap (option Z) (gmap string Command.t))
           (ref : option Z * pykey) (i : Z)
  : gmap (option Z) (gmap string Command.t) :=
  match ref with
  | (g, KStr s) => alter (alter (Command.set_id (Some i)) s) g guilds
  | _ => guilds
  end.

(** [process_command(name, guild_id, route, kwargs)] as a task: the
    commands after it, what it logged, and how it ended. *)
Definition process_command
           (guilds : gmap (option Z) (gmap string Command.t)) (t : task)
  : gmap (option Z) (gmap string Command.t) * traced log unit :=
  let debug := Debug (t_method t) (t_name t) (t_guild_id t) in
  match http (t_method t) (t_path t) (r_json (t_kwargs t)) with
  | Raise HTTPException =>
      (guilds, ([Exception (t_name t); debug], Ok tt))
  | Raise e => (guilds, ([debug], Raise e))
  | Ok data =>
      match r_cmd (t_kwargs t) with
      | None => (guilds, ([debug], Ok tt))
      | Some ref =>
          match (match data with
                 | JDict d => j <- dict_item "id" d ;; py_int j
                 | _ => Raise (TypeError "indices must be integers")
                 end) with
          | Ok i => (set_cmd_id guilds ref i, ([debug], Ok tt))
          | Raise e => (guilds, ([debug], Raise e))
          end
      end
  end.

(** The tasks created by [register_commands], each run to its end, in
    the order they are given. *)
Fixpoint run_tasks (guilds : gmap (option Z) (gmap string Command.t))
         (ts : list task)
  : gmap (option Z) (gmap string Command.t) * list (traced log unit) :=
  match ts with
  | [] => (guilds, [])
  | t :: r =>
      let (guilds, out) := process_command guilds t in
      let (guilds, outs) := run_tasks guilds r in
      (guilds, out :: outs)
  end.

(** The rows of a [GET] answer. *)
Definition rows (answer : json) : result (list json) :=
  match answer with
  | JList l => Ok l
  | JDict d => Ok (map JStr (dict_keys d))
  | JStr s =>
      Ok (map (fun c => JStr (String c EmptyString))
              (list_ascii_of_string s))
  | _ => Raise (TypeError "object is not iterable")
  end.

(** [for cmd in self.slash]: the command is filed under its guild, or
    the debug guild, and its name. *)
Definition file_command (debug_guild : option Z)
           (guilds : gmap (option Z) (gmap string Command.t))
           (cmd : Command.t)
  : gmap (option Z) (gmap string Command.t) :=
  let guild_id := match Command.guild_id cmd with
                  | Some 0 | None => debug_guild
                  | Some g => Some g
                  end in
  let cmd := Command.mk (Command.cog cmd) (Command.coro cmd)
               (Command.id cmd) (Command.name cmd)
               (Command.description cmd) guild_id (Command.parent cmd)
               (Command.options cmd) (Command.default cmd)
               (Command._ctx_arg cmd) (Command._check cmd)
               (Command.slash cmd) in
  <[guild_id := <[Command.name cmd := cmd]>
                  (default ∅ (guilds !! guild_id))]> guilds.

(** One turn of the loops that call [sync_cmds]. *)
Definition sync_guild (app_id : Z)
           (st : state * gmap (option Z) (gmap string Command.t))
           (guild_id : option Z)
  : result (state * gmap (option Z) (gmap string Command.t)) :=
  match snd st !! guild_id with
  | None => Ok st
  | Some todo =>
      answer <- http "GET" (commands_path app_id guild_id) None ;;
      done <- rows answer ;;
      r <- sync_cmds (fst st) todo done guild_id ;;
      Ok (fst r, <[guild_id := snd r]> (snd st))
  end.

(** [register_commands()], given the identifier of the application and
    the set [self.slash] in the order it is iterated: the commands as
    they are when it returns, and the tasks it has created. *)
Definition register_commands (debug_guild : option Z) (app_id : Z)
           (slash : list Command.t)
  : result (gmap (option Z) (gmap string Command.t) * list task) :=
  let guilds := fold_left (file_command debug_guild) slash ∅ in
  st <- sync_guild app_id (empty_state, guilds) None ;;
  st <- foldM (sync_guild app_id) st
              (List.filter (fun g => match g with
                                     | Some _ => true
                                     | None => false
                                     end)
                           (map fst (map_to_list guilds))) ;;
  Ok (snd st, tasks_of app_id (fst st)).
End Requests.
End SlashBot.

(** *** Reconciliation, described *)

(** The remote definition holds the command as it serialises: the three
    fields that [sync_cmds] compares are those of [to_dict]. *)
Definition holds_serialised (remote : list (string * json)) (c : Command.t)
  : Prop :=
  dict_get "name" remote = dict_get "name" (Command.to_dict c) /\
  dict_get "description" remote = dict_get "description" (Command.to_dict c) /\
  dict_get "options" remote = dict_get "options" (Command.to_dict c).

(** The fields [sync_cmds] compares. *)
Definition compared_fields : list string := ["name"; "description"; "options"].

(** A field of the remote definition equals that of the serialised command, as
    Python compares values; a field both lack counts as equal. *)
Definition field_equal (k : string) (remote : list (string * json))
           (c : Command.t) : bool :=
  match dict_get k remote, dict_get k (Command.to_dict c) with
  | None, None => true
  | Some x, Some y => py_eq x y
  | _, _ => false
  end.

Definition fields_equal (remote : list (string * json)) (c : Command.t)
  : Prop :=
  forall k, In k compared_fields -> field_equal k remote c = true.

Definition fields_differ (remote : list (string * json)) (c : Command.t)
  : Prop :=
  exists k, In k compared_fields /\ field_equal k remote c = false.

(** The command [c] with the identifier [i] bound to it and nothing else
    changed. *)
Definition bound_to (i : Z) (c c' : Command.t) : Prop :=
  Command.id c' = Some i /\
  Command.cog c' = Command.cog c /\
  Command.coro c' = Command.coro c /\
  Command.name c' = Command.name c /\
  Command.description c' = Command.description c /\
  Command.guild_id c' = Command.guild_id c /\
  Command.parent c' = Command.parent c /\
  Command.options c' = Command.options c /\
  Command.default c' = Command.default c /\
  Command._ctx_arg c' = Command._ctx_arg c /\
  Command._check c' = Command._check c /\
  Command.slash c' = Command.slash c.

(** The remote definitions [done] of a scope are its local commands [todo]
    as they serialise, name for name; each has an identifier that [int]
    accepts, and no dictionary of a serialised command has a key twice. *)
Definition in_sync (todo : gmap string Command.t)
           (done : gmap pykey (list (string * json))) : Prop :=
  dom done = SlashBot.todo_keys todo /\
  forall s c,
    todo !! s = Some c ->
    json_wf (JDict (Command.to_dict c)) = true /\
    exists remote i,
      done !! KStr s = Some remote /\
      holds_serialised remote c /\
      SlashBot.done_id done (KStr s) = Ok i.

(** What the loop over the names to update needs of a name: it is the
    name of a local command and of a remote definition whose identifier
    [int] accepts. *)
Definition updatable (done : gmap pykey (list (string * json)))
           (todo : gmap string Command.t) (k : pykey) : Prop :=
  exists s c remote i,
    k = KStr s /\ todo !! s = Some c /\ done !! k = Some remote /\
    SlashBot.done_id done k = Ok i.

(** The command filed under a guild and a name. *)
Definition lookup_cmd (guilds : gmap (option Z) (gmap string Command.t))
           (guild_id : option Z) (name : string) : option Command.t :=
  match guilds !! guild_id with
  | Some todo => todo !! name
  | None => None
  end.

(** The task made of a request of [state]. *)
Definition task_of (app_id : Z) (method : string) (guild_id : option Z)
           (name : pykey) (kwargs : SlashBot.request) : SlashBot.task :=
  SlashBot.mk_task name guild_id method
    (match SlashBot.r_id kwargs with
     | Some i =>
         SlashBot.commands_path app_id guild_id +:+ "/" +:+ py_str_int i
     | None => SlashBot.commands_path app_id guild_id
     end)
    (SlashBot.mk_request (SlashBot.r_json kwargs) None
                         (SlashBot.r_cmd kwargs)).

(** The same outcomes with one more put in at position [n]. *)
Definition put_in {A} (n : nat) (x : A) (l : list A) : list A :=
  take n l ++ x :: drop n l.

(** *** The guard chain, described *)

(** The ancestors of a command, nearest first. *)
Fixpoint ancestors (c : Command.t) : list Command.t :=
  match Command.parent c with
  | Some p => p :: ancestors p
  | None => []
  end.

(** The check of a group as [can_run] calls it. *)
Definition group_check (p : Command.t) : callable :=
  Check (Command._check p) (Command.cog p).

(** The [cog_check] of the cog of [p], unless that cog is there already. *)
Definition add_cog_check (cogs : list callable) (p : Command.t)
  : list callable :=
  match Command.cog p with
  | Some c =>
      match cog_check c with
      | Some f => if cog_check_in c cogs then cogs else cogs ++ [CogCheck c f]
      | None => cogs
      end
  | None => cogs
  end.

(** The order the specification gives: the checks of the ancestor groups,
    outermost first, then the cog checks, then the global checks, then the
    command's own check. *)
Definition specified_guard_chain (self : Command.t) (ctx : Context.t)
  : list callable :=
  rev (map group_check (ancestors self))
  ++ fold_left add_cog_check (ancestors self) []
  ++ map GlobalCheck (_checks (Context.client ctx))
  ++ [Check (Command._check self) None].

(** The order the checks are called in, described.  A group has the check
    of a cog when it belongs to that cog and the cog has a [cog_check]. *)
Definition has_cog_check (c : Cog) (p : Command.t) : bool :=
  match Command.cog p with
  | Some c' =>
      match cog_check c' with
      | Some _ => Nat.eqb (cog_id c) (cog_id c')
      | None => false
      end
  | None => false
  end.

(** The cog checks of groups given outermost first: the check of a cog is
    listed once, where the innermost group of that cog stands. *)
Fixpoint innermost_cog_checks (groups : list Command.t) : list callable :=
  match groups with
  | [] => []
  | p :: inner =>
      match Command.cog p with
      | Some c =>
          match cog_check c with
          | Some f =>
              if existsb (has_cog_check c) inner
              then innermost_cog_checks inner
              else CogCheck c f :: innermost_cog_checks inner
          | None => innermost_cog_checks inner
          end
      | None => innermost_cog_checks inner
      end
  end.

(** The global checks, last registered first; the cog checks; the checks of
    the ancestor groups, outermost first; the check of the command. *)
Definition amended_guard_chain (self : Command.t) (ctx : Context.t)
  : list callable :=
  map GlobalCheck (rev (_checks (Context.client ctx)))
  ++ innermost_cog_checks (rev (ancestors self))
  ++ map group_check (rev (ancestors self))
  ++ [Check (Command._check self) None].

(** What awaiting a check gives, without the trace. *)
Definition check_value (behave : callable -> Context.t -> outcome)
           (c : callable) (ctx : Context.t) : outcome :=
  match c with
  | Check DefaultCheck _ => Returns JNull
  | _ => behave c ctx
  end.

(** *** Binding, described *)

(** How far [_kwargs_from_options] has come on the options [opts0] of an
    event for the command [cmd0]: the lookups made so far, [self.command],
    [kwargs], the variable [opt] (its name, possibly reassigned, and the entry
    itself) and the entries the running loop still has to go through.  The
    walk stops where the code raises or finishes. *)
Section Walk.
Variable client : Client.
Variable guild : option entity.
Variable resolved : list (string * list (string * json)).
Variable cmd0 : Command.t.
Variable opts0 : list EvOpt.

Inductive Reaches
  : list lookup -> Command.t -> list (string * argval) ->
    option (string * EvOpt) -> list EvOpt -> Prop :=
| Reaches_start :
    Reaches [] cmd0 [] None opts0
| Reaches_value tr cmd kwargs last opt rest value k o tr' v :
    (* an entry with a value was bound *)
    Reaches tr cmd kwargs last (opt :: rest) ->
    eo_value opt = Some value ->
    Context.find_option cmd (eo_name opt) = Some k ->
    dict_get k (Command.options cmd) = Some o ->
    Context.bind_value client guild resolved (Option.type o) value
      = (tr', Ok v) ->
    Reaches (tr ++ tr') cmd (dict_set k v kwargs) (Some (k, opt)) rest
| Reaches_skip tr cmd kwargs last opt rest :
    (* an entry with neither key was passed over *)
    Reaches tr cmd kwargs last (opt :: rest) ->
    eo_value opt = None ->
    eo_options opt = None ->
    Reaches tr cmd kwargs (Some (eo_name opt, opt)) rest
| Reaches_options tr cmd kwargs last opt rest subs children child :
    (* an entry with options was entered *)
    Reaches tr cmd kwargs last (opt :: rest) ->
    eo_value opt = None ->
    eo_options opt = Some subs ->
    Command.slash cmd = Some children ->
    dict_get (eo_name opt) children = Some child ->
    Reaches tr child [] None subs
| Reaches_after tr cmd kwargs name opt children child :
    (* the loop of a group ended and the last entry was entered *)
    Reaches tr cmd kwargs (Some (name, opt)) [] ->
    Command.slash cmd = Some children ->
    dict_get name children = Some child ->
    Reaches tr child [] None
            (match eo_options opt with Some subs => subs | None => [] end).
End Walk.

(** A run that comes after the lookups [tr]. *)
Definition tafter {E A} (tr : list E) (m : traced E A) : traced E A :=
  (tr ++ fst m, snd m).

(** The variable [opt] of [Reaches] as [kwargs_loop] has it. *)
Definition last_call (client : Client) (guild : option entity)
           (resolved : list (string * list (string * json)))
           (last : option (string * EvOpt))
  : option (string * (Command.t -> traced lookup Context.bound)) :=
  match last with
  | Some (name, opt) =>
      Some (name, Context.descend client guild resolved opt)
  | None => None
  end.


(** Whether the parameter that holds the context is annotated with the
    context class itself, so that [on_interaction_create] can call it. *)
Definition context_annotated (cmd : Command.t) : bool :=
  match List.find (fun p => String.eqb (p_name p) (Command._ctx_arg cmd))
                  (co_params (Command.coro cmd)) with
  | Some p => match p_annotation p with
              | Ann AnnContext => true
              | _ => false
              end
  | None => false
  end.

(** *** Entity resolution, described *)

(** Whether [_try_get] goes to the cache before anything else: [fq] is set,
    or there is no snapshot, or the snapshot does not have the identifier. *)
Definition cache_first (client : Client) (fq : option bool)
           (resolved : option (list (string * list (string * json))))
           (typename : string) (id : Z) : bool :=
  Context.fq_of client fq ||
  match resolved with
  | None => true
  | Some r =>
      match dict_get (typename +:+ "s") r with
      | Some frag => negb (dict_has (py_str_int id) frag)
      | None => false
      end
  end.


(** *** Construction, described *)

(** What [Command.__init__] asks of a parameter: an [Option] or the context
    class as its annotation, or a default value. *)
Definition annotated (p : Param) : bool :=
  let typ := Command.eval_annotation (p_annotation p) in
  Command.is_option typ || Command.is_context typ || p_has_default p.



(** The option a parameter gets from the [Option] it is annotated with. *)
Definition param_option (p : Param) (o : Option.t) : Option.t :=
  let o := Option.set_required
             (if py_truthy (Option.required o) then Option.required o
              else JBool false) o in
  let o := if p_has_default p then o
           else Option.set_required (JBool true) o in
  match Option.name o with
  | JNull => Option.set_name (JStr (p_name p)) o
  | _ => o
  end.

Definition param_options (ps : list Param) : list (string * Option.t) :=
  flat_map (fun p => match Command.eval_annotation (p_annotation p) with
                     | AnnOption o => [(p_name p, param_option p o)]
                     | _ => []
                     end) ps.

(** No dictionary in the data of an option, or of the options of a
    command and of its subcommands, has a key twice. *)
Definition Choice_wf (c : Choice.t) : bool :=
  json_wf (Choice.name c) && json_wf (Choice.value c).

Definition Option_wf (o : Option.t) : bool :=
  json_wf (Option.description o) && json_wf (Option.name o)
  && json_wf (Option.required o)
  && match Option.choices o with
     | Some cs => forallb Choice_wf cs
     | None => true
     end.

Fixpoint Command_wf (c : Command.t) : bool :=
  forallb (fun kv => Option_wf (snd kv)) (Command.options c)
  && match Command.slash c with
     | Some subs => forallb (fun kv => Command_wf (snd kv)) subs
     | None => true
     end.

(** The entry a group serialises a subcommand to. *)
Definition sub_entry (sub : Command.t) : json :=
  JDict (dict_set "type"
           (JInt (match Command.slash sub with
                  | Some _ => ApplicationCommandOptionType.SUB_COMMAND_GROUP
                  | None => ApplicationCommandOptionType.SUB_COMMAND
                  end))
           (Command.to_dict sub)).

(** The same command with other options of its own. *)
Definition with_options (o : list (string * Option.t)) (c : Command.t)
  : Command.t :=
  Command.mk (Command.cog c) (Command.coro c) (Command.id c) (Command.name c)
             (Command.description c) (Command.guild_id c) (Command.parent c)
             o (Command.default c) (Command._ctx_arg c) (Command._check c)
             (Command.slash c).

(** *** Invocation, described *)

(** The callback of a group as [invoke_parents] calls it. *)
Definition group_hook (p : Command.t) : callable :=
  Hook (co_fn (Command.coro p)) (Command.cog p).

(** The call of the callback of a command with the options of a context. *)
Definition body_call (self : Command.t) (ctx : Context.t) : callable :=
  Body (co_fn (Command.coro self)) (Command.cog self) (Context.options ctx).

(** The cogs whose [cog_check] is in a list of checks, by identity. *)
Definition cog_ids (l : list callable) : list nat :=
  flat_map (fun x => match x with
                     | CogCheck c _ => [cog_id c]
                     | _ => []
                     end) l.

(** A call returns, whatever value. *)
Definition returns (behave : callable -> Context.t -> outcome)
           (ctx : Context.t) (c : callable) : Prop :=
  exists v, check_value behave c ctx = Returns v.

(** A check returns something other than [False]. *)
Definition passes (behave : callable -> Context.t -> outcome)
           (ctx : Context.t) (c : callable) : Prop :=
  exists v, check_value behave c ctx = Returns v /\ v <> JBool false.


(** *** Binding, described further *)

(** The result of binding: a plain command, with the context under its
    context parameter. *)
Definition bound_ok (r : Context.bound) : Prop :=
  Command.slash (fst r) = None /\
  dict_get (Command._ctx_arg (fst r)) (snd r) = Some VSelf.

Definition call_ok (f : Command.t -> traced lookup Context.bound) : Prop :=
  forall c tr r, f c = (tr, Ok r) -> bound_ok r.



(** *** Responding, described *)

(** The warning [respond] gives for a response type that is to be
    deprecated. *)
Definition deprecation_warning (rtype : Z) : list Context.effect :=
  if (rtype =? InteractionResponseType.Acknowledge)
     || (rtype =? InteractionResponseType.ChannelMessage)
  then [Context.Warned rtype] else [].

(** The embeds of the body of a request: under ['embeds'] when the response
    is edited, under ['data']['embeds'] when it is first sent. *)
Definition body_embeds (method : string) (body : list (string * json))
  : option json :=
  if String.eqb method "PATCH" then dict_get "embeds" body
  else match dict_get "data" body with
       | Some (JDict inner) => dict_get "embeds" inner
       | _ => None
       end.

(** *** Reconciliation of one scope, described *)

(** A command is as it was, or as it was with an identifier bound to it. *)
Definition same_but_id (c c' : Command.t) : Prop :=
  c' = c \/ exists i, c' = Command.set_id (Some i) c.

(** What the loops of [sync_cmds] for the scope [g] keep of the state and
    of the commands they started from. *)
Definition kept (g : option Z) (st0 : SlashBot.state)
           (todo0 : gmap string Command.t)
           (a : SlashBot.state * gmap string Command.t) : Prop :=
  (forall g', g' <> g ->
     SlashBot.POST (fst a) !! g' = SlashBot.POST st0 !! g' /\
     SlashBot.PATCH (fst a) !! g' = SlashBot.PATCH st0 !! g' /\
     SlashBot.DELETE (fst a) !! g' = SlashBot.DELETE st0 !! g') /\
  (forall s, match todo0 !! s with
             | Some c => exists c', snd a !! s = Some c' /\ same_but_id c c'
             | None => snd a !! s = None
             end).

(** The scope a command is registered in: [cmd.guild_id or self.debug_guild]. *)
Definition scope_of (debug_guild : option Z) (cmd : Command.t) : option Z :=
  match Command.guild_id cmd with
  | Some 0 | None => debug_guild
  | Some g => Some g
  end.

(** The command with its scope as its guild. *)
Definition in_scope (debug_guild : option Z) (cmd : Command.t) : Command.t :=
  Command.mk (Command.cog cmd) (Command.coro cmd) (Command.id cmd)
             (Command.name cmd) (Command.description cmd)
             (scope_of debug_guild cmd) (Command.parent cmd)
             (Command.options cmd) (Command.default cmd)
             (Command._ctx_arg cmd) (Command._check cmd) (Command.slash cmd).

(** Every command filed in [G0] is filed in [G] under the same scope and
    name, as it was or with an identifier bound to it, and [G] files no
    other. *)
Definition kept_filed (G0 G : gmap (option Z) (gmap string Command.t))
  : Prop :=
  forall s n,
    match lookup_cmd G0 s n with
    | Some c => exists c', lookup_cmd G s n = Some c' /\ same_but_id c c'
    | None => lookup_cmd G s n = None
    end.

(** How a task ends whose request raised [e]: [HTTPException] is logged and
    the task returns; any other exception leaves [process_command] with
    nothing but the debug line logged. *)
Definition failure (t : SlashBot.task) (e : exn) : traced SlashBot.log unit :=
  let debug := SlashBot.Debug (SlashBot.t_method t) (SlashBot.t_name t)
                              (SlashBot.t_guild_id t) in
  match e with
  | HTTPException => ([SlashBot.Exception (SlashBot.t_name t); debug], Ok tt)
  | _ => ([debug], Raise e)
  end.

(* ===================================================================== *)
(** ** Sample callbacks, commands and contexts *)
(* ===================================================================== *)

Definition two_contexts : Coroutine :=
  {| co_fn := "both"; co_name := "both"; co_doc := Some "Two context slots";
     co_params := [ {| p_name := "a"; p_annotation := Ann AnnContext;
                       p_has_default := false |};
                    {| p_name := "b"; p_annotation := Ann AnnContext;
                       p_has_default := false |} ] |}.

Definition no_context : Coroutine :=
  {| co_fn := "none"; co_name := "none"; co_doc := Some "No context slot";
     co_params := [ {| p_name := "x";
                       p_annotation :=
                         Ann (AnnOption (Option.mk (JStr "x") 3 JNull
                                                   (JBool false) None));
                       p_has_default := false |} ] |}.

Definition one_context : Coroutine :=
  {| co_fn := "repeat"; co_name := "repeat";
     co_doc := Some "Make the bot repeat what you say";
     co_params := [ {| p_name := "ctx"; p_annotation := Ann AnnContext;
                       p_has_default := false |};
                    {| p_name := "message";
                       p_annotation :=
                         Ann (AnnOption (Option.mk (JStr "Message to send") 3
                                                   JNull (JBool true) None));
                       p_has_default := false |} ] |}.

(** A callback that takes the context and nothing else. *)
Definition ctx_only (name : string) : Coroutine :=
  {| co_fn := name; co_name := name; co_doc := Some "A callback";
     co_params := [ {| p_name := "ctx"; p_annotation := Ann AnnContext;
                       p_has_default := false |} ] |}.

(** Constructors that ask of the data the keys discord.py reads without a
    default when nothing is cached, in the order it reads them, and of a
    channel that it has a guild. *)
Definition need (keys : list string) (data : json)
  : result (list (string * json)) :=
  match data with
  | JDict d =>
      match List.find (fun k => negb (dict_has k d)) keys with
      | Some k => Raise (KeyError k)
      | None => Ok d
      end
  | _ => Raise (TypeError "indices must be integers")
  end.

Definition sample_user_init (data : json) : result Z :=
  d <- need ["id"] data ;;
  j <- dict_item "id" d ;;
  i <- py_int j ;;
  _ <- need ["username"; "discriminator"; "avatar"] data ;;
  Ok i.

Definition sample_member_init (data : json) (guild : option entity)
  : result Z :=
  d <- need ["user"] data ;;
  user <- dict_item "user" d ;;
  i <- sample_user_init user ;;
  _ <- need ["roles"] data ;;
  Ok i.

Definition sample_channel_init (cls : string) (data : json)
           (guild : option entity) : result Z :=
  d <- need ["id"; "type"; "name"; "position"] data ;;
  j <- dict_item "id" d ;;
  i <- py_int j ;;
  match guild with
  | Some _ => Ok i
  | None => Raise (AttributeError "id")
  end.

Definition sample_role_init (data : json) (guild : option entity)
  : result Z :=
  d <- need ["id"; "name"] data ;;
  j <- dict_item "id" d ;;
  py_int j.

(** A client whose cache holds guild 10, channel 20 and, in guild 10, member
    30 and role 40; fetching always fails. *)
Definition sample_client (checks : list fn)
           (resolve_not_fetch fetch_if_not_get : bool) : Client :=
  {| debug_guild := None;
     resolve_not_fetch := resolve_not_fetch;
     fetch_if_not_get := fetch_if_not_get;
     _checks := checks;
     user_id := 1;
     get_guild := fun i => if i =? 10 then Some (Full "Guild" 10) else None;
     fetch_guild := fun _ => Raise HTTPException;
     get_channel :=
       fun i => if i =? 20 then Some (Full "TextChannel" 20) else None;
     fetch_channel := fun _ => Raise HTTPException;
     guild_get_member :=
       fun g i => if (g =? 10) && (i =? 30) then Some (Full "Member" 30)
                  else None;
     guild_fetch_member := fun _ _ => Raise HTTPException;
     guild_get_channel :=
       fun g i => if (g =? 10) && (i =? 20) then Some (Full "TextChannel" 20)
                  else None;
     guild_get_role :=
       fun g i => if (g =? 10) && (i =? 40) then Some (Full "Role" 40)
                  else None;
     _channel_factory :=
       fun t => match t with
                | JInt 0 => Some "TextChannel"
                | JInt 2 => Some "VoiceChannel"
                | JInt 4 => Some "CategoryChannel"
                | _ => None
                end;
     member_init := sample_member_init;
     user_init := sample_user_init;
     channel_init := sample_channel_init;
     role_init := sample_role_init |}.

(** A group [admin] with its own check, and its subcommand [ban]. *)
Definition admin_group : Command.t :=
  Command.mk None (ctx_only "admin") None "admin" "Administration" None None
             [] false "ctx" (UserCheck "admin_check") (Some []).

Definition ban_cmd : Command.t :=
  Command.mk None (ctx_only "ban") None "ban" "Ban a member" None
             (Some admin_group) [] false "ctx" (UserCheck "ban_check") None.

(** An invocation of [ban] on a client with one global check. *)
Definition ban_ctx : Context.t :=
  Context.mk (sample_client ["is_owner"] true false) ban_cmd 100
             (Some (Full "Guild" 10)) (Full "TextChannel" 20)
             (Some (Full "Member" 30)) (JStr "token") None
             [("ctx", VSelf)] (Full "Member" 1).

(** The global check refuses; every other callback returns [None]. *)
Definition refuse_global (c : callable) (_ : Context.t) : outcome :=
  match c with
  | GlobalCheck _ => Returns (JBool false)
  | _ => Returns JNull
  end.

(** The check of [admin] refuses; every other check passes. *)
Definition refuse_admin (c : callable) (_ : Context.t) : outcome :=
  match c with
  | Check (UserCheck "admin_check") _ => Returns (JBool false)
  | _ => Returns (JBool true)
  end.

(** The snapshot of an event that mentions member 30, a cache accessor
    that knows every member, one that knows none, and a fetch that fails. *)
Definition user_30 : json :=
  JDict [("id", JStr "30"); ("username", JStr "neo");
         ("discriminator", JStr "0001"); ("avatar", JNull)].












(** The command [pay(ctx, amount)] with one required integer option,
    registered under the identifier 500, and an event that invokes it. *)
Definition amount_option : Option.t :=
  Option.mk (JStr "How much to pay") ApplicationCommandOptionType.INTEGER
            JNull (JBool false) None.

Definition pay_coro : Coroutine :=
  {| co_fn := "pay"; co_name := "pay"; co_doc := Some "Pay an amount";
     co_params := [ {| p_name := "ctx"; p_annotation := Ann AnnContext;
                       p_has_default := false |};
                    {| p_name := "amount";
                       p_annotation := Ann (AnnOption amount_option);
                       p_has_default := false |} ] |}.

Definition pay_cmd : Command.t :=
  Command.mk None pay_coro (Some 500) "pay" "Pay an amount" None None
             [("amount",
               Option.mk (JStr "How much to pay")
                         ApplicationCommandOptionType.INTEGER
                         (JStr "amount") (JBool true) None)]
             false "ctx" DefaultCheck None.

Definition pay_event (options : list EvOpt) : Event :=
  {| ev_version := JInt 1;
     ev_id := JStr "900";
     ev_guild_id := Some (JStr "10");
     ev_channel_id := JStr "20";
     ev_member := Some (JDict [("user", user_30); ("roles", JList [])]);
     ev_token := JStr "token";
     ev_data_id := JStr "500";
     ev_data_name := "pay";
     ev_options := Some options;
     ev_resolved := None |}.

(** Callbacks that all return [None]. *)
Definition quiet (c : callable) (_ : Context.t) : outcome := Returns JNull.

(** What the API holds: [pay] as the sample command serialises, under the
    identifier 500, and [old], which the code no longer has. *)
Definition remote_pay : list (string * json) :=
  [("id", JStr "500"); ("application_id", JStr "7");
   ("name", JStr "pay"); ("description", JStr "Pay an amount");
   ("options", JList [JDict [("type", JInt 4); ("name", JStr "amount");
                             ("description", JStr "How much to pay");
                             ("required", JBool true)]])].

Definition remote_old : list (string * json) :=
  [("id", JStr "501"); ("name", JStr "old");
   ("description", JStr "No longer there")].

(** [pay] as the API held it before its description was changed. *)
Definition remote_pay_before : list (string * json) :=
  [("id", JStr "500"); ("name", JStr "pay");
   ("description", JStr "Pay");
   ("options", JList [JDict [("type", JInt 4); ("name", JStr "amount");
                             ("description", JStr "How much to pay");
                             ("required", JBool true)]])].

(** The commands of the code: [pay], not registered yet as far as the code
    knows, and [ping]. *)
Definition pay_new : Command.t := Command.set_id None pay_cmd.

Definition ping_cmd : Command.t :=
  Command.mk None (ctx_only "ping") None "ping" "Answer with pong" None None
             [] false "ctx" DefaultCheck None.

Definition sample_todo : gmap string Command.t :=
  {[ "pay" := pay_new; "ping" := ping_cmd ]}.

Definition sample_done : gmap pykey (list (string * json)) :=
  {[ KStr "pay" := remote_pay; KStr "old" := remote_old ]}.

(** The API lists [pay] as it is registered and fails on everything but
    the listing. *)
Definition answering_pay (method path : string)
           (body : option (list (string * json))) : result json :=
  if String.eqb method "GET" then Ok (JList [JDict remote_pay])
  else Raise HTTPException.

(** The API accepts creations, answering with the identifier 777, and
    fails on everything else. *)
Definition creating_http (method path : string)
           (body : option (list (string * json))) : result json :=
  if String.eqb method "POST"
  then Ok (JDict [("id", JStr "777"); ("name", JStr "ping")])
  else Raise HTTPException.

Definition delete_old : SlashBot.task :=
  SlashBot.mk_task (KStr "old") None "DELETE" "/applications/7/commands/501"
                   (SlashBot.mk_request None None None).

Definition create_ping : SlashBot.task :=
  SlashBot.mk_task (KStr "ping") None "POST" "/applications/7/commands"
                   (SlashBot.mk_request (Some (Command.to_dict ping_cmd)) None
                                        (Some (None, KStr "ping"))).

Definition sample_guilds : gmap (option Z) (gmap string Command.t) :=
  {[ None := sample_todo ]}.

(** An invocation of [pay] outside any guild: no guild and no member. *)
Definition dm_ctx : Context.t :=
  Context.mk (sample_client [] true false) pay_cmd 901 None (Object 20) None
             (JStr "token") None [("ctx", VSelf)] (Object 1).

(** The check of [admin] raises; every other callback returns [None]. *)
Definition raise_in_check (c : callable) (_ : Context.t) : outcome :=
  match c with
  | Check (UserCheck "admin_check") _ => Raises (RuntimeError "no")
  | _ => Returns JNull
  end.

(** The callback of [admin] raises; every other callback returns [None]. *)
Definition raise_in_hook (c : callable) (_ : Context.t) : outcome :=
  match c with
  | Hook "admin" _ => Raises (RuntimeError "no")
  | _ => Returns JNull
  end.

(** A cog with a [cog_check], a group and a subgroup of that cog, and a
    command of the subgroup. *)
Definition mod_cog : Cog := {| cog_id := 1; cog_check := Some "mod_only" |}.

Definition mod_group : Command.t :=
  Command.mk (Some mod_cog) (ctx_only "mod") None "mod" "Moderation" None
             None [] false "ctx" DefaultCheck (Some []).

Definition warn_group : Command.t :=
  Command.mk (Some mod_cog) (ctx_only "warn") None "warn" "Warnings" None
             (Some mod_group) [] false "ctx" DefaultCheck (Some []).

Definition warn_add : Command.t :=
  Command.mk (Some mod_cog) (ctx_only "add") None "add" "Warn a member" None
             (Some warn_group) [] false "ctx" DefaultCheck None.

(** Three groups, the outermost and the innermost of one cog and the middle
    one of another, and a command of the innermost. *)
Definition cog_a : Cog := {| cog_id := 2; cog_check := Some "a_check" |}.
Definition cog_b : Cog := {| cog_id := 3; cog_check := Some "b_check" |}.

Definition top_group : Command.t :=
  Command.mk (Some cog_a) (ctx_only "top") None "top" "Outermost" None
             None [] false "ctx" (UserCheck "top_check") (Some []).

Definition mid_group : Command.t :=
  Command.mk (Some cog_b) (ctx_only "mid") None "mid" "Middle" None
             (Some top_group) [] false "ctx" (UserCheck "mid_check")
             (Some []).

Definition near_group : Command.t :=
  Command.mk (Some cog_a) (ctx_only "near") None "near" "Innermost" None
             (Some mid_group) [] false "ctx" (UserCheck "near_check")
             (Some []).

Definition leaf_cmd : Command.t :=
  Command.mk None (ctx_only "leaf") None "leaf" "A command" None
             (Some near_group) [] false "ctx" (UserCheck "leaf_check") None.

(** The API cannot be reached. *)
Definition unreachable (method path : string)
           (body : option (list (string * json))) : result json :=
  Raise (OSError "Cannot connect to host").

(** The group [admin] with its subcommand [ban] registered. *)
Definition admin_tree : Command.t :=
  Command.mk None (ctx_only "admin") None "admin" "Administration" None None
             [] false "ctx" (UserCheck "admin_check")
             (Some [("ban", ban_cmd)]).

(** [str] on strings, an embed, and an API that accepts every request. *)
Definition str_of (j : json) : string :=
  match j with JStr s => s | _ => "" end.

Definition sample_embed : Context.Embed :=
  Context.mk_embed true [("title", JStr "Pong")].

Definition accepting (method path : string)
           (body : option (list (string * json))) : result json :=
  Ok JNull.

(** The API holds no command and fails on everything but the listing. *)
Definition empty_api (method path : string)
           (body : option (list (string * json))) : result json :=
  if String.eqb method "GET" then Ok (JList []) else Raise HTTPException.

(** An event from outside any guild: it has no ['guild_id'] and no
    ['member']. *)
Definition dm_event : Event :=
  {| ev_version := JInt 1;
     ev_id := JStr "901";
     ev_guild_id := None;
     ev_channel_id := JStr "20";
     ev_member := None;
     ev_token := JStr "token";
     ev_data_id := JStr "500";
     ev_data_name := "pay";
     ev_options := Some [mkEvOpt "amount" (Some (JInt 5)) None];
     ev_resolved := None |}.

(** The context that is built for it. *)
Definition dm_built : Context.t :=
  Context.mk (sample_client [] true false) pay_cmd 901 None (Object 20) None
             (JStr "token") None
             [("amount", VRaw (JInt 5)); ("ctx", VSelf)] (Object 1).

(** An option whose [required] is not true without being [False]. *)
Definition lenient_option : Option.t :=
  Option.mk (JStr "A number") ApplicationCommandOptionType.INTEGER JNull
            (JInt 0) None.

(* ===================================================================== *)
(** * Properties *)
(* ===================================================================== *)

(** ** Values *)

(** [int] reads the decimal digits of any script and strips the white space
    of Unicode, but not the separators U+001C to U+001F. *)
Example int_reads_unicode_digits :
  py_int (JStr "１２") = Ok 12 /\
  py_int (JStr " 1_000　") = Ok 1000 /\
  py_int (JStr (String "028" "1"))
  = Raise (ValueError "invalid literal for int() with base 10").
Proof. vm_compute. repeat split. Qed.

(** ** Option and Choice *)

Lemma Choice_from_to_dict (c : Choice.t) :
  Choice.from_data (Choice.Data (JDict (Choice.to_dict c))) = Ok c.
Proof. by destruct c. Qed.

Lemma Choice_list_roundtrip (cs : list Choice.t) :
  mapM Choice.from_data
       (map Choice.Data (map (fun c => JDict (Choice.to_dict c)) cs)) = Ok cs.
Proof.
  induction cs as [|c cs IH]; [done|].
  cbn [map mapM]. rewrite Choice_from_to_dict. cbn [bind].
  by rewrite IH.
Qed.

(** What [clone] builds: the same option, except that a [required] value that
    is not true is replaced by the default [False]. *)
Lemma Option_clone_value (o : Option.t) :
  Option.clone o =
  Ok (Option.set_required
        (if py_truthy (Option.required o) then Option.required o
         else JBool false) o).
Proof.
  destruct o as [d ty n r cs]. unfold Option.clone, Option.to_dict.
  cbn [Option.required Option.choices Option.type Option.name
       Option.description].
  destruct (py_truthy r) eqn:Hr, cs as [cs|]; cbn;
    rewrite ?Choice_list_roundtrip; cbn; done.
Qed.

(** C9. For every Option, [clone] succeeds and the clone serialises to the
    same dictionary as the original: same type, name and description, the
    required flag when it is set, and the choices when there are any. *)
Theorem Option_clone_to_dict (o : Option.t) :
  exists o', Option.clone o = Ok o' /\ Option.to_dict o' = Option.to_dict o.
Proof.
  eexists. split; [apply Option_clone_value|].
  destruct o as [d ty n r cs]. unfold Option.to_dict, Option.set_required.
  cbn [Option.required Option.choices Option.type Option.name
       Option.description].
  destruct (py_truthy r) eqn:Hr; [by rewrite Hr|done].
Qed.

(** ** Construction of a command *)

Lemma init_param_ctx st p st' :
  Command.init_param st p = Ok st' ->
  fst st' = if Command.is_context (Command.eval_annotation (p_annotation p))
            then Some (p_name p) else fst st.
Proof.
  unfold Command.init_param.
  destruct (negb _ && negb _); [discriminate|].
  destruct (Command.eval_annotation (p_annotation p)) as [o| | |]; cbn;
    try (intros [= <-]; done).
  destruct (Option.clone o); cbn; [|discriminate]. by intros [= <-].
Qed.

Lemma init_params_ctx ps : forall st st',
  Command.init_params st ps = Ok st' ->
  fst st' =
  match last (map p_name
                (List.filter
                   (fun p => Command.is_context
                               (Command.eval_annotation (p_annotation p)))
                   ps)) with
  | Some n => Some n
  | None => fst st
  end.
Proof.
  induction ps as [|p ps IH]; intros st st'; cbn [Command.init_params].
  - by intros [= <-].
  - destruct (Command.init_param st p) as [st1|] eqn:Hp; cbn; [|discriminate].
    intros H. apply IH in H. rewrite H.
    apply init_param_ctx in Hp. rewrite Hp. cbn [List.filter].
    destruct (Command.is_context _); cbn [map]; [|done].
    rewrite last_cons. by destruct (last _).
Qed.

(** C6 as stated fails: a callback with two parameters annotated with the
    context type is accepted, and the second one becomes the context
    slot. *)
Lemma Command_init_two_contexts_accepted :
  length (context_params two_contexts) = 2%nat /\
  exists c,
    Command.init false two_contexts None None None None None = Ok c /\
    Command._ctx_arg c = "b".
Proof. split; [reflexivity|]. eexists. split; reflexivity. Qed.

(** C6, amended.  Construction checks for at least one context parameter:
    with none it fails, at construction time, with a definition error
    ([ValueError] or [TypeError]); whenever it succeeds there is at least one
    and the last of them is the context slot. *)
Theorem Command_init_context_slot
        (group : bool) (coro : Coroutine) (kw_name : option string)
        (kw_description : option (option string))
        (kw_guild : option json) (kw_parent : option Command.t)
        (kw_check : option fn) :
  (context_params coro = [] ->
   exists msg,
     Command.init group coro kw_name kw_description kw_guild kw_parent kw_check
       = Raise (ValueError msg) \/
     Command.init group coro kw_name kw_description kw_guild kw_parent kw_check
       = Raise (TypeError msg)) /\
  (forall c,
     Command.init group coro kw_name kw_description kw_guild kw_parent kw_check
       = Ok c ->
     last (context_params coro) = Some (Command._ctx_arg c)).
Proof.
  unfold Command.init, context_params.
  destruct (match kw_description with Some d => d | None => co_doc coro end)
    as [[|a d]|].
  1,3: split; [intros _; eexists; by left|discriminate].
  destruct (match kw_guild with
            | None | Some JNull => Ok None
            | Some g => z <- py_int g ;; Ok (Some z)
            end) as [g|e] eqn:Hg; cbn [bind].
  2:{ split; [|discriminate]. intros _.
      destruct kw_guild as [[]|]; try discriminate; cbn in Hg;
        try (injection Hg as <-; eexists; by right).
      destruct (int_of_str s); cbn in Hg; [discriminate|].
      injection Hg as <-. eexists; by left. }
  destruct (Command.init_params (None, []) (co_params coro)) as [st|e] eqn:Hps;
    cbn [bind].
  - apply init_params_ctx in Hps. cbn [fst] in Hps. split.
    + intros Hnil. rewrite Hnil in Hps. cbn in Hps. rewrite Hps.
      eexists; by left.
    + intros c. destruct (fst st) as [ctx|]; [|discriminate].
      intros [= <-]. cbn [Command._ctx_arg].
      destruct (last _); [by rewrite Hps|discriminate].
  - split; [|discriminate]. intros _.
    clear Hg. revert Hps. generalize (@None string, @nil (string * Option.t)).
    induction (co_params coro) as [|p ps IH]; intros st; cbn; [discriminate|].
    destruct (Command.init_param st p) as [st1|e1] eqn:Hp; cbn; [apply IH|].
    intros [= <-]. unfold Command.init_param in Hp.
    destruct (negb _ && negb _).
    + injection Hp as <-. eexists; by right.
    + destruct (Command.eval_annotation (p_annotation p)); try discriminate.
      rewrite Option_clone_value in Hp. discriminate.
Qed.

Lemma Command_init_context_slot_witness :
  (exists msg,
     Command.init false no_context None None None None None
       = Raise (ValueError msg) \/
     Command.init false no_context None None None None None
       = Raise (TypeError msg)) /\
  last (context_params one_context) = Some "ctx".
Proof.
  split.
  - apply (Command_init_context_slot false no_context None None None None None).
    reflexivity.
  - destruct (Command.init false one_context None None None None None)
      as [c|e] eqn:H; [|discriminate].
    pose proof (proj2 (Command_init_context_slot
                         false one_context None None None None None) c H) as L.
    vm_compute in H. injection H as <-. exact L.
Defined.

(** ** The guard chain *)

Lemma parent_chain_ind (P : Command.t -> Prop) :
  (forall c,
     match Command.parent c with Some p => P p | None => True end -> P c) ->
  forall c, P c.
Proof.
  intros H. fix IH 1. intros c. apply H.
  destruct c as [? ? ? ? ? ? par ? ? ? ? ?]; cbn.
  destruct par as [p|]; [apply IH|exact I].
Qed.

Lemma can_run_walk_spec p : forall parents cogs,
  can_run_walk p parents cogs =
  (parents ++ map group_check (p :: ancestors p),
   fold_left add_cog_check (p :: ancestors p) cogs).
Proof.
  induction p as [p IH] using parent_chain_ind. intros parents cogs.
  destruct p as [cg co i n d g par o df ca ck sl]; cbn in IH |- *.
  unfold group_check at 1, add_cog_check at 2; cbn.
  destruct cg as [c|]; cbn.
  - destruct par as [q|]; cbn.
    + rewrite IH. by rewrite <- app_assoc.
    + done.
  - destruct par as [q|]; cbn.
    + rewrite IH. by rewrite <- app_assoc.
    + done.
Qed.

Lemma can_run_checks_spec (self : Command.t) (ctx : Context.t) :
  can_run_checks self ctx =
  rev (map GlobalCheck (_checks (Context.client ctx)))
  ++ rev (fold_left add_cog_check (ancestors self) [])
  ++ rev (map group_check (ancestors self))
  ++ [Check (Command._check self) None].
Proof.
  unfold can_run_checks.
  destruct self as [cg co i n d g par o df ca ck sl]; cbn.
  destruct par as [p|]; cbn.
  - rewrite can_run_walk_spec. cbn.
    rewrite !rev_app_distr. cbn. by rewrite <- !app_assoc.
  - done.
Qed.

Lemma await_value behave (c : callable) (ctx : Context.t) :
  await behave c ctx =
  ([Called c], match check_value behave c ctx with
               | Returns v => Ok v
               | Raises e => Raise e
               end).
Proof.
  unfold await, check_value. cbn.
  destruct c as [[|f] b|c f|f|f b|f b kw]; cbn; try done;
    by destruct (behave _ ctx).
Qed.

Lemma run_checks_stop behave (ctx : Context.t) (c : callable) post :
  check_value behave c ctx = Returns (JBool false) ->
  forall pre,
    Forall (fun x => exists v, check_value behave x ctx = Returns v /\
                               v <> JBool false) pre ->
    run_checks behave (pre ++ c :: post) ctx
    = (map Called (pre ++ [c]), Ok false).
Proof.
  intros Hc pre. induction pre as [|x pre IH]; intros Hpre.
  - cbn [app run_checks]. rewrite await_value, Hc. done.
  - inversion Hpre as [|? ? [v [Hv Hne]] Hrest]; subst.
    cbn [app run_checks]. rewrite await_value, Hv.
    cbn [tbind]. rewrite (IH Hrest).
    destruct v as [|[]| | | |]; try done.
Qed.

(** C1 as stated fails: the checks are not in the order the specification
    gives; the global check is called before the check of the ancestor group,
    and when it returns [False] the check of the group is never called. *)
Lemma can_run_global_check_first :
  can_run_checks ban_cmd ban_ctx <> specified_guard_chain ban_cmd ban_ctx /\
  can_run_checks ban_cmd ban_ctx
  = [GlobalCheck "is_owner"; Check (UserCheck "admin_check") None;
     Check (UserCheck "ban_check") None] /\
  specified_guard_chain ban_cmd ban_ctx
  = [Check (UserCheck "admin_check") None; GlobalCheck "is_owner";
     Check (UserCheck "ban_check") None] /\
  invoke refuse_global ban_cmd ban_ctx
  = ([Called (GlobalCheck "is_owner")], Raise (CheckFailure "admin ban")).
Proof. split; [discriminate|]. repeat split. Qed.

Lemma cog_check_in_id c c' cogs :
  cog_id c = cog_id c' -> cog_check_in c cogs = cog_check_in c' cogs.
Proof. unfold cog_check_in. by intros ->. Qed.

Lemma cog_check_in_add c cogs p :
  cog_check_in c (add_cog_check cogs p)
  = cog_check_in c cogs || has_cog_check c p.
Proof.
  unfold add_cog_check, has_cog_check.
  destruct (Command.cog p) as [c'|]; [|by rewrite orb_false_r].
  destruct (cog_check c') as [f|]; [|by rewrite orb_false_r].
  destruct (cog_check_in c' cogs) eqn:Hin.
  - destruct (Nat.eqb (cog_id c) (cog_id c')) eqn:E;
      [|by rewrite orb_false_r].
    apply Nat.eqb_eq in E. rewrite (cog_check_in_id c c') by done.
    by rewrite Hin.
  - unfold cog_check_in. rewrite existsb_app. cbn. by rewrite orb_false_r.
Qed.

Lemma cog_check_in_fold c l : forall cogs,
  cog_check_in c (fold_left add_cog_check l cogs)
  = cog_check_in c cogs || existsb (has_cog_check c) l.
Proof.
  induction l as [|p l IH]; intros cogs; cbn [fold_left existsb].
  - by rewrite orb_false_r.
  - by rewrite IH, cog_check_in_add, orb_assoc.
Qed.

Lemma existsb_rev_eq {A} (f : A -> bool) l : existsb f (rev l) = existsb f l.
Proof.
  induction l as [|x l IH]; [done|]. cbn. rewrite existsb_app, IH. cbn.
  rewrite orb_false_r. apply orb_comm.
Qed.

Lemma cog_checks_innermost l :
  rev (fold_left add_cog_check l []) = innermost_cog_checks (rev l).
Proof.
  induction l as [|p l IH] using rev_ind; [done|].
  rewrite fold_left_app, rev_app_distr. cbn [fold_left rev app].
  cbn [innermost_cog_checks]. unfold add_cog_check at 1.
  destruct (Command.cog p) as [c|]; [|exact IH].
  destruct (cog_check c) as [f|]; [|exact IH].
  rewrite existsb_rev_eq, <- IH.
  rewrite (cog_check_in_fold c l []). cbn [cog_check_in existsb orb].
  destruct (existsb (has_cog_check c) l); [done|].
  by rewrite rev_app_distr.
Qed.

(** C1, amended.  The checks run before the body of a command are, in this
    order: the global checks of the client (last registered first); the
    [cog_check] of each cog an ancestor group belongs to, once for each cog,
    where the innermost group of that cog stands among the ancestors taken
    from the outermost down; the checks of the ancestor groups (outermost
    first); and the check of the command itself.  They are evaluated in this
    order; at the first one that returns [False], [invoke] raises
    [CheckFailure] and has called nothing but the checks up to that one: no
    later check, no callback of a parent group and not the body. *)
Theorem can_run_order_short_circuit
        (behave : callable -> Context.t -> outcome)
        (self : Command.t) (ctx : Context.t) :
  can_run_checks self ctx = amended_guard_chain self ctx /\
  forall pre c post,
    can_run_checks self ctx = pre ++ c :: post ->
    Forall (fun x => exists v, check_value behave x ctx = Returns v /\
                               v <> JBool false) pre ->
    check_value behave c ctx = Returns (JBool false) ->
    invoke behave self ctx
    = (map Called (pre ++ [c]), Raise (CheckFailure (Command.qualname self))).
Proof.
  split.
  - rewrite can_run_checks_spec. unfold amended_guard_chain.
    by rewrite cog_checks_innermost, !map_rev.
  - intros pre c post Hchain Hpre Hc.
    unfold invoke, can_run. rewrite Hchain.
    rewrite (run_checks_stop behave ctx c post Hc pre Hpre).
    cbn. by rewrite app_nil_r.
Qed.

Lemma can_run_order_short_circuit_witness :
  invoke refuse_admin ban_cmd ban_ctx
  = ([Called (GlobalCheck "is_owner");
      Called (Check (UserCheck "admin_check") None)],
     Raise (CheckFailure "admin ban")) /\
  can_run_checks leaf_cmd ban_ctx
  = [GlobalCheck "is_owner";
     CogCheck cog_b "b_check"; CogCheck cog_a "a_check";
     Check (UserCheck "top_check") (Some cog_a);
     Check (UserCheck "mid_check") (Some cog_b);
     Check (UserCheck "near_check") (Some cog_a);
     Check (UserCheck "leaf_check") None].
Proof.
  split.
  - apply (proj2 (can_run_order_short_circuit refuse_admin ban_cmd ban_ctx)
                 [GlobalCheck "is_owner"]
                 (Check (UserCheck "admin_check") None)
                 [Check (UserCheck "ban_check") None]).
    + reflexivity.
    + repeat constructor. eexists. split; [reflexivity|discriminate].
    + reflexivity.
  - rewrite (proj1 (can_run_order_short_circuit quiet leaf_cmd ban_ctx)).
    reflexivity.
Defined.

(** ** Entity resolution *)


(** The same drop without a snapshot, as in [Context.__init__]: the guild the
    cache returned is replaced by the bare identifier. *)
Lemma try_get_cache_hit_dropped_without_fetch :
  Context._try_get (sample_client [] true false) (Object 10)
    (Some (fun i => Ok (get_guild (sample_client [] true false) i)))
    (Some (fetch_guild (sample_client [] true false))) "guild"
    None None None None
  = ([Get "guild" 10], Ok (Object 10)).
Proof. reflexivity. Qed.




Lemma try_get_cache_first client default get_method fetch_method typename
      resolve_method resolved fng fq :
  cache_first client fq resolved typename (entity_id default) = true ->
  Context._try_get client default get_method fetch_method typename
                   resolve_method resolved fng fq
  = Context.get_or_fetch default get_method fetch_method typename
      (Context.fng_of client fng)
      (Context.resolve_or_default default typename resolve_method resolved).
Proof.
  unfold cache_first, Context._try_get, Context.enters_try.
  destruct (Context.fq_of client fq); cbn [orb]; intros Hc.
  - cbn [lift tbind]. by destruct (Context.get_or_fetch _ _ _ _ _ _).
  - destruct resolved as [r|].
    + unfold dict_item.
      destruct (dict_get (typename +:+ "s") r) as [frag|]; [|done].
      cbn [bind lift tbind]. rewrite Hc.
      by destruct (Context.get_or_fetch _ _ _ _ _ _).
    + cbn [lift tbind]. by destruct (Context.get_or_fetch _ _ _ _ _ _).
Qed.




(** ** Binding the options of an event *)

Lemma tafter_bind {E A B} (tr tr' : list E) (a : A) (k : A -> traced E B) :
  tafter tr (tbind (tr', Ok a) k) = tafter (tr ++ tr') (k a).
Proof.
  unfold tafter, tbind. destruct (k a) as [tr'' r]. cbn.
  by rewrite app_assoc.
Qed.

Lemma descend_unfold client guild resolved opt cmd :
  Context.descend client guild resolved opt cmd
  = Context.kwargs_loop client guild resolved
      (Context.descend client guild resolved) cmd [] None
      (match eo_options opt with Some subs => subs | None => [] end).
Proof. by destruct opt as [n v [subs|]]. Qed.

(** Where the walk has come to, the code goes on from. *)
Lemma reaches_run client guild resolved cmd0 opts0 tr cmd kwargs last rest :
  Reaches client guild resolved cmd0 opts0 tr cmd kwargs last rest ->
  Context._kwargs_from_options client guild resolved cmd0 opts0
  = tafter tr (Context.kwargs_loop client guild resolved
                 (Context.descend client guild resolved) cmd kwargs
                 (last_call client guild resolved last) rest).
Proof.
  induction 1 as [|tr cmd kwargs last opt rest value k o tr' v _ IH Hv Hk Ho Hb
                  |tr cmd kwargs last opt rest _ IH Hv Ho
                  |tr cmd kwargs last opt rest subs children child _ IH
                     Hv Ho Hs Hc
                  |tr cmd kwargs name opt children child _ IH Hs Hc].
  - unfold Context._kwargs_from_options, tafter. cbn.
    by destruct (Context.kwargs_loop _ _ _ _ _ _ _ _).
  - rewrite IH. cbn [Context.kwargs_loop]. rewrite Hv, Hk.
    unfold dict_item. rewrite Ho. cbn [lift tbind app]. rewrite Hb.
    cbn [last_call tbind].
    destruct (Context.kwargs_loop _ _ _ _ _ (dict_set k v kwargs) _ rest)
      as [tr'' r].
    unfold tafter. cbn. by rewrite app_assoc.
  - rewrite IH. cbn [Context.kwargs_loop]. by rewrite Hv, Ho.
  - rewrite IH. cbn [Context.kwargs_loop]. rewrite Hv, Ho, Hs.
    unfold dict_item. rewrite Hc. cbn [lift tbind app].
    rewrite descend_unfold, Ho.
    by destruct (Context.kwargs_loop _ _ _ _ child _ _ _).
  - rewrite IH. cbn [Context.kwargs_loop last_call].
    unfold Context.after_loop. rewrite Hs.
    unfold dict_item. rewrite Hc. cbn [lift tbind app].
    rewrite descend_unfold.
    by destruct (Context.kwargs_loop _ _ _ _ child _ _ _).
Qed.

Lemma dict_get_set_eq {V} (k : string) (v : V) d :
  dict_get k (dict_set k v d) = Some v.
Proof.
  induction d as [|[k' v'] d IH]; cbn.
  - by rewrite String.eqb_refl.
  - destruct (String.eqb k k') eqn:E; cbn; rewrite ?String.eqb_refl, ?E; done.
Qed.

Lemma dict_get_set_ne {V} (k k' : string) (v : V) d :
  k <> k' -> dict_get k (dict_set k' v d) = dict_get k d.
Proof.
  intros Hne. induction d as [|[k0 v0] d IH]; cbn.
  - by apply String.eqb_neq in Hne as ->.
  - destruct (String.eqb k' k0) eqn:E; cbn.
    + apply String.eqb_eq in E as <-.
      by apply String.eqb_neq in Hne as ->.
    + by rewrite IH.
Qed.

Lemma py_eq_JStr (j : json) (s : string) :
  py_eq j (JStr s) = true <-> j = JStr s.
Proof.
  destruct j; cbn; try (split; [discriminate|done]).
  rewrite String.eqb_eq. split; congruence.
Qed.

Lemma find_option_unknown (cmd : Command.t) (name : string) :
  Forall (fun kv => Option.name (snd kv) <> JStr name /\ fst kv <> name)
         (Command.options cmd) ->
  Context.find_option cmd name = None.
Proof.
  unfold Context.find_option.
  induction (Command.options cmd) as [|[k o] l IH]; [done|].
  intros H. inversion H as [|? ? [Hn _] Hl]; subst. cbn.
  destruct (py_eq (Option.name o) (JStr name)) eqn:E.
  - by apply py_eq_JStr in E.
  - by apply IH.
Qed.





(** The sample command is what [Command.__init__] builds from its callback,
    once registered. *)
Example pay_cmd_built :
  Command.set_id (Some 500) <$>
    (match Command.init false pay_coro None None None None None with
     | Ok c => Some c
     | Raise _ => None
     end) = Some pay_cmd.
Proof. reflexivity. Qed.



(** The scenario of the specification, from the event to the call: the
    option [amount] of type INTEGER, required, given as 5, reaches the
    callback as the integer 5. *)
Example pay_five :
  on_interaction_create quiet (sample_client [] true false) [pay_cmd]
    (pay_event [mkEvOpt "amount" (Some (JInt 5)) None])
  = ([Looked (Get "guild" 10); Looked (Get "channel" 20);
      Looked (Get "author-member" 30); Looked (Get "me-member" 1);
      Called (Check DefaultCheck None);
      Called (Body "pay" None [("amount", VRaw (JInt 5)); ("ctx", VSelf)])],
     Ok tt).
Proof. reflexivity. Qed.

(** C10. An entry that binding gets to, that carries a value and whose name
    is neither the declared name of an option of the command binding is at
    nor the name of one of its parameters, makes [_kwargs_from_options] raise
    [CommandInvokeError] for that name.  The event is then handled without
    any call to a check, a parent callback or the command callback, whatever
    these would do: [on_interaction_create] raises the same exception after
    the lookups of the context alone. *)
Theorem unknown_option_raises
        (behave : callable -> Context.t -> outcome)
        (client : Client) (slash : list Command.t) (event : Event)
        (cmd0 : Command.t) (h : Context.head) (tr0 tr : list lookup)
        (cmd : Command.t) (kwargs : list (string * argval))
        (last : option (string * EvOpt)) (opt : EvOpt) (rest : list EvOpt)
        (value : json) :
  py_eq (ev_version event) (JInt 1) = true ->
  find_command slash event = Ok cmd0 ->
  context_annotated cmd0 = true ->
  Context.init_head client event = (tr0, Ok h) ->
  Reaches client (Context.h_guild h) (Context.resolved_of event)
          cmd0 (Context.options_of event)
          tr cmd kwargs last (opt :: rest) ->
  eo_value opt = Some value ->
  Forall (fun kv => Option.name (snd kv) <> JStr (eo_name opt) /\
                    fst kv <> eo_name opt) (Command.options cmd) ->
  Context._kwargs_from_options client (Context.h_guild h)
    (Context.resolved_of event) cmd0 (Context.options_of event)
  = (tr, Raise (CommandInvokeError (NoSuchOption (eo_name opt)))) /\
  on_interaction_create behave client slash event
  = (map Looked (tr0 ++ tr),
     Raise (CommandInvokeError (NoSuchOption (eo_name opt)))).
Proof.
  intros Hver Hfind Hann Hhead HR Hv Hunknown.
  assert (Hk : Context._kwargs_from_options client (Context.h_guild h)
                 (Context.resolved_of event) cmd0 (Context.options_of event)
               = (tr, Raise (CommandInvokeError (NoSuchOption (eo_name opt))))).
  { rewrite (reaches_run _ _ _ _ _ _ _ _ _ _ HR).
    cbn [Context.kwargs_loop]. rewrite Hv.
    rewrite find_option_unknown by done.
    unfold tafter. cbn. by rewrite app_nil_r. }
  split; [exact Hk|].
  unfold on_interaction_create. rewrite Hver. cbn [negb].
  rewrite Hfind. cbn [lift tbind app].
  unfold make_context. unfold context_annotated in Hann.
  destruct (List.find _ (co_params (Command.coro cmd0))) as [p|]; [|done].
  destruct (p_annotation p) as [[]|]; try done.
  unfold Context.init. rewrite Hhead. cbn [tbind]. rewrite Hk.
  reflexivity.
Qed.

Lemma unknown_option_raises_witness :
  Context._kwargs_from_options (sample_client [] true true)
    (Some (Full "Guild" 10)) Context.no_resolved pay_cmd
    [mkEvOpt "amount" (Some (JInt 5)) None;
     mkEvOpt "tip" (Some (JInt 1)) None]
  = ([], Raise (CommandInvokeError (NoSuchOption "tip"))) /\
  on_interaction_create quiet (sample_client [] true true) [pay_cmd]
    (pay_event [mkEvOpt "amount" (Some (JInt 5)) None;
                mkEvOpt "tip" (Some (JInt 1)) None])
  = ([Looked (Get "guild" 10); Looked (Get "channel" 20);
      Looked (Get "author-member" 30)],
     Raise (CommandInvokeError (NoSuchOption "tip"))).
Proof.
  refine (unknown_option_raises quiet (sample_client [] true true) [pay_cmd]
            (pay_event [mkEvOpt "amount" (Some (JInt 5)) None;
                        mkEvOpt "tip" (Some (JInt 1)) None])
            pay_cmd
            (Context.mk_head 900 (Some (Full "Guild" 10))
                             (Full "TextChannel" 20)
                             (Some (Full "Member" 30)))
            [Get "guild" 10; Get "channel" 20; Get "author-member" 30] []
            pay_cmd [("amount", VRaw (JInt 5))]
            (Some ("amount", mkEvOpt "amount" (Some (JInt 5)) None))
            (mkEvOpt "tip" (Some (JInt 1)) None) [] (JInt 1)
            eq_refl eq_refl eq_refl eq_refl _ eq_refl _).
  - apply (Reaches_value _ _ _ _ _ [] pay_cmd [] None
             (mkEvOpt "amount" (Some (JInt 5)) None)
             [mkEvOpt "tip" (Some (JInt 1)) None] (JInt 5) "amount"
             (Option.mk (JStr "How much to pay")
                        ApplicationCommandOptionType.INTEGER
                        (JStr "amount") (JBool true) None)
             [] (VRaw (JInt 5)));
      [apply Reaches_start|reflexivity..].
  - repeat constructor; discriminate.
Defined.

(** ** Equality of serialised values *)

Lemma json_nested_ind (P : json -> Prop) :
  P JNull -> (forall b, P (JBool b)) -> (forall z, P (JInt z)) ->
  (forall s, P (JStr s)) ->
  (forall l, Forall P l -> P (JList l)) ->
  (forall d, Forall (fun kv => P (snd kv)) d -> P (JDict d)) ->
  forall j, P j.
Proof.
  intros HN HB HI HS HL HD. fix IH 1. intros [|b|z|s|l|d].
  - exact HN.
  - apply HB.
  - apply HI.
  - apply HS.
  - apply HL. induction l as [|x l IHl]; constructor; [apply IH|exact IHl].
  - apply HD. induction d as [|[k v] d IHd]; constructor;
      [apply IH|exact IHd].
Qed.

Lemma dict_get_unique {V} (d : list (string * V)) k v :
  keys_unique (dict_keys d) = true -> In (k, v) d -> dict_get k d = Some v.
Proof.
  induction d as [|[k' v'] d IH]; cbn; [done|].
  intros Hu [Hin|Hin].
  - injection Hin as -> ->. by rewrite String.eqb_refl.
  - apply andb_prop in Hu as [Hk Hu].
    destruct (String.eqb k k') eqn:E; [|by apply IH].
    apply String.eqb_eq in E as ->.
    apply negb_true_iff, not_true_iff_false in Hk. exfalso. apply Hk.
    apply existsb_exists. exists k'. split; [|apply String.eqb_refl].
    apply in_map_iff. by exists (k', v).
Qed.

Lemma py_eq_refl (j : json) : json_wf j = true -> py_eq j j = true.
Proof.
  induction j as [|b|z|s|l IH|d IH] using json_nested_ind; cbn; intros Hwf.
  - done.
  - by destruct b.
  - apply Z.eqb_refl.
  - apply String.eqb_refl.
  - induction IH as [|x l Hx _ IHl]; cbn in *; [done|].
    apply andb_prop in Hwf as [H1 H2]. by rewrite Hx, IHl.
  - apply andb_prop in Hwf as [Hu Hwf].
    rewrite Nat.eqb_refl. cbn.
    apply forallb_forall. intros [k v] Hin. cbn [fst snd].
    rewrite (dict_get_unique d k v Hu Hin).
    rewrite Forall_forall in IH. apply (IH (k, v)).
    + by apply list_elem_of_In.
    + rewrite forallb_forall in Hwf. by apply (Hwf (k, v)).
Qed.

Lemma dict_get_In {V} (d : list (string * V)) k v :
  dict_get k d = Some v -> In (k, v) d.
Proof.
  induction d as [|[k' v'] d IH]; cbn; [done|].
  destruct (String.eqb k k') eqn:E.
  - apply String.eqb_eq in E as ->. intros [= ->]. by left.
  - intros H. right. by apply IH.
Qed.

Lemma get_eq_same (k : string) (a b : list (string * json)) :
  json_wf (JDict b) = true ->
  dict_get k a = dict_get k b ->
  get_eq k a b = true.
Proof.
  intros Hwf E. unfold get_eq. rewrite E.
  destruct (dict_get k b) as [x|] eqn:Hx; [|done].
  apply py_eq_refl. cbn in Hwf. apply andb_prop in Hwf as [_ Hwf].
  rewrite forallb_forall in Hwf.
  by apply (Hwf (k, x)), dict_get_In.
Qed.

(** ** Reconciliation *)

Lemma elem_of_todo_keys (todo : gmap string Command.t) (k : pykey) :
  k ∈ SlashBot.todo_keys todo <-> exists s, k = KStr s /\ is_Some (todo !! s).
Proof.
  unfold SlashBot.todo_keys. rewrite elem_of_map.
  split; intros (s & -> & H); exists s; split; try done;
    by apply elem_of_dom.
Qed.

(** C3. The three sets of [sync_cmds] partition the names: every remote name
    is in exactly one of the names to update and the names to delete, every
    local name is in exactly one of the names to update and the names to
    create, and the three sets hold no other name. *)
Theorem sync_partition
        (done : gmap pykey (list (string * json)))
        (todo : gmap string Command.t) :
  (forall k, k ∈ dom done ->
     ((k ∈ SlashBot.to_update done todo) /\ (k ∉ SlashBot.to_delete done todo)) \/
     ((k ∉ SlashBot.to_update done todo) /\ (k ∈ SlashBot.to_delete done todo))) /\
  (forall k, k ∈ SlashBot.todo_keys todo ->
     ((k ∈ SlashBot.to_update done todo) /\ (k ∉ SlashBot.to_create done todo)) \/
     ((k ∉ SlashBot.to_update done todo) /\ (k ∈ SlashBot.to_create done todo))) /\
  SlashBot.to_update done todo ∪ SlashBot.to_delete done todo = dom done /\
  SlashBot.to_update done todo ∪ SlashBot.to_create done todo
    = SlashBot.todo_keys todo.
Proof.
  unfold SlashBot.to_update, SlashBot.to_delete, SlashBot.to_create.
  repeat split.
  - intros k Hk. destruct (decide (k ∈ SlashBot.todo_keys todo)); set_solver.
  - intros k Hk. destruct (decide (k ∈ dom done)); set_solver.
  - apply set_eq. intros k.
    destruct (decide (k ∈ SlashBot.todo_keys todo)); set_solver.
  - apply set_eq. intros k. destruct (decide (k ∈ dom done)); set_solver.
Qed.

Lemma sync_partition_witness :
  (((KStr "old" ∈ SlashBot.to_update sample_done sample_todo) /\
    (KStr "old" ∉ SlashBot.to_delete sample_done sample_todo)) \/
   ((KStr "old" ∉ SlashBot.to_update sample_done sample_todo) /\
    (KStr "old" ∈ SlashBot.to_delete sample_done sample_todo))) /\
  (((KStr "pay" ∈ SlashBot.to_update sample_done sample_todo) /\
    (KStr "pay" ∉ SlashBot.to_create sample_done sample_todo)) \/
   ((KStr "pay" ∉ SlashBot.to_update sample_done sample_todo) /\
    (KStr "pay" ∈ SlashBot.to_create sample_done sample_todo))).
Proof.
  split.
  - apply (proj1 (sync_partition sample_done sample_todo) (KStr "old")).
    by vm_compute.
  - apply (proj1 (proj2 (sync_partition sample_done sample_todo))
                 (KStr "pay")).
    by vm_compute.
Defined.

Lemma lookup_set_request_eq rs g k r :
  SlashBot.lookup_request (SlashBot.set_request rs g k r) g k = Some r.
Proof.
  unfold SlashBot.lookup_request, SlashBot.set_request.
  by rewrite lookup_insert_eq, lookup_insert_eq.
Qed.

Lemma lookup_set_request_ne rs g k r g' k' :
  g' <> g \/ k' <> k ->
  SlashBot.lookup_request (SlashBot.set_request rs g k r) g' k'
  = SlashBot.lookup_request rs g' k'.
Proof.
  unfold SlashBot.lookup_request, SlashBot.set_request. intros H.
  destruct (decide (g' = g)) as [->|Hg].
  - destruct H as [H|H]; [done|].
    rewrite lookup_insert_eq, lookup_insert_ne by done.
    by destruct (rs !! g).
  - by rewrite lookup_insert_ne.
Qed.

Lemma dict_get_del_ne {V} (k k' : string) (d : list (string * V)) :
  k <> k' -> dict_get k (dict_del k' d) = dict_get k d.
Proof.
  intros Hne. induction d as [|[k0 v0] d IH]; cbn; [done|].
  destruct (String.eqb k' k0) eqn:E; cbn.
  - apply String.eqb_eq in E as <-. by apply String.eqb_neq in Hne as ->.
  - by rewrite IH.
Qed.

(** The loop over the names to create. *)
Lemma create_loop g l : forall st todo,
  (forall k, k ∈ l -> exists c, SlashBot.todo_item todo k = Ok c) ->
  exists P',
    foldM (SlashBot.create_step g) (st, todo) l
    = Ok (SlashBot.mk_state P' (SlashBot.PATCH st) (SlashBot.DELETE st), todo)
    /\ (forall g' k, k ∉ l ->
          SlashBot.lookup_request P' g' k
          = SlashBot.lookup_request (SlashBot.POST st) g' k)
    /\ (forall k c, k ∈ l -> SlashBot.todo_item todo k = Ok c ->
          SlashBot.lookup_request P' g k
          = Some (SlashBot.mk_request (Some (Command.to_dict c)) None
                                      (Some (g, k)))).
Proof.
  induction l as [|k0 l IH]; intros st todo Hall.
  - exists (SlashBot.POST st). cbn. destruct st. repeat split; try done.
    intros k c Hk. by apply elem_of_nil in Hk.
  - destruct (Hall k0) as [c0 Hc0]; [by left|].
    cbn [foldM]. unfold SlashBot.create_step at 1. cbn [fst snd].
    rewrite Hc0. cbn [bind].
    edestruct (IH (SlashBot.mk_state
                     (SlashBot.set_request (SlashBot.POST st) g k0
                        (SlashBot.mk_request (Some (Command.to_dict c0)) None
                                             (Some (g, k0))))
                     (SlashBot.PATCH st) (SlashBot.DELETE st)) todo)
      as (P' & Hrun & Hframe & Hset).
    { intros k Hk. apply Hall. by right. }
    exists P'. cbn in Hrun, Hframe. split; [exact Hrun|]. split.
    + intros g' k Hk. apply not_elem_of_cons in Hk as [Hne Hk].
      rewrite Hframe by done. apply lookup_set_request_ne. by right.
    + intros k c Hk Hc. destruct (decide (k ∈ l)) as [Hin|Hnin].
      * by apply Hset.
      * apply elem_of_cons in Hk as [->|Hk]; [|done].
        rewrite Hframe by done. rewrite Hc in Hc0. injection Hc0 as ->.
        apply lookup_set_request_eq.
Qed.

(** The loop over the names to delete. *)
Lemma delete_loop done g l : forall st todo,
  (forall k, k ∈ l -> exists i, SlashBot.done_id done k = Ok i) ->
  exists D',
    foldM (SlashBot.delete_step done g) (st, todo) l
    = Ok (SlashBot.mk_state (SlashBot.POST st) (SlashBot.PATCH st) D', todo)
    /\ (forall g' k, k ∉ l ->
          SlashBot.lookup_request D' g' k
          = SlashBot.lookup_request (SlashBot.DELETE st) g' k)
    /\ (forall k i, k ∈ l -> SlashBot.done_id done k = Ok i ->
          SlashBot.lookup_request D' g k
          = Some (SlashBot.mk_request None (Some i) None)).
Proof.
  induction l as [|k0 l IH]; intros st todo Hall.
  - exists (SlashBot.DELETE st). cbn. destruct st. repeat split; try done.
    intros k c Hk. by apply elem_of_nil in Hk.
  - destruct (Hall k0) as [i0 Hi0]; [by left|].
    cbn [foldM]. unfold SlashBot.delete_step at 1. cbn [fst snd].
    rewrite Hi0. cbn [bind].
    edestruct (IH (SlashBot.mk_state
                     (SlashBot.POST st) (SlashBot.PATCH st)
                     (SlashBot.set_request (SlashBot.DELETE st) g k0
                        (SlashBot.mk_request None (Some i0) None))) todo)
      as (D' & Hrun & Hframe & Hset).
    { intros k Hk. apply Hall. by right. }
    exists D'. cbn in Hrun, Hframe. split; [exact Hrun|]. split.
    + intros g' k Hk. apply not_elem_of_cons in Hk as [Hne Hk].
      rewrite Hframe by done. apply lookup_set_request_ne. by right.
    + intros k i Hk Hi. destruct (decide (k ∈ l)) as [Hin|Hnin].
      * by apply Hset.
      * apply elem_of_cons in Hk as [->|Hk]; [|done].
        rewrite Hframe by done. rewrite Hi in Hi0. injection Hi0 as ->.
        apply lookup_set_request_eq.
Qed.

Lemma update_step_run done g st todo s c remote i :
  todo !! s = Some c ->
  done !! KStr s = Some remote ->
  SlashBot.done_id done (KStr s) = Ok i ->
  SlashBot.update_step done g (st, todo) (KStr s)
  = Ok (if SlashBot.up_to_date remote (Command.to_dict c)
        then (st, alter (Command.set_id (Some i)) s todo)
        else (SlashBot.mk_state
                (SlashBot.POST st)
                (SlashBot.set_request (SlashBot.PATCH st) g (KStr s)
                   (SlashBot.mk_request
                      (Some (dict_del "name" (Command.to_dict c)))
                      (Some i) (Some (g, KStr s))))
                (SlashBot.DELETE st), todo)).
Proof.
  intros Hc Hr Hi. unfold SlashBot.update_step. cbn [fst snd].
  unfold SlashBot.todo_item. rewrite Hc, Hr. cbn [bind]. rewrite Hi.
  by destruct (SlashBot.up_to_date remote (Command.to_dict c)).
Qed.

Lemma update_loop done g l :
  NoDup l -> forall st todo,
  (forall k, k ∈ l -> updatable done todo k) ->
  exists U' todo',
    foldM (SlashBot.update_step done g) (st, todo) l
    = Ok (SlashBot.mk_state (SlashBot.POST st) U' (SlashBot.DELETE st), todo')
    /\ (forall g' k, k ∉ l ->
          SlashBot.lookup_request U' g' k
          = SlashBot.lookup_request (SlashBot.PATCH st) g' k)
    /\ (forall s, KStr s ∉ l -> todo' !! s = todo !! s)
    /\ (forall s c remote i,
          KStr s ∈ l -> todo !! s = Some c -> done !! KStr s = Some remote ->
          SlashBot.done_id done (KStr s) = Ok i ->
          if SlashBot.up_to_date remote (Command.to_dict c)
          then (forall g', SlashBot.lookup_request U' g' (KStr s)
                           = SlashBot.lookup_request (SlashBot.PATCH st) g'
                                                     (KStr s)) /\
               todo' !! s = Some (Command.set_id (Some i) c)
          else SlashBot.lookup_request U' g (KStr s)
               = Some (SlashBot.mk_request
                         (Some (dict_del "name" (Command.to_dict c)))
                         (Some i) (Some (g, KStr s))) /\
               todo' !! s = Some c)
    /\ ((forall s c remote,
           KStr s ∈ l -> todo !! s = Some c -> done !! KStr s = Some remote ->
           SlashBot.up_to_date remote (Command.to_dict c) = true) ->
        U' = SlashBot.PATCH st).
Proof.
  induction 1 as [|k0 l Hnin Hnd IH]; intros st todo Hall.
  - exists (SlashBot.PATCH st), todo. cbn. destruct st.
    repeat split; try done.
    intros s c remote i Hk. by apply elem_of_nil in Hk.
  - destruct (Hall k0) as (s0 & c0 & r0 & i0 & -> & Hc0 & Hr0 & Hi0);
      [by left|].
    cbn [foldM]. rewrite (update_step_run _ _ _ _ _ _ _ _ Hc0 Hr0 Hi0).
    cbn [bind].
    set (st1 := if SlashBot.up_to_date r0 (Command.to_dict c0)
                then (st, alter (Command.set_id (Some i0)) s0 todo)
                else (SlashBot.mk_state
                        (SlashBot.POST st)
                        (SlashBot.set_request (SlashBot.PATCH st) g (KStr s0)
                           (SlashBot.mk_request
                              (Some (dict_del "name" (Command.to_dict c0)))
                              (Some i0) (Some (g, KStr s0))))
                        (SlashBot.DELETE st), todo)).
    assert (Hother : forall s, KStr s ∈ l -> snd st1 !! s = todo !! s).
    { intros s Hs. subst st1.
      destruct (SlashBot.up_to_date r0 (Command.to_dict c0)); [|done].
      cbn. apply lookup_alter_ne. intros ->. done. }
    assert (Hpost : SlashBot.POST (fst st1) = SlashBot.POST st /\
                    SlashBot.DELETE (fst st1) = SlashBot.DELETE st).
    { subst st1. by destruct (SlashBot.up_to_date _ _). }
    destruct Hpost as [HP HD].
    destruct (IH (fst st1) (snd st1)) as (U' & todo' & Hrun & HfU & Hft & Hset & Hsame).
    { intros k Hk. destruct (Hall k) as (s & c & r & i & -> & Hc & Hr & Hi);
        [by right|].
      exists s, c, r, i. by rewrite Hother. }
    exists U', todo'. rewrite HP, HD in Hrun.
    rewrite <- surjective_pairing in Hrun. split; [exact Hrun|].
    split; [|split; [|split]].
    + intros g' k Hk. apply not_elem_of_cons in Hk as [Hne Hk].
      rewrite HfU by done. subst st1.
      destruct (SlashBot.up_to_date _ _); [done|].
      cbn. apply lookup_set_request_ne. by right.
    + intros s Hs. apply not_elem_of_cons in Hs as [Hne Hs].
      rewrite Hft by done. subst st1.
      destruct (SlashBot.up_to_date _ _); [|done].
      cbn. apply lookup_alter_ne. congruence.
    + intros s c remote i Hs Hc Hr Hi.
      apply elem_of_cons in Hs as [[= ->]|Hs].
      * rewrite Hc in Hc0. injection Hc0 as ->.
        rewrite Hr in Hr0. injection Hr0 as ->.
        rewrite Hi in Hi0. injection Hi0 as ->.
        rewrite Hft by done. subst st1.
        destruct (SlashBot.up_to_date r0 (Command.to_dict c0)); cbn.
        -- split; [intros g'; by rewrite HfU|].
           by rewrite lookup_alter_eq, Hc.
        -- split; [|done]. rewrite HfU by done.
           apply lookup_set_request_eq.
      * specialize (Hset s c remote i Hs).
        rewrite Hother in Hset by done. specialize (Hset Hc Hr Hi).
        assert (Hne : KStr s <> KStr s0) by (intros E; by rewrite E in Hs).
        destruct (SlashBot.up_to_date remote (Command.to_dict c));
          [|exact Hset].
        destruct Hset as [Hl Ht]. split; [|exact Ht].
        intros g'. rewrite Hl. subst st1.
        destruct (SlashBot.up_to_date _ _); [done|].
        cbn. apply lookup_set_request_ne. by right.
    + intros Hup. rewrite Hsame.
      * subst st1. rewrite (Hup s0 c0 r0); [done|by left|done..].
      * intros s c remote Hs Hc Hr. rewrite Hother in Hc by done.
        apply (Hup s c remote); [by right|done..].
Qed.

Lemma to_dict_without_name (c : Command.t) :
  dict_get "name" (dict_del "name" (Command.to_dict c)) = None.
Proof.
  destruct c as [cg co i n d g par o df ca ck sl]. cbn.
  destruct sl as [[|sub subs]|]; cbn; try done.
  by destruct o.
Qed.

Lemma set_id_bound_to i c : bound_to i c (Command.set_id (Some i) c).
Proof. by destruct c. Qed.

Lemma up_to_date_fields remote c :
  (fields_equal remote c ->
   SlashBot.up_to_date remote (Command.to_dict c) = true) /\
  (fields_differ remote c ->
   SlashBot.up_to_date remote (Command.to_dict c) = false).
Proof.
  unfold SlashBot.up_to_date, fields_equal, fields_differ, compared_fields.
  change (get_eq ?k remote (Command.to_dict c)) with (field_equal k remote c).
  split.
  - intros H. rewrite !H; cbn; auto.
  - intros (k & Hk & Hne). cbn in Hk.
    destruct Hk as [<-|[<-|[<-|[]]]]; rewrite Hne;
      by rewrite ?andb_false_r.
Qed.

Lemma description_differs remote c :
  dict_get "description" remote
  <> Some (JStr (Command.description c)) ->
  fields_differ remote c.
Proof.
  intros Hne. exists "description". split; [right; by left|].
  unfold field_equal.
  assert (Hd : dict_get "description" (Command.to_dict c)
               = Some (JStr (Command.description c))).
  { destruct c as [cg co i n d g par o df ca ck sl]. cbn.
    destruct sl as [[|sub subs]|]; cbn; try done. by destruct o. }
  rewrite Hd.
  destruct (dict_get "description" remote) as [x|]; [|done].
  destruct (py_eq x (JStr (Command.description c))) eqn:E; [|done].
  apply py_eq_JStr in E. congruence.
Qed.

Lemma holds_serialised_fields_equal remote c :
  json_wf (JDict (Command.to_dict c)) = true ->
  holds_serialised remote c -> fields_equal remote c.
Proof.
  intros Hwf (Hn & Hd & Ho) k Hk.
  change (field_equal k remote c) with (get_eq k remote (Command.to_dict c)).
  apply get_eq_same; [done|].
  cbn in Hk. by destruct Hk as [<-|[<-|[<-|[]]]].
Qed.

(** C4. For a name that is both local and remote, [sync_cmds] files neither
    a creation nor a deletion.  If the fields [name], [description] and
    [options] of the remote definition equal those of the serialised command,
    as Python compares values, it files no update either and binds the remote
    identifier to the command, of which nothing else changes; this is so in
    particular when the remote definition holds these fields just as the
    command serialises.  If one of the three fields differs, it files one
    update, whose body is the serialised command without its name, and
    leaves the command as it is.  So a changed description alone gives one
    update and nothing else. *)
Theorem sync_both
        (state : SlashBot.state) (todo : gmap string Command.t)
        (rows : list json) (guild_id : option Z)
        (done : gmap pykey (list (string * json))) :
  SlashBot.index_done rows = Ok done ->
  (forall k, k ∈ dom done -> exists i, SlashBot.done_id done k = Ok i) ->
  exists state' todo',
    SlashBot.sync_cmds state todo rows guild_id = Ok (state', todo') /\
    forall s c remote i,
      todo !! s = Some c ->
      done !! KStr s = Some remote ->
      SlashBot.done_id done (KStr s) = Ok i ->
      let no_update :=
        SlashBot.lookup_request (SlashBot.PATCH state') guild_id (KStr s)
        = SlashBot.lookup_request (SlashBot.PATCH state) guild_id (KStr s) /\
        exists c', todo' !! s = Some c' /\ bound_to i c c' in
      let one_update :=
        exists body,
          SlashBot.lookup_request (SlashBot.PATCH state') guild_id (KStr s)
          = Some (SlashBot.mk_request (Some body) (Some i)
                                      (Some (guild_id, KStr s))) /\
          dict_get "name" body = None /\
          (forall k, k <> "name" ->
                     dict_get k body = dict_get k (Command.to_dict c)) /\
          todo' !! s = Some c in
      SlashBot.lookup_request (SlashBot.POST state') guild_id (KStr s)
      = SlashBot.lookup_request (SlashBot.POST state) guild_id (KStr s) /\
      SlashBot.lookup_request (SlashBot.DELETE state') guild_id (KStr s)
      = SlashBot.lookup_request (SlashBot.DELETE state) guild_id (KStr s) /\
      (fields_equal remote c -> no_update) /\
      (fields_differ remote c -> one_update) /\
      (holds_serialised remote c ->
       json_wf (JDict (Command.to_dict c)) = true -> no_update) /\
      (dict_get "description" remote <> Some (JStr (Command.description c)) ->
       one_update).
Proof.
  intros Hdone Hids. unfold SlashBot.sync_cmds. rewrite Hdone. cbn [bind].
  destruct (create_loop guild_id (elements (SlashBot.to_create done todo))
                        state todo) as (P' & Hrun1 & HfP & _).
  { intros k Hk. apply elem_of_elements in Hk.
    unfold SlashBot.to_create in Hk. apply elem_of_difference in Hk as [Hk _].
    apply elem_of_todo_keys in Hk as (s & -> & [c Hc]).
    exists c. unfold SlashBot.todo_item. by rewrite Hc. }
  rewrite Hrun1. cbn [bind].
  destruct (update_loop done guild_id
                        (elements (SlashBot.to_update done todo))
                        (NoDup_elements _)
                        (SlashBot.mk_state P' (SlashBot.PATCH state)
                                           (SlashBot.DELETE state)) todo)
    as (U' & todo' & Hrun2 & HfU & Hft & Hset & _).
  { intros k Hk. apply elem_of_elements in Hk.
    unfold SlashBot.to_update in Hk.
    apply elem_of_intersection in Hk as [Hd Hk].
    apply elem_of_todo_keys in Hk as (s & -> & [c Hc]).
    destruct (Hids _ Hd) as [i Hi].
    apply elem_of_dom in Hd as [remote Hr].
    by exists s, c, remote, i. }
  rewrite Hrun2. cbn [bind SlashBot.POST SlashBot.DELETE].
  destruct (delete_loop done guild_id
                        (elements (SlashBot.to_delete done todo))
                        (SlashBot.mk_state P' U' (SlashBot.DELETE state))
                        todo') as (D' & Hrun3 & HfD & _).
  { intros k Hk. apply elem_of_elements in Hk.
    unfold SlashBot.to_delete in Hk. apply elem_of_difference in Hk as [Hd _].
    by apply Hids. }
  rewrite Hrun3. cbn [SlashBot.POST SlashBot.PATCH SlashBot.DELETE].
  eexists _, _. split; [reflexivity|].
  intros s c remote i Hc Hr Hi.
  assert (Hind : KStr s ∈ dom done) by (apply elem_of_dom; by eexists).
  assert (Hint : KStr s ∈ SlashBot.todo_keys todo)
    by (apply elem_of_todo_keys; by eexists s).
  cbn [SlashBot.POST SlashBot.PATCH SlashBot.DELETE] in *.
  assert (Hin : KStr s ∈ elements (SlashBot.to_update done todo)).
  { rewrite elem_of_elements. unfold SlashBot.to_update. set_solver. }
  specialize (Hset s c remote i Hin Hc Hr Hi).
  destruct (up_to_date_fields remote c) as [Heq Hne].
  assert (Hsame : fields_equal remote c ->
            SlashBot.lookup_request U' guild_id (KStr s)
            = SlashBot.lookup_request (SlashBot.PATCH state) guild_id (KStr s)
            /\ exists c', todo' !! s = Some c' /\ bound_to i c c').
  { intros H. rewrite (Heq H) in Hset. destruct Hset as [Hl Ht].
    split; [by rewrite Hl|]. eexists. split; [exact Ht|].
    apply set_id_bound_to. }
  assert (Hupd : fields_differ remote c ->
            exists body,
              SlashBot.lookup_request U' guild_id (KStr s)
              = Some (SlashBot.mk_request (Some body) (Some i)
                                          (Some (guild_id, KStr s))) /\
              dict_get "name" body = None /\
              (forall k, k <> "name" ->
                         dict_get k body = dict_get k (Command.to_dict c)) /\
              todo' !! s = Some c).
  { intros H. rewrite (Hne H) in Hset. destruct Hset as [Hl Ht].
    eexists. split; [exact Hl|]. split; [apply to_dict_without_name|].
    split; [|exact Ht]. intros k Hk. by apply dict_get_del_ne. }
  cbv zeta. split; [|split; [|split; [|split; [|split]]]].
  - apply HfP. rewrite elem_of_elements. unfold SlashBot.to_create.
    set_solver.
  - apply HfD. rewrite elem_of_elements. unfold SlashBot.to_delete.
    set_solver.
  - exact Hsame.
  - exact Hupd.
  - intros Hs Hwf. by apply Hsame, holds_serialised_fields_equal.
  - intros Hd. by apply Hupd, description_differs.
Qed.

Lemma sync_both_witness :
  (exists state' todo',
     SlashBot.sync_cmds SlashBot.empty_state {[ "pay" := pay_new ]}
                        [JDict remote_pay_before] None
     = Ok (state', todo') /\
     SlashBot.lookup_request (SlashBot.POST state') None (KStr "pay") = None /\
     SlashBot.lookup_request (SlashBot.DELETE state') None (KStr "pay")
     = None /\
     exists body,
       SlashBot.lookup_request (SlashBot.PATCH state') None (KStr "pay")
       = Some (SlashBot.mk_request (Some body) (Some 500)
                                   (Some (None, KStr "pay"))) /\
       dict_get "name" body = None /\
       dict_get "description" body = Some (JStr "Pay an amount")) /\
  (exists state' todo' c',
     SlashBot.sync_cmds SlashBot.empty_state {[ "pay" := pay_new ]}
                        [JDict remote_pay] None
     = Ok (state', todo') /\
     SlashBot.lookup_request (SlashBot.PATCH state') None (KStr "pay") = None /\
     todo' !! "pay" = Some c' /\
     Command.id c' = Some 500 /\
     Command.name c' = "pay").
Proof.
  split.
  - destruct (sync_both SlashBot.empty_state {[ "pay" := pay_new ]}
                        [JDict remote_pay_before] None
                        {[ KStr "pay" := remote_pay_before ]})
      as (state' & todo' & Hrun & H).
    + vm_compute. reflexivity.
    + intros k Hk. apply elem_of_dom in Hk as [r Hr].
      apply lookup_singleton_Some in Hr as [<- <-]. by exists 500.
    + exists state', todo'. split; [exact Hrun|].
      destruct (H "pay" pay_new remote_pay_before 500)
        as (HP & HD & _ & _ & _ & HU); [reflexivity..|].
      split; [exact HP|]. split; [exact HD|].
      destruct HU as (body & Hbody & Hname & Hrest & _); [discriminate|].
      exists body. split; [exact Hbody|]. split; [exact Hname|].
      by rewrite Hrest.
  - destruct (sync_both SlashBot.empty_state {[ "pay" := pay_new ]}
                        [JDict remote_pay] None
                        {[ KStr "pay" := remote_pay ]})
      as (state' & todo' & Hrun & H).
    + vm_compute. reflexivity.
    + intros k Hk. apply elem_of_dom in Hk as [r Hr].
      apply lookup_singleton_Some in Hr as [<- <-]. by exists 500.
    + destruct (H "pay" pay_new remote_pay 500)
        as (_ & _ & _ & _ & Hsame & _); [reflexivity..|].
      destruct Hsame as (HU & c' & Hc' & Hid & _ & _ & Hname & _).
      * split; [reflexivity|]. split; reflexivity.
      * reflexivity.
      * exists state', todo', c'. split; [exact Hrun|].
        split; [exact HU|]. split; [exact Hc'|]. split; [exact Hid|].
        by rewrite Hname.
Defined.

(** The scenario of the specification: only the description of [pay] has
    changed since it was registered; one update is filed for it, with no
    name in its body, and nothing is created or deleted. *)
Example description_change_one_update :
  SlashBot.sync_cmds SlashBot.empty_state {[ "pay" := pay_new ]}
                     [JDict remote_pay_before] None
  = Ok (SlashBot.mk_state
          ∅
          {[ None :=
               {[ KStr "pay" :=
                    SlashBot.mk_request
                      (Some [("description", JStr "Pay an amount");
                             ("options",
                              JList [JDict [("type", JInt 4);
                                            ("name", JStr "amount");
                                            ("description",
                                             JStr "How much to pay");
                                            ("required", JBool true)]])])
                      (Some 500) (Some (None, KStr "pay")) ]} ]}
          ∅,
        {[ "pay" := pay_new ]}).
Proof. vm_compute. reflexivity. Qed.

Lemma sync_cmds_in_sync
      (state : SlashBot.state) (todo : gmap string Command.t)
      (rows : list json) (guild_id : option Z)
      (done : gmap pykey (list (string * json))) :
  SlashBot.index_done rows = Ok done ->
  in_sync todo done ->
  exists todo',
    SlashBot.sync_cmds state todo rows guild_id = Ok (state, todo') /\
    forall s c i,
      todo !! s = Some c -> SlashBot.done_id done (KStr s) = Ok i ->
      todo' !! s = Some (Command.set_id (Some i) c).
Proof.
  intros Hdone [Hdom Hall]. unfold SlashBot.sync_cmds. rewrite Hdone.
  cbn [bind].
  assert (Hc : SlashBot.to_create done todo = ∅)
    by (unfold SlashBot.to_create; set_solver).
  assert (Hd : SlashBot.to_delete done todo = ∅)
    by (unfold SlashBot.to_delete; set_solver).
  rewrite Hc, Hd, elements_empty. cbn [foldM bind].
  assert (Hup : forall s c remote,
             todo !! s = Some c -> done !! KStr s = Some remote ->
             SlashBot.up_to_date remote (Command.to_dict c) = true).
  { intros s c remote Hs Hr.
    destruct (Hall s c Hs) as (Hwf & remote' & i & Hr' & (Hn & Hde & Ho) & _).
    rewrite Hr in Hr'. injection Hr' as <-.
    unfold SlashBot.up_to_date.
    by rewrite !get_eq_same. }
  destruct (update_loop done guild_id
                        (elements (SlashBot.to_update done todo))
                        (NoDup_elements _) state todo)
    as (U' & todo' & Hrun & _ & _ & Hset & Hsame).
  { intros k Hk. apply elem_of_elements in Hk.
    unfold SlashBot.to_update in Hk.
    apply elem_of_intersection in Hk as [_ Hk].
    apply elem_of_todo_keys in Hk as (s & -> & [c Hs]).
    destruct (Hall s c Hs) as (_ & remote & i & Hr & _ & Hi).
    by exists s, c, remote, i. }
  rewrite Hrun. cbn [bind]. rewrite Hsame by eauto.
  exists todo'. split; [by destruct state|].
  intros s c i Hs Hi.
  destruct (Hall s c Hs) as (_ & remote & i' & Hr & _ & Hi').
  assert (Hin : KStr s ∈ elements (SlashBot.to_update done todo)).
  { rewrite elem_of_elements. unfold SlashBot.to_update.
    apply elem_of_intersection. split.
    - apply elem_of_dom. by eexists.
    - apply elem_of_todo_keys. by eexists s. }
  specialize (Hset s c remote i Hin Hs Hr Hi).
  rewrite (Hup s c remote Hs Hr) in Hset. apply Hset.
Qed.

(** One turn of the loops of [register_commands] on a scope that is in
    sync, or that has no command. *)
Lemma sync_guild_in_sync
      (http : string -> string -> option (list (string * json)) ->
              result json)
      (app_id : Z)
      (guilds : gmap (option Z) (gmap string Command.t)) (g : option Z) :
  (forall todo,
     guilds !! g = Some todo ->
     exists answer rows done,
       http "GET" (SlashBot.commands_path app_id g) None = Ok answer /\
       SlashBot.rows answer = Ok rows /\
       SlashBot.index_done rows = Ok done /\
       in_sync todo done) ->
  exists guilds',
    SlashBot.sync_guild http app_id (SlashBot.empty_state, guilds) g
    = Ok (SlashBot.empty_state, guilds') /\
    forall g', g' <> g -> guilds' !! g' = guilds !! g'.
Proof.
  intros H. unfold SlashBot.sync_guild. cbn [fst snd].
  destruct (guilds !! g) as [todo|] eqn:Hg; [|by exists guilds].
  destruct (H todo eq_refl) as (answer & rows & done & Hh & Hr & Hd & Hs).
  rewrite Hh. cbn [bind]. rewrite Hr. cbn [bind].
  destruct (sync_cmds_in_sync SlashBot.empty_state todo rows g done Hd Hs)
    as (todo' & Hrun & _).
  rewrite Hrun. cbn [bind fst snd]. eexists. split; [reflexivity|].
  intros g' Hne. by rewrite lookup_insert_ne.
Qed.

(** C5. Reconciliation is idempotent.  When the remote definitions of a
    scope are the local commands of that scope as they serialise, name for
    name, [sync_cmds] leaves [state] as it is: it files no update, no
    creation and no deletion, and only binds the remote identifiers to the
    commands.  Hence a run of [register_commands] for which the API holds the
    commands of every scope in this way creates no task at all. *)
Theorem sync_idempotent
        (http : string -> string -> option (list (string * json)) ->
                result json)
        (debug_guild : option Z) (app_id : Z) (slash : list Command.t) :
  (forall state todo rows guild_id done,
     SlashBot.index_done rows = Ok done ->
     in_sync todo done ->
     exists todo',
       SlashBot.sync_cmds state todo rows guild_id = Ok (state, todo') /\
       forall s c i,
         todo !! s = Some c -> SlashBot.done_id done (KStr s) = Ok i ->
         todo' !! s = Some (Command.set_id (Some i) c)) /\
  ((forall g todo,
      fold_left (SlashBot.file_command debug_guild) slash ∅ !! g = Some todo ->
      exists answer rows done,
        http "GET" (SlashBot.commands_path app_id g) None = Ok answer /\
        SlashBot.rows answer = Ok rows /\
        SlashBot.index_done rows = Ok done /\
        in_sync todo done) ->
   exists guilds',
     SlashBot.register_commands http debug_guild app_id slash
     = Ok (guilds', [])).
Proof.
  split; [intros; by apply sync_cmds_in_sync|].
  intros H. unfold SlashBot.register_commands.
  set (guilds := fold_left (SlashBot.file_command debug_guild) slash ∅) in *.
  destruct (sync_guild_in_sync http app_id guilds None (H None))
    as (guilds1 & -> & Hother). cbn [bind].
  set (l := List.filter _ (map fst (map_to_list guilds))).
  assert (Hnd : NoDup l).
  { subst l. apply NoDup_ListNoDup, List.NoDup_filter, NoDup_ListNoDup.
    apply NoDup_fst_map_to_list. }
  assert (Hl : forall g, g ∈ l -> g <> None).
  { intros g Hg. apply list_elem_of_In, filter_In in Hg as [_ Hg].
    by destruct g. }
  assert (Hrun : forall G,
             (forall g, g ∈ l -> G !! g = guilds !! g) ->
             exists G',
               foldM (SlashBot.sync_guild http app_id)
                     (SlashBot.empty_state, G) l
               = Ok (SlashBot.empty_state, G')).
  { clear Hl. induction Hnd as [|g l Hnin Hnd IH]; intros G HG.
    - by exists G.
    - cbn [foldM].
      destruct (sync_guild_in_sync http app_id G g) as (G1 & -> & HG1).
      { rewrite HG by left. apply H. }
      cbn [bind]. apply IH. intros g' Hg'.
      rewrite HG1 by (intros ->; done). apply HG. by right. }
  destruct (Hrun guilds1) as (G' & ->).
  { intros g Hg. apply Hother. by apply Hl. }
  cbn [bind fst snd]. by exists G'.
Qed.

Lemma sync_idempotent_witness :
  (exists todo',
     SlashBot.sync_cmds SlashBot.empty_state {[ "pay" := pay_new ]}
                        [JDict remote_pay] None
     = Ok (SlashBot.empty_state, todo') /\
     forall s c i,
       ({[ "pay" := pay_new ]} : gmap string Command.t) !! s = Some c ->
       SlashBot.done_id {[ KStr "pay" := remote_pay ]} (KStr s) = Ok i ->
       todo' !! s = Some (Command.set_id (Some i) c)) /\
  exists guilds',
    SlashBot.register_commands answering_pay None 7 [pay_new]
    = Ok (guilds', []).
Proof.
  assert (Hsync : in_sync {[ "pay" := pay_new ]}
                          {[ KStr "pay" := remote_pay ]}).
  { split; [vm_compute; reflexivity|].
    intros s c Hs. apply lookup_singleton_Some in Hs as [<- <-].
    split; [reflexivity|]. exists remote_pay, 500.
    split; [reflexivity|]. split; [|reflexivity].
    split; [reflexivity|]. split; reflexivity. }
  split.
  - apply (proj1 (sync_idempotent answering_pay None 7 [pay_new])
                 SlashBot.empty_state {[ "pay" := pay_new ]}
                 [JDict remote_pay] None {[ KStr "pay" := remote_pay ]});
      [vm_compute; reflexivity|exact Hsync].
  - apply (proj2 (sync_idempotent answering_pay None 7 [pay_new])).
    intros g todo Hg.
    assert (Hfiled : fold_left (SlashBot.file_command None) [pay_new] ∅
                     = ({[ None := {[ "pay" := pay_new ]} ]}
                        : gmap (option Z) (gmap string Command.t)))
      by (vm_compute; reflexivity).
    rewrite Hfiled in Hg. apply lookup_singleton_Some in Hg as [<- <-].
    exists (JList [JDict remote_pay]), [JDict remote_pay],
           {[ KStr "pay" := remote_pay ]}.
    split; [reflexivity|]. split; [reflexivity|].
    split; [vm_compute; reflexivity|exact Hsync].
Defined.

(** The run itself: nothing is filed and [pay] gets the identifier
    500. *)
Example sync_again_files_nothing :
  SlashBot.sync_cmds SlashBot.empty_state {[ "pay" := pay_new ]}
                     [JDict remote_pay] None
  = Ok (SlashBot.empty_state, {[ "pay" := pay_cmd ]}).
Proof. vm_compute. reflexivity. Qed.

(** ** Sending the requests *)

Lemma run_tasks_app http ts1 : forall guilds ts2,
  SlashBot.run_tasks http guilds (ts1 ++ ts2)
  = (fst (SlashBot.run_tasks http
            (fst (SlashBot.run_tasks http guilds ts1)) ts2),
     snd (SlashBot.run_tasks http guilds ts1)
     ++ snd (SlashBot.run_tasks http
               (fst (SlashBot.run_tasks http guilds ts1)) ts2)).
Proof.
  induction ts1 as [|t ts1 IH]; intros guilds ts2; cbn.
  - by destruct (SlashBot.run_tasks http guilds ts2).
  - destruct (SlashBot.process_command http guilds t) as [g1 out].
    rewrite IH.
    destruct (SlashBot.run_tasks http g1 ts1) as [g2 outs]. done.
Qed.

Lemma run_tasks_length http ts : forall guilds,
  length (snd (SlashBot.run_tasks http guilds ts)) = length ts.
Proof.
  induction ts as [|t ts IH]; intros guilds; cbn; [done|].
  destruct (SlashBot.process_command http guilds t) as [g1 out].
  specialize (IH g1). destruct (SlashBot.run_tasks http g1 ts). cbn in *.
  by rewrite IH.
Qed.

Lemma lookup_cmd_set_cmd_id guilds g s i c :
  lookup_cmd guilds g s = Some c ->
  lookup_cmd (SlashBot.set_cmd_id guilds (g, KStr s) i) g s
  = Some (Command.set_id (Some i) c) /\
  forall g' s', g' <> g \/ s' <> s ->
    lookup_cmd (SlashBot.set_cmd_id guilds (g, KStr s) i) g' s'
    = lookup_cmd guilds g' s'.
Proof.
  unfold lookup_cmd, SlashBot.set_cmd_id. intros H.
  destruct (guilds !! g) as [todo|] eqn:Hg; [|done]. split.
  - rewrite lookup_alter_eq, Hg. cbn. by rewrite lookup_alter_eq, H.
  - intros g' s' Hne. destruct (decide (g' = g)) as [->|Hgne].
    + destruct Hne as [Hne|Hne]; [done|].
      rewrite lookup_alter_eq, Hg. cbn. by rewrite lookup_alter_ne.
    + by rewrite lookup_alter_ne.
Qed.

Lemma tasks_of_method_elem app_id method rs g k r :
  SlashBot.lookup_request rs g k = Some r ->
  task_of app_id method g k r ∈ SlashBot.tasks_of_method app_id method rs.
Proof.
  unfold SlashBot.lookup_request, SlashBot.tasks_of_method. intros H.
  destruct (rs !! g) as [guild|] eqn:Hg; [|done].
  apply list_elem_of_bind. exists (g, guild).
  split; [|by apply elem_of_map_to_list].
  apply list_elem_of_bind. exists (k, r).
  split; [|by apply elem_of_map_to_list].
  unfold task_of. destruct (SlashBot.r_id r); apply list_elem_of_singleton;
    reflexivity.
Qed.

(** C7 as stated fails: only [discord.HTTPException] is handled.  A request
    that fails in another way, as one that cannot connect, is not logged as
    an error, and its exception leaves [process_command]. *)
Lemma process_command_failure_not_logged :
  SlashBot.process_command unreachable sample_guilds delete_old
  = (sample_guilds,
     ([SlashBot.Debug "DELETE" (KStr "old") None],
      Raise (OSError "Cannot connect to host"))).
Proof. reflexivity. Qed.

(** C7, amended.  Every request that [sync_cmds] filed becomes a task of its
    own.  A task whose request fails with [HTTPException] logs the failure
    and ends without raising; a task whose request fails with any other
    exception logs no error and ends with that exception.  Either way it
    touches no command, so the identifier of its command stays as it was, and
    the other tasks end as they would have without it.  A task whose request
    succeeds and that was filed with a command, as every creation is, writes
    the identifier of the answer into that command, of which nothing else
    changes, and into no other. *)
Theorem process_command_fire_and_forget
        (http : string -> string -> option (list (string * json)) ->
                result json)
        (app_id : Z) :
  (forall st g k r,
     (SlashBot.lookup_request (SlashBot.POST st) g k = Some r ->
      task_of app_id "POST" g k r ∈ SlashBot.tasks_of app_id st) /\
     (SlashBot.lookup_request (SlashBot.PATCH st) g k = Some r ->
      task_of app_id "PATCH" g k r ∈ SlashBot.tasks_of app_id st) /\
     (SlashBot.lookup_request (SlashBot.DELETE st) g k = Some r ->
      task_of app_id "DELETE" g k r ∈ SlashBot.tasks_of app_id st)) /\
  (forall guilds t,
     http (SlashBot.t_method t) (SlashBot.t_path t)
          (SlashBot.r_json (SlashBot.t_kwargs t)) = Raise HTTPException ->
     SlashBot.process_command http guilds t
     = (guilds,
        ([SlashBot.Exception (SlashBot.t_name t);
          SlashBot.Debug (SlashBot.t_method t) (SlashBot.t_name t)
                         (SlashBot.t_guild_id t)], Ok tt))) /\
  (forall guilds t e,
     http (SlashBot.t_method t) (SlashBot.t_path t)
          (SlashBot.r_json (SlashBot.t_kwargs t)) = Raise e ->
     e <> HTTPException ->
     SlashBot.process_command http guilds t
     = (guilds,
        ([SlashBot.Debug (SlashBot.t_method t) (SlashBot.t_name t)
                         (SlashBot.t_guild_id t)], Raise e))) /\
  (forall guilds ts1 t ts2 e,
     http (SlashBot.t_method t) (SlashBot.t_path t)
          (SlashBot.r_json (SlashBot.t_kwargs t)) = Raise e ->
     SlashBot.run_tasks http guilds (ts1 ++ t :: ts2)
     = (fst (SlashBot.run_tasks http guilds (ts1 ++ ts2)),
        put_in (length ts1) (failure t e)
               (snd (SlashBot.run_tasks http guilds (ts1 ++ ts2))))) /\
  (forall guilds t g s c d j i,
     SlashBot.r_cmd (SlashBot.t_kwargs t) = Some (g, KStr s) ->
     lookup_cmd guilds g s = Some c ->
     http (SlashBot.t_method t) (SlashBot.t_path t)
          (SlashBot.r_json (SlashBot.t_kwargs t)) = Ok (JDict d) ->
     dict_get "id" d = Some j ->
     py_int j = Ok i ->
     exists guilds' c',
       SlashBot.process_command http guilds t
       = (guilds',
          ([SlashBot.Debug (SlashBot.t_method t) (SlashBot.t_name t)
                           (SlashBot.t_guild_id t)], Ok tt)) /\
       lookup_cmd guilds' g s = Some c' /\
       bound_to i c c' /\
       forall g' s', g' <> g \/ s' <> s ->
                     lookup_cmd guilds' g' s' = lookup_cmd guilds g' s').
Proof.
  assert (Hfail : forall guilds t e,
     http (SlashBot.t_method t) (SlashBot.t_path t)
          (SlashBot.r_json (SlashBot.t_kwargs t)) = Raise e ->
     SlashBot.process_command http guilds t = (guilds, failure t e)).
  { intros guilds t e H. unfold SlashBot.process_command, failure.
    rewrite H. by destruct e. }
  split; [|split; [|split; [|split]]].
  - intros st g k r. unfold SlashBot.tasks_of.
    repeat split; intros H; rewrite !elem_of_app;
      eauto using tasks_of_method_elem.
  - intros guilds t H. by rewrite (Hfail _ _ _ H).
  - intros guilds t e H Hne. rewrite (Hfail _ _ _ H). unfold failure.
    by destruct e.
  - intros guilds ts1 t ts2 e H.
    rewrite !run_tasks_app. cbn [SlashBot.run_tasks].
    unfold put_in.
    destruct (SlashBot.run_tasks http guilds ts1) as [g1 o1] eqn:E1.
    assert (Hlen : length o1 = length ts1).
    { pose proof (run_tasks_length http ts1 guilds) as L.
      by rewrite E1 in L. }
    cbn [fst snd]. rewrite (Hfail _ _ _ H).
    destruct (SlashBot.run_tasks http g1 ts2) as [g2 o2]. cbn [fst snd].
    rewrite <- Hlen, take_app_length, drop_app_length. done.
  - intros guilds t g s c d j i Hcmd Hc Hhttp Hid Hint.
    destruct (lookup_cmd_set_cmd_id guilds g s i c Hc) as [Hset Hframe].
    eexists _, _. unfold SlashBot.process_command.
    rewrite Hhttp, Hcmd. unfold dict_item. rewrite Hid. cbn [bind].
    rewrite Hint. split; [reflexivity|]. split; [exact Hset|].
    split; [apply set_id_bound_to|exact Hframe].
Qed.

Lemma process_command_fire_and_forget_witness :
  task_of 7 "POST" None (KStr "ping")
          (SlashBot.mk_request (Some (Command.to_dict ping_cmd)) None
                               (Some (None, KStr "ping")))
    ∈ SlashBot.tasks_of 7
        (SlashBot.mk_state
           {[ None := {[ KStr "ping" :=
                           SlashBot.mk_request
                             (Some (Command.to_dict ping_cmd)) None
                             (Some (None, KStr "ping")) ]} ]} ∅ ∅) /\
  SlashBot.process_command creating_http sample_guilds delete_old
  = (sample_guilds,
     ([SlashBot.Exception (KStr "old");
       SlashBot.Debug "DELETE" (KStr "old") None],
      Ok tt)) /\
  SlashBot.run_tasks creating_http sample_guilds [delete_old; create_ping]
  = (fst (SlashBot.run_tasks creating_http sample_guilds [create_ping]),
     put_in 0
            ([SlashBot.Exception (KStr "old");
              SlashBot.Debug "DELETE" (KStr "old") None], Ok tt)
            (snd (SlashBot.run_tasks creating_http sample_guilds
                                     [create_ping]))) /\
  exists guilds' c',
    SlashBot.process_command creating_http sample_guilds create_ping
    = (guilds', ([SlashBot.Debug "POST" (KStr "ping") None], Ok tt)) /\
    lookup_cmd guilds' None "ping" = Some c' /\
    Command.id c' = Some 777 /\
    Command.name c' = "ping".
Proof.
  pose proof (process_command_fire_and_forget creating_http 7)
    as (Htask & Hfail & _ & Hsib & Hok).
  refine (conj _ (conj _ (conj _ _))).
  - apply (proj1 (Htask _ None (KStr "ping") _)). reflexivity.
  - apply (Hfail sample_guilds delete_old). reflexivity.
  - apply (Hsib sample_guilds [] delete_old [create_ping] HTTPException).
    reflexivity.
  - destruct (Hok sample_guilds create_ping None "ping" ping_cmd
                  [("id", JStr "777"); ("name", JStr "ping")] (JStr "777")
                  777)
      as (guilds' & c' & Hrun & Hc' & Hb & _); [reflexivity..|].
    exists guilds', c'. split; [exact Hrun|]. split; [exact Hc'|].
    destruct Hb as (Hid & _ & _ & Hname & _). by rewrite Hname.
Defined.

(** ** Options and construction, further *)

(** X1. [clone] changes nothing of an option but a [required] value that is
    not true, which becomes [False]: description, type, name and choices are
    kept, and cloning the clone gives the clone again. *)
Theorem Option_clone_idempotent (o o' : Option.t) :
  Option.clone o = Ok o' ->
  Option.clone o' = Ok o' /\
  Option.description o' = Option.description o /\
  Option.type o' = Option.type o /\
  Option.name o' = Option.name o /\
  Option.choices o' = Option.choices o /\
  Option.required o'
  = (if py_truthy (Option.required o) then Option.required o
     else JBool false).
Proof.
  rewrite Option_clone_value. intros [= <-].
  rewrite Option_clone_value. destruct o as [d ty n r cs]. cbn.
  destruct (py_truthy r) eqn:Hr; [by rewrite Hr|done].
Qed.

Lemma Option_clone_idempotent_witness :
  Option.clone (Option.set_required (JBool false) lenient_option)
  = Ok (Option.set_required (JBool false) lenient_option) /\
  Option.required (Option.set_required (JBool false) lenient_option)
  = JBool false.
Proof.
  destruct (Option_clone_idempotent lenient_option
              (Option.set_required (JBool false) lenient_option) eq_refl)
    as (H1 & _ & _ & _ & _ & H2).
  split; [exact H1|exact H2].
Defined.

Lemma init_param_ok st p :
  Command.init_param st p
  = if annotated p
    then Ok (if Command.is_context (Command.eval_annotation (p_annotation p))
             then Some (p_name p) else fst st,
             match Command.eval_annotation (p_annotation p) with
             | AnnOption o => dict_set (p_name p) (param_option p o) (snd st)
             | _ => snd st
             end)
    else Raise (TypeError
                  "cannot have a required argument with no valid annotation").
Proof.
  unfold Command.init_param, annotated, param_option.
  destruct (Command.eval_annotation (p_annotation p)) as [o| | |];
    destruct (p_has_default p); cbn; try done;
    rewrite Option_clone_value; cbn; done.
Qed.




Lemma dict_set_fresh {V} (k : string) (v : V) d :
  ~ In k (dict_keys d) -> dict_set k v d = d ++ [(k, v)].
Proof.
  induction d as [|[k' v'] d IH]; cbn; [done|]. intros H.
  destruct (String.eqb k k') eqn:E.
  - apply String.eqb_eq in E. exfalso. apply H. by left.
  - rewrite IH; [done|]. intros Hin. apply H. by right.
Qed.

Lemma param_options_keys ps :
  forall k, In k (dict_keys (param_options ps)) -> In k (map p_name ps).
Proof.
  induction ps as [|p ps IH]; intros k; [done|].
  unfold param_options, dict_keys in *. cbn [flat_map map].
  rewrite map_app, in_app_iff. intros [H|H].
  - left. destruct (Command.eval_annotation _); try done.
    by destruct H as [<-|[]].
  - right. by apply IH.
Qed.

Lemma init_params_options ps : forall st st',
  List.NoDup (map p_name ps) ->
  (forall k, In k (dict_keys (snd st)) -> ~ In k (map p_name ps)) ->
  Command.init_params st ps = Ok st' ->
  snd st' = snd st ++ param_options ps.
Proof.
  induction ps as [|p ps IH]; intros st st' Hnd Hfresh;
    cbn [Command.init_params].
  - intros [= <-]. by rewrite app_nil_r.
  - rewrite init_param_ok. destruct (annotated p); cbn [bind]; [|discriminate].
    inversion Hnd as [|? ? Hp Hps]; subst.
    intros H. apply IH in H; [|done|].
    + rewrite H. cbn [snd]. unfold param_options. cbn [flat_map].
      destruct (Command.eval_annotation (p_annotation p)) as [o| | |];
        try done.
      rewrite dict_set_fresh.
      * by rewrite <- app_assoc.
      * intros Hin. apply (Hfresh _ Hin). by left.
    + cbn [snd]. intros k Hk Hin.
      destruct (Command.eval_annotation (p_annotation p)) as [o| | |];
        try (apply (Hfresh k Hk); by right).
      destruct (in_dec string_dec k (dict_keys (snd st))) as [Hold|Hnew].
      * apply (Hfresh k Hold). by right.
      * rewrite dict_set_fresh in Hk by
          (intros Hin'; apply (Hfresh _ Hin'); by left).
        unfold dict_keys in Hk. rewrite map_app, in_app_iff in Hk.
        destruct Hk as [Hk|[<-|[]]]; [done|]. done.
Qed.

Lemma dict_get_NoDup {V} (d : list (string * V)) k v :
  List.NoDup (dict_keys d) -> In (k, v) d -> dict_get k d = Some v.
Proof.
  induction d as [|[k' v'] d IH]; cbn; [done|].
  intros Hnd [Hin|Hin].
  - injection Hin as -> ->. by rewrite String.eqb_refl.
  - inversion Hnd as [|? ? Hk Hd]; subst.
    destruct (String.eqb k k') eqn:E; [|by apply IH].
    apply String.eqb_eq in E as ->. exfalso. apply Hk.
    apply in_map_iff. by exists (k', v).
Qed.

Lemma param_options_NoDup ps :
  List.NoDup (map p_name ps) -> List.NoDup (dict_keys (param_options ps)).
Proof.
  induction ps as [|p ps IH]; [constructor|].
  intros Hnd. inversion Hnd as [|? ? Hp Hps]; subst.
  unfold param_options, dict_keys in *. cbn [flat_map].
  destruct (Command.eval_annotation _); try by apply IH.
  cbn. constructor; [|by apply IH].
  intros Hin. apply Hp. by apply param_options_keys.
Qed.

(** X3. The options of a command that was built from a callback whose
    parameters have distinct names are keyed by the names of the parameters
    annotated with an [Option], in the order of the signature. No option is
    left without a name: an option declared without one is named after its
    parameter, another one keeps its declared name. Description, type and
    choices are those of the annotation, and the option of a parameter without
    a default value is required. *)
Theorem Command_init_options
        (group : bool) (coro : Coroutine)
        (kw_name : option string) (kw_description : option (option string))
        (kw_guild : option json)
        (kw_parent : option Command.t) (kw_check : option fn)
        (c : Command.t) :
  Command.init group coro kw_name kw_description kw_guild kw_parent kw_check
  = Ok c ->
  List.NoDup (map p_name (co_params coro)) ->
  dict_keys (Command.options c)
  = map p_name
        (List.filter (fun p => Command.is_option
                                 (Command.eval_annotation (p_annotation p)))
                     (co_params coro)) /\
  Forall (fun kv => Option.name (snd kv) <> JNull) (Command.options c) /\
  (forall p o,
     In p (co_params coro) ->
     Command.eval_annotation (p_annotation p) = AnnOption o ->
     exists o',
       dict_get (p_name p) (Command.options c) = Some o' /\
       Option.description o' = Option.description o /\
       Option.type o' = Option.type o /\
       Option.choices o' = Option.choices o /\
       Option.name o' = match Option.name o with
                        | JNull => JStr (p_name p)
                        | n => n
                        end /\
       (p_has_default p = false -> Option.required o' = JBool true)).
Proof.
  intros Hinit Hnd.
  assert (Hopts : Command.options c = param_options (co_params coro)).
  { unfold Command.init in Hinit.
    destruct (match kw_description with
              | Some d => d | None => co_doc coro end) as [[|a d]|];
      try discriminate.
    destruct (match kw_guild with
              | None | Some JNull => Ok None
              | Some g => z <- py_int g ;; Ok (Some z)
              end); cbn [bind] in Hinit; [|discriminate].
    destruct (Command.init_params (None, []) (co_params coro)) as [st|] eqn:Hps;
      cbn [bind] in Hinit; [|discriminate].
    apply init_params_options in Hps; [|done|done].
    destruct (fst st); [|discriminate]. injection Hinit as <-. exact Hps. }
  rewrite Hopts. split; [|split].
  - clear. induction (co_params coro) as [|p ps IH]; [done|].
    unfold param_options, dict_keys in *. cbn [flat_map List.filter].
    rewrite map_app, IH.
    by destruct (Command.eval_annotation (p_annotation p)).
  - clear. apply Forall_forall. intros [k o'] Hin.
    apply list_elem_of_In, in_flat_map in Hin as (p & _ & Hin).
    destruct (Command.eval_annotation (p_annotation p)) as [o| | |];
      try done.
    destruct Hin as [[= <- <-]|[]]. cbn [snd]. unfold param_option.
    destruct o as [d ty n r cs]; cbn.
    destruct n, (p_has_default p); cbn; done.
  - intros p o Hp Ho. exists (param_option p o). split.
    + apply dict_get_NoDup; [by apply param_options_NoDup|].
      apply in_flat_map. exists p. split; [done|]. rewrite Ho. by left.
    + unfold param_option. destruct o as [d ty n r cs]; cbn.
      destruct n, (p_has_default p); cbn; repeat split; try done.
Qed.

Lemma Command_init_options_witness :
  exists o',
    dict_get "amount" (Command.options pay_new) = Some o' /\
    Option.name o' = JStr "amount" /\
    Option.required o' = JBool true.
Proof.
  destruct (Command_init_options false pay_coro None None None None None
              pay_new eq_refl) as (_ & _ & H).
  { repeat constructor; cbn; intuition discriminate. }
  destruct (H {| p_name := "amount";
                 p_annotation := Ann (AnnOption amount_option);
                 p_has_default := false |} amount_option)
    as (o' & Ho & _ & _ & _ & Hn & Hr); [right; by left|reflexivity|].
  exists o'. split; [exact Ho|]. split; [exact Hn|]. by apply Hr.
Defined.

Lemma string_append_assoc (a b c : string) :
  (a +:+ b) +:+ c = a +:+ (b +:+ c).
Proof.
  induction a as [|x a IH]; [reflexivity|].
  change (String x ((a +:+ b) +:+ c) = String x (a +:+ b +:+ c)).
  by f_equal.
Qed.

Lemma concat_snoc (sep x : string) (l : list string) :
  l <> [] -> String.concat sep (l ++ [x]) = String.concat sep l +:+ sep +:+ x.
Proof.
  induction l as [|y l IH]; [done|]. intros _.
  destruct l as [|z l]; [done|].
  change (String.concat sep ((y :: z :: l) ++ [x]))
    with (y +:+ sep +:+ String.concat sep ((z :: l) ++ [x])).
  rewrite IH by done.
  change (String.concat sep (y :: z :: l))
    with (y +:+ sep +:+ String.concat sep (z :: l)).
  by rewrite !string_append_assoc.
Qed.

(** X4. The qualified name of a command is the names of its ancestors, from
    the outermost group down, and then its own name, joined by single spaces. *)
Theorem qualname_joins_names (c : Command.t) :
  Command.qualname c
  = String.concat " " (rev (map Command.name (c :: ancestors c))).
Proof.
  induction c as [c IH] using parent_chain_ind.
  destruct c as [cg co i n d g par o df ca ck sl]; cbn in IH |- *.
  destruct par as [p|]; [|done].
  rewrite IH. cbn [map rev].
  rewrite (concat_snoc " " n); [done|].
  by destruct (rev (map Command.name (ancestors p))).
Qed.

(** ** Serialisation, further *)

Lemma dict_get_to_dict_name (c : Command.t) :
  dict_get "name" (Command.to_dict c) = Some (JStr (Command.name c)) /\
  dict_get "description" (Command.to_dict c)
  = Some (JStr (Command.description c)) /\
  dict_get "type" (Command.to_dict c) = None.
Proof.
  destruct c as [cg co i n d g par o df ca ck sl]. cbn.
  destruct sl as [[|sub subs]|]; cbn; try done. by destruct o.
Qed.

(** X5. A group serialises its subcommands, and nothing of the options its own
    callback declares: its ['options'] entry is absent when it has no
    subcommand and otherwise lists one entry for each subcommand, in the order
    of registration. Each entry is the serialised subcommand, under the
    subcommand's own name, with a ['type'] of 2 for a group and 1 for a
    command. *)
Theorem Group_to_dict_entries (group : Command.t)
        (subs : list (string * Command.t)) :
  Command.slash group = Some subs ->
  (forall o, Command.to_dict (with_options o group) = Command.to_dict group) /\
  dict_get "options" (Command.to_dict group)
  = match subs with
    | [] => None
    | _ => Some (JList (map (fun kv => sub_entry (snd kv)) subs))
    end /\
  Forall (fun kv =>
            exists entry,
              sub_entry (snd kv) = JDict entry /\
              dict_get "name" entry = Some (JStr (Command.name (snd kv))) /\
              dict_get "type" entry
              = Some (JInt (match Command.slash (snd kv) with
                            | Some _ => 2
                            | None => 1
                            end))) subs.
Proof.
  intros Hs. split; [|split].
  - intros o. destruct group as [cg co i n d g par o' df ca ck sl].
    cbn in Hs. subst sl. cbn. done.
  - destruct group as [cg co i n d g par o' df ca ck sl].
    cbn in Hs. subst sl. cbn. by destruct subs.
  - apply Forall_forall. intros [k sub] _. eexists. split; [reflexivity|].
    cbn [snd]. destruct (dict_get_to_dict_name sub) as (Hn & _ & Ht).
    split.
    + by rewrite dict_get_set_ne.
    + rewrite dict_get_set_eq. by destruct (Command.slash sub).
Qed.

Lemma Group_to_dict_entries_witness :
  dict_get "options" (Command.to_dict admin_tree)
  = Some (JList [sub_entry ban_cmd]).
Proof.
  exact (proj1 (proj2 (Group_to_dict_entries admin_tree [("ban", ban_cmd)]
                         eq_refl))).
Defined.

Lemma children_ind (P : Command.t -> Prop) :
  (forall c,
     match Command.slash c with
     | Some subs => Forall (fun kv => P (snd kv)) subs
     | None => True
     end -> P c) ->
  forall c, P c.
Proof.
  intros H. fix IH 1. intros c. apply H.
  destruct c as [? ? ? ? ? ? ? ? ? ? ? sl]; cbn.
  destruct sl as [subs|]; [|exact I].
  induction subs as [|[k sub] subs IHs]; constructor; [apply IH|exact IHs].
Qed.

Lemma keys_unique_dict_set (k : string) (v : json) d :
  keys_unique (dict_keys d) = true ->
  keys_unique (dict_keys (dict_set k v d)) = true.
Proof.
  unfold dict_keys.
  induction d as [|[k' v'] d IH]; cbn; [done|]. intros H.
  apply andb_prop in H as [Hk Hd].
  destruct (String.eqb k k') eqn:E; cbn.
  - apply String.eqb_eq in E as ->. by rewrite Hk, Hd.
  - rewrite IH by done. rewrite andb_true_r.
    apply negb_true_iff, not_true_iff_false. intros Hex.
    apply existsb_exists in Hex as (x & Hx & Hkx).
    apply String.eqb_eq in Hkx as <-.
    apply negb_true_iff, not_true_iff_false in Hk. apply Hk.
    apply existsb_exists. exists k'. split; [|apply String.eqb_refl].
    clear -Hx E. induction d as [|[k0 v0] d IHd]; cbn in *.
    + destruct Hx as [->|[]]. by rewrite String.eqb_refl in E.
    + destruct (String.eqb k k0) eqn:E0; cbn in Hx.
      * destruct Hx as [->|Hx]; [by rewrite String.eqb_refl in E|by right].
      * destruct Hx as [->|Hx]; [by left|right; by apply IHd].
Qed.

Lemma json_wf_dict_set (k : string) (v : json) d :
  json_wf (JDict d) = true -> json_wf v = true ->
  json_wf (JDict (dict_set k v d)) = true.
Proof.
  cbn [json_wf]. intros H Hv. apply andb_prop in H as [Hu Hd].
  rewrite keys_unique_dict_set by done. cbn [andb].
  clear Hu. induction d as [|[k' v'] d IH]; cbn in *; [by rewrite Hv|].
  apply andb_prop in Hd as [Hv' Hd].
  destruct (String.eqb k k'); cbn; [by rewrite Hv, Hd|].
  by rewrite Hv', IH.
Qed.

Lemma Option_to_dict_wf (o : Option.t) :
  Option_wf o = true -> json_wf (JDict (Option.to_dict o)) = true.
Proof.
  unfold Option_wf. destruct o as [d ty n r cs]. cbn [Option.description
    Option.name Option.required Option.choices Option.type].
  intros H. apply andb_prop in H as [H Hcs]. apply andb_prop in H as [H Hr].
  apply andb_prop in H as [Hd Hn].
  unfold Option.to_dict. cbn [Option.description Option.name Option.required
    Option.choices Option.type].
  assert (Hbase : json_wf (JDict [("type", JInt ty); ("name", n);
                                  ("description", d)]) = true)
    by (cbn; by rewrite Hn, Hd).
  assert (Hreq : json_wf (JDict (if py_truthy r
                                 then dict_set "required" r
                                        [("type", JInt ty); ("name", n);
                                         ("description", d)]
                                 else [("type", JInt ty); ("name", n);
                                       ("description", d)])) = true).
  { destruct (py_truthy r); [|done]. by apply json_wf_dict_set. }
  destruct cs as [cs|]; [|done].
  apply json_wf_dict_set; [done|]. cbn.
  induction cs as [|c cs IH]; [done|]. cbn in Hcs |- *.
  apply andb_prop in Hcs as [Hc Hcs]. unfold Choice_wf in Hc.
  apply andb_prop in Hc as [H1 H2]. rewrite H1, H2. cbn. by apply IH.
Qed.

Lemma Command_to_dict_wf (c : Command.t) :
  Command_wf c = true -> json_wf (JDict (Command.to_dict c)) = true.
Proof.
  induction c as [c IH] using children_ind.
  destruct c as [cg co i n d g par o df ca ck sl]. cbn in IH.
  cbn [Command_wf Command.options Command.slash]. intros H.
  apply andb_prop in H as [Ho Hs].
  cbn [Command.to_dict Command.slash Command.options Command.name
       Command.description].
  destruct sl as [subs|].
  - destruct subs as [|sub subs]; [done|].
    apply json_wf_dict_set; [done|].
    cbn [json_wf]. apply forallb_forall. intros x Hx.
    apply in_map_iff in Hx as (kv & <- & Hkv).
    apply json_wf_dict_set; [|done].
    rewrite Forall_forall in IH. apply IH; [by apply list_elem_of_In|].
    rewrite forallb_forall in Hs. by apply Hs.
  - destruct o as [|kv o']; [done|].
    apply json_wf_dict_set; [done|].
    cbn [json_wf]. apply forallb_forall. intros x Hx.
    unfold dict_values in Hx. rewrite map_map in Hx.
    apply in_map_iff in Hx as (kv' & <- & Hkv).
    apply Option_to_dict_wf. rewrite forallb_forall in Ho. by apply Ho.
Qed.

(** X6. When no dictionary in the data its options were declared with has a
    key twice, a command serialises to a dictionary that has no key twice at
    any depth. [sync_cmds] then finds the command up to date against its own
    serialisation, and against every remote definition that holds the same
    ['name'], ['description'] and ['options']. *)
Theorem serialised_command_is_up_to_date
        (c : Command.t) (remote : list (string * json)) :
  Command_wf c = true ->
  json_wf (JDict (Command.to_dict c)) = true /\
  SlashBot.up_to_date (Command.to_dict c) (Command.to_dict c) = true /\
  (holds_serialised remote c ->
   SlashBot.up_to_date remote (Command.to_dict c) = true).
Proof.
  intros Hwf. apply Command_to_dict_wf in Hwf. split; [exact Hwf|].
  unfold SlashBot.up_to_date. split.
  - by rewrite !get_eq_same.
  - intros (Hn & Hd & Ho). by rewrite !get_eq_same.
Qed.

Lemma serialised_command_is_up_to_date_witness :
  SlashBot.up_to_date remote_pay (Command.to_dict pay_new) = true.
Proof.
  apply (proj2 (proj2 (serialised_command_is_up_to_date pay_new remote_pay
                         eq_refl))).
  split; [reflexivity|]. split; reflexivity.
Defined.

(** ** The guard chain and the invocation, further *)

(* cog checks *)
Lemma cog_check_in_spec (c : Cog) (cogs : list callable) :
  cog_check_in c cogs = true <-> In (cog_id c) (cog_ids cogs).
Proof.
  unfold cog_check_in, cog_ids. rewrite existsb_exists, in_flat_map.
  split.
  - intros (x & Hx & Hm). exists x. split; [done|].
    destruct x; try done. apply Nat.eqb_eq in Hm. left. done.
  - intros (x & Hx & Hm). exists x. split; [done|].
    destruct x; try done. destruct Hm as [<-|[]]. apply Nat.eqb_refl.
Qed.

Lemma cog_ids_app l1 l2 : cog_ids (l1 ++ l2) = cog_ids l1 ++ cog_ids l2.
Proof. unfold cog_ids. apply flat_map_app. Qed.

Lemma cog_ids_rev l : cog_ids (rev l) = rev (cog_ids l).
Proof.
  induction l as [|x l IH]; [done|]. cbn [rev]. rewrite cog_ids_app, IH.
  destruct x; cbn; rewrite ?app_nil_r; done.
Qed.

Lemma add_cog_checks_spec l : forall cogs,
  List.NoDup (cog_ids cogs) ->
  let cogs' := fold_left add_cog_check l cogs in
  List.NoDup (cog_ids cogs') /\
  (forall x, In x cogs -> In x cogs') /\
  (forall c f, In (CogCheck c f) cogs' ->
     In (CogCheck c f) cogs \/
     (cog_check c = Some f /\ exists p, In p l /\ Command.cog p = Some c)) /\
  (forall p c f, In p l -> Command.cog p = Some c -> cog_check c = Some f ->
     In (cog_id c) (cog_ids cogs')).
Proof.
  induction l as [|p l IH]; intros cogs Hnd; cbn [fold_left].
  - repeat split; try done. intros c f H. by left.
  - assert (Hstep : List.NoDup (cog_ids (add_cog_check cogs p)) /\
                    (forall x, In x cogs -> In x (add_cog_check cogs p)) /\
                    (forall c f, In (CogCheck c f) (add_cog_check cogs p) ->
                       In (CogCheck c f) cogs \/
                       (cog_check c = Some f /\ Command.cog p = Some c)) /\
                    (forall c f, Command.cog p = Some c ->
                       cog_check c = Some f ->
                       In (cog_id c) (cog_ids (add_cog_check cogs p)))).
    { unfold add_cog_check.
      destruct (Command.cog p) as [c|]; [|repeat split; auto; discriminate].
      destruct (cog_check c) as [f|] eqn:Hf.
      2:{ repeat split; auto. intros c' f' [= <-]. congruence. }
      destruct (cog_check_in c cogs) eqn:Hin.
      - repeat split; auto. intros c' f' [= <-] _.
        by apply cog_check_in_spec.
      - split; [|split; [|split]].
        + rewrite cog_ids_app. cbn. apply NoDup_ListNoDup.
          apply NoDup_app. split; [by apply NoDup_ListNoDup|].
          split; [|apply NoDup_singleton].
          intros i Hi Hi'. apply list_elem_of_singleton in Hi' as ->.
          apply list_elem_of_In, cog_check_in_spec in Hi. congruence.
        + intros x Hx. apply in_or_app. by left.
        + intros c' f' H. apply in_app_or in H as [H|[H|[]]]; [by left|].
          injection H as <- <-. by right.
        + intros c' f' [= <-] _. rewrite cog_ids_app. apply in_or_app.
          right. by left. }
    destruct Hstep as (Hnd1 & Hmono1 & Hsound1 & Hcompl1).
    destruct (IH _ Hnd1) as (Hnd2 & Hmono2 & Hsound2 & Hcompl2).
    split; [exact Hnd2|]. split; [auto|]. split.
    + intros c f H. apply Hsound2 in H as [H|(Hf & q & Hq & Hc)].
      * apply Hsound1 in H as [H|[Hf Hc]]; [by left|].
        right. split; [done|]. exists p. split; [by left|done].
      * right. split; [done|]. exists q. split; [by right|done].
    + intros q c f [<-|Hq] Hc Hf.
      * specialize (Hcompl1 c f Hc Hf).
        unfold cog_ids in Hcompl1 |- *. apply in_flat_map in Hcompl1
          as (x & Hx & Hm).
        apply in_flat_map. exists x. split; [by apply Hmono2|done].
      * by apply (Hcompl2 q c f).
Qed.

(** X7. The [cog_check]s that [can_run] calls are those of the cogs of the
    ancestor groups and no other: the cog of the command itself is consulted
    only if an ancestor has it too. Every ancestor's cog that has a
    [cog_check] is consulted, and no cog is consulted twice. *)
Theorem can_run_cog_checks (self : Command.t) (ctx : Context.t) :
  (forall c f,
     In (CogCheck c f) (can_run_checks self ctx) ->
     cog_check c = Some f /\
     exists p, In p (ancestors self) /\ Command.cog p = Some c) /\
  (forall p c f,
     In p (ancestors self) -> Command.cog p = Some c ->
     cog_check c = Some f ->
     In (cog_id c) (cog_ids (can_run_checks self ctx))) /\
  List.NoDup (cog_ids (can_run_checks self ctx)).
Proof.
  destruct (add_cog_checks_spec (ancestors self) [] (List.NoDup_nil _))
    as (Hnd & _ & Hsound & Hcompl).
  assert (Hids : cog_ids (can_run_checks self ctx)
                 = rev (cog_ids (fold_left add_cog_check (ancestors self)
                                           []))).
  { rewrite can_run_checks_spec, !cog_ids_app, !cog_ids_rev.
    assert (H1 : forall l, cog_ids (map GlobalCheck l) = [])
      by (induction l; done).
    assert (H2 : forall l, cog_ids (map group_check l) = [])
      by (induction l; done).
    rewrite H1, H2. cbn. by rewrite app_nil_r. }
  split; [|split].
  - intros c f H. rewrite can_run_checks_spec in H.
    rewrite !in_app_iff, <- !in_rev in H.
    destruct H as [H|[H|[H|[H|[]]]]].
    + apply in_map_iff in H as (? & ? & _). done.
    + apply Hsound in H as [[]|H]. exact H.
    + apply in_map_iff in H as (? & ? & _). done.
    + done.
  - intros p c f Hp Hc Hf. rewrite Hids, <- in_rev. by apply (Hcompl p c f).
  - rewrite Hids. by apply List.NoDup_rev.
Qed.

Lemma can_run_cog_checks_witness :
  In (cog_id mod_cog) (cog_ids (can_run_checks warn_add ban_ctx)) /\
  List.NoDup (cog_ids (can_run_checks warn_add ban_ctx)).
Proof.
  destruct (can_run_cog_checks warn_add ban_ctx) as (_ & Hc & Hnd).
  split; [|exact Hnd].
  apply (Hc warn_group mod_cog "mod_only"); [by left|reflexivity..].
Defined.

Lemma invoke_parents_walk_spec p : forall parents,
  invoke_parents_walk p parents
  = parents ++ map group_hook (p :: ancestors p).
Proof.
  induction p as [p IH] using parent_chain_ind. intros parents.
  destruct p as [cg co i n d g par o df ca ck sl]; cbn in IH |- *.
  destruct par as [q|]; cbn.
  - rewrite IH. by rewrite <- app_assoc.
  - done.
Qed.

Lemma run_checks_pass behave (ctx : Context.t) (l : list callable) :
  Forall (passes behave ctx) l ->
  run_checks behave l ctx = (map Called l, Ok true).
Proof.
  induction 1 as [|c l [v [Hv Hne]] _ IH]; [done|].
  cbn [run_checks]. rewrite await_value, Hv. cbn [tbind]. rewrite IH.
  destruct v as [|[]| | | |]; done.
Qed.

Lemma run_hooks_all behave (ctx : Context.t) (l : list callable) :
  Forall (returns behave ctx) l ->
  run_hooks behave l ctx = (map Called l, Ok tt).
Proof.
  induction 1 as [|c l [v Hv] _ IH]; [done|].
  cbn [run_hooks]. rewrite await_value, Hv. cbn [tbind]. by rewrite IH.
Qed.

Lemma invoke_parents_hooks behave (self : Command.t) (ctx : Context.t) :
  invoke_parents behave self ctx
  = run_hooks behave (rev (map group_hook (ancestors self))) ctx.
Proof.
  unfold invoke_parents.
  destruct self as [cg co i n d g par o df ca ck sl]; cbn.
  destruct par as [p|]; [|done]. by rewrite invoke_parents_walk_spec.
Qed.

(** X8. When every check returns something other than [False], the context has
    an author and a guild, and the callbacks of the ancestor groups and of the
    command return, [invoke] returns after it has called, in this order and
    each once: the checks, the callbacks of the ancestor groups from the
    outermost one down (each bound to its cog), and the callback of the
    command with the options of the context as keywords. *)
Theorem invoke_calls_checks_hooks_body
        (behave : callable -> Context.t -> outcome)
        (self : Command.t) (ctx : Context.t) :
  Forall (passes behave ctx) (can_run_checks self ctx) ->
  Context.author ctx <> None ->
  Context.guild ctx <> None ->
  Forall (returns behave ctx) (map group_hook (ancestors self)) ->
  returns behave ctx (body_call self ctx) ->
  invoke behave self ctx
  = (map Called (can_run_checks self ctx
                 ++ rev (map group_hook (ancestors self))
                 ++ [body_call self ctx]),
     Ok tt).
Proof.
  intros Hchecks Ha Hg Hhooks [v Hbody].
  unfold invoke, can_run. rewrite (run_checks_pass _ _ _ Hchecks).
  cbn [tbind negb]. unfold invoke_log_args.
  destruct (Context.author ctx) as [a|]; [|done].
  destruct (Context.guild ctx) as [g|]; [|done].
  cbn [lift tbind]. rewrite invoke_parents_hooks.
  rewrite run_hooks_all by (by apply Forall_rev).
  cbn [tbind]. fold (body_call self ctx). rewrite await_value, Hbody.
  cbn. by rewrite !map_app.
Qed.

Lemma invoke_calls_checks_hooks_body_witness :
  invoke quiet ban_cmd ban_ctx
  = ([Called (GlobalCheck "is_owner");
      Called (Check (UserCheck "admin_check") None);
      Called (Check (UserCheck "ban_check") None);
      Called (Hook "admin" None);
      Called (Body "ban" None [("ctx", VSelf)])],
     Ok tt).
Proof.
  apply (invoke_calls_checks_hooks_body quiet ban_cmd ban_ctx).
  - repeat constructor; eexists; (split; [reflexivity|discriminate]).
  - discriminate.
  - discriminate.
  - repeat constructor. by eexists.
  - by eexists.
Defined.

(** X9. [invoke] reads [ctx.author.id] and [ctx.guild.id] for its log line
    after the checks have passed. On a context without an author or without a
    guild, as outside any guild, it raises [AttributeError] there: the checks
    have been called, but no callback of a group and not the callback of the
    command. *)
Theorem invoke_needs_author_and_guild
        (behave : callable -> Context.t -> outcome)
        (self : Command.t) (ctx : Context.t) :
  Forall (passes behave ctx) (can_run_checks self ctx) ->
  Context.author ctx = None \/ Context.guild ctx = None ->
  invoke behave self ctx
  = (map Called (can_run_checks self ctx), Raise (AttributeError "id")).
Proof.
  intros Hchecks Hnone.
  unfold invoke, can_run. rewrite (run_checks_pass _ _ _ Hchecks).
  cbn [tbind negb]. unfold invoke_log_args.
  destruct Hnone as [-> | ->].
  - cbn. by rewrite app_nil_r.
  - destruct (Context.author ctx); cbn; by rewrite app_nil_r.
Qed.

Lemma invoke_needs_author_and_guild_witness :
  invoke quiet pay_cmd dm_ctx
  = ([Called (Check DefaultCheck None)], Raise (AttributeError "id")).
Proof.
  apply (invoke_needs_author_and_guild quiet pay_cmd dm_ctx).
  - repeat constructor; eexists; (split; [reflexivity|discriminate]).
  - by left.
Defined.

Lemma run_checks_raise behave (ctx : Context.t) (c : callable) e post :
  check_value behave c ctx = Raises e ->
  forall pre,
    Forall (passes behave ctx) pre ->
    run_checks behave (pre ++ c :: post) ctx
    = (map Called (pre ++ [c]), Raise e).
Proof.
  intros Hc pre. induction 1 as [|x pre [v [Hv Hne]] _ IH].
  - cbn [app run_checks]. by rewrite await_value, Hc.
  - cbn [app run_checks]. rewrite await_value, Hv. cbn [tbind]. rewrite IH.
    destruct v as [|[]| | | |]; done.
Qed.

Lemma run_hooks_raise behave (ctx : Context.t) (h : callable) e post :
  check_value behave h ctx = Raises e ->
  forall pre,
    Forall (returns behave ctx) pre ->
    run_hooks behave (pre ++ h :: post) ctx
    = (map Called (pre ++ [h]), Raise e).
Proof.
  intros Hh pre. induction 1 as [|x pre [v Hv] _ IH].
  - cbn [app run_hooks]. by rewrite await_value, Hh.
  - cbn [app run_hooks]. rewrite await_value, Hv. cbn [tbind].
    by rewrite IH.
Qed.

(** X10. An exception raised by a check, or by the callback of an ancestor
    group, leaves [invoke] as it is. Nothing is called after the call that
    raised: in particular the callback of the command is not called. *)
Theorem invoke_exception_propagates
        (behave : callable -> Context.t -> outcome)
        (self : Command.t) (ctx : Context.t) (e : exn) :
  (forall pre c post,
     can_run_checks self ctx = pre ++ c :: post ->
     Forall (passes behave ctx) pre ->
     check_value behave c ctx = Raises e ->
     invoke behave self ctx = (map Called (pre ++ [c]), Raise e)) /\
  (forall pre h post,
     Forall (passes behave ctx) (can_run_checks self ctx) ->
     Context.author ctx <> None ->
     Context.guild ctx <> None ->
     rev (map group_hook (ancestors self)) = pre ++ h :: post ->
     Forall (returns behave ctx) pre ->
     check_value behave h ctx = Raises e ->
     invoke behave self ctx
     = (map Called (can_run_checks self ctx ++ pre ++ [h]), Raise e)).
Proof.
  split.
  - intros pre c post Hchain Hpre Hc. unfold invoke, can_run.
    rewrite Hchain, (run_checks_raise _ _ _ _ _ Hc _ Hpre). done.
  - intros pre h post Hchecks Ha Hg Hhooks Hpre Hh.
    unfold invoke, can_run. rewrite (run_checks_pass _ _ _ Hchecks).
    cbn [tbind negb]. unfold invoke_log_args.
    destruct (Context.author ctx) as [a|]; [|done].
    destruct (Context.guild ctx) as [g|]; [|done].
    cbn [lift tbind]. rewrite invoke_parents_hooks, Hhooks.
    rewrite (run_hooks_raise _ _ _ _ _ Hh _ Hpre).
    cbn. by rewrite !map_app.
Qed.

Lemma invoke_exception_propagates_witness :
  invoke raise_in_check ban_cmd ban_ctx
  = ([Called (GlobalCheck "is_owner");
      Called (Check (UserCheck "admin_check") None)],
     Raise (RuntimeError "no")) /\
  invoke raise_in_hook ban_cmd ban_ctx
  = ([Called (GlobalCheck "is_owner");
      Called (Check (UserCheck "admin_check") None);
      Called (Check (UserCheck "ban_check") None);
      Called (Hook "admin" None)],
     Raise (RuntimeError "no")).
Proof.
  split.
  - apply (proj1 (invoke_exception_propagates raise_in_check ban_cmd ban_ctx
                    (RuntimeError "no"))
                 [GlobalCheck "is_owner"]
                 (Check (UserCheck "admin_check") None)
                 [Check (UserCheck "ban_check") None]).
    + reflexivity.
    + repeat constructor; eexists; (split; [reflexivity|discriminate]).
    + reflexivity.
  - apply (proj2 (invoke_exception_propagates raise_in_hook ban_cmd ban_ctx
                    (RuntimeError "no"))
                 [] (Hook "admin" None) []).
    + repeat constructor; eexists; (split; [reflexivity|discriminate]).
    + discriminate.
    + discriminate.
    + reflexivity.
    + constructor.
    + reflexivity.
Defined.

(** ** Dispatch, further *)

(** X11. [on_interaction_create] looks the command up by the identifier of the
    event first: a registered command with that identifier is taken whatever
    its name. What it finds is a registered command with that identifier or
    with the name of the event. When no command has the identifier and the
    event has no ['guild_id'] key, the search raises [KeyError]; when the
    event has the key, the search raises [CommandNotFound] exactly when no
    command has the identifier or the name. *)
Theorem find_command_search (slash : list Command.t) (event : Event) (i : Z) :
  py_int (ev_data_id event) = Ok i ->
  (forall c,
     find_command slash event = Ok c ->
     In c slash /\
     (Command.id c = Some i \/ Command.name c = ev_data_name event)) /\
  ((exists c, In c slash /\ Command.id c = Some i) ->
   exists c, find_command slash event = Ok c /\ Command.id c = Some i) /\
  ((forall c, In c slash -> Command.id c <> Some i) ->
   ev_guild_id event = None ->
   find_command slash event = Raise (KeyError "guild_id")) /\
  (ev_guild_id event <> None ->
   (find_command slash event = Raise (CommandNotFound (ev_data_name event))
    <-> forall c, In c slash ->
                  Command.id c <> Some i /\
                  Command.name c <> ev_data_name event)).
Proof.
  intros Hi. unfold find_command. rewrite Hi. cbn [bind].
  set (by_id := fun c : Command.t =>
                  match Command.id c with Some z => z =? i | None => false end).
  set (by_name := fun c : Command.t =>
                    String.eqb (Command.name c) (ev_data_name event)).
  assert (Hid : forall c, by_id c = true <-> Command.id c = Some i).
  { intros c. unfold by_id. destruct (Command.id c) as [z|].
    - rewrite Z.eqb_eq. split; congruence.
    - split; discriminate. }
  assert (Hname : forall c, by_name c = true
                            <-> Command.name c = ev_data_name event)
    by (intros c; apply String.eqb_eq).
  assert (Hnone : List.find by_id slash = None <->
                  forall c, In c slash -> Command.id c <> Some i).
  { split.
    - intros H c Hc Hcid. apply Hid in Hcid.
      pose proof (List.find_none _ _ H c Hc). congruence.
    - intros H. destruct (List.find by_id slash) as [c|] eqn:E; [|done].
      apply List.find_some in E as [Hc E]. apply Hid in E.
      by apply H in Hc. }
  destruct (List.find by_id slash) as [c1|] eqn:E1.
  { apply List.find_some in E1 as [Hc1 E1]. apply Hid in E1.
    split; [|split; [|split]].
    - intros c [= <-]. split; [done|by left].
    - intros _. by exists c1.
    - intros H. by apply H in Hc1.
    - intros _. split; [discriminate|]. intros H. by apply H in Hc1 as [? _]. }
  pose proof (proj1 Hnone eq_refl) as Hno.
  destruct (ev_guild_id event) as [g|]; cbn [bind].
  2:{ split; [discriminate|]. split; [|split; [done|done]].
      intros (c & Hc & Hcid). by apply Hno in Hc. }
  match goal with
  | |- context [List.find ?f slash] =>
      lazymatch f with
      | by_name => fail
      | _ => set (by_both := f)
      end
  end.
  assert (Hboth : forall c, by_both c = true -> by_name c = true)
    by (intros c H; by apply andb_prop in H as [H _]).
  destruct (List.find by_both slash) as [c2|] eqn:E2.
  { apply List.find_some in E2 as [Hc2 E2]. apply Hboth, Hname in E2.
    split; [|split; [|split]].
    - intros c [= <-]. split; [done|by right].
    - intros (c & Hc & Hcid). by apply Hno in Hc.
    - done.
    - intros _. split; [discriminate|]. intros H. by apply H in Hc2 as [_ ?]. }
  destruct (List.find by_name slash) as [c3|] eqn:E3.
  { apply List.find_some in E3 as [Hc3 E3]. apply Hname in E3.
    split; [|split; [|split]].
    - intros c [= <-]. split; [done|by right].
    - intros (c & Hc & Hcid). by apply Hno in Hc.
    - done.
    - intros _. split; [discriminate|]. intros H. by apply H in Hc3 as [_ ?]. }
  split; [discriminate|]. split; [|split; [done|]].
  - intros (c & Hc & Hcid). by apply Hno in Hc.
  - intros _. split; [|done]. intros _ c Hc. split; [by apply Hno|].
    pose proof (List.find_none _ _ E3 c Hc) as Hn.
    intros Hcn. apply Hname in Hcn. congruence.
Qed.

Lemma find_command_search_witness :
  exists c,
    find_command [ping_cmd; pay_cmd] (pay_event []) = Ok c /\
    Command.id c = Some 500.
Proof.
  apply (proj1 (proj2 (find_command_search [ping_cmd; pay_cmd] (pay_event [])
                         500 eq_refl))).
  exists pay_cmd. split; [right; by left|reflexivity].
Defined.









Lemma tbind_Ok_inv {E A B} (m : traced E A) (k : A -> traced E B) tr b :
  tbind m k = (tr, Ok b) ->
  exists tr1 a tr2, m = (tr1, Ok a) /\ k a = (tr2, Ok b) /\ tr = tr1 ++ tr2.
Proof.
  unfold tbind. destruct m as [tr1 [a|e]]; [|discriminate].
  destruct (k a) as [tr2 r] eqn:Hk. intros [= <- ->].
  by exists tr1, a, tr2.
Qed.

Lemma init_outside_guild client cmd event tr ctx :
  Context.init client cmd event = (tr, Ok ctx) ->
  match ev_guild_id event with
  | Some g => py_truthy g = false
  | None => True
  end ->
  Context.guild ctx = None.
Proof.
  intros H Hg. unfold Context.init in H.
  apply tbind_Ok_inv in H as (tr1 & h & tr2 & Hh & H & _).
  apply tbind_Ok_inv in H as (tr3 & b & tr4 & _ & H & _).
  apply tbind_Ok_inv in H as (tr5 & me & tr6 & _ & H & _).
  injection H as _ <-. cbn [Context.guild].
  unfold Context.init_head in Hh.
  apply tbind_Ok_inv in Hh as (? & i & ? & _ & Hh & _).
  apply tbind_Ok_inv in Hh as (? & guild & ? & Hguild & Hh & _).
  apply tbind_Ok_inv in Hh as (? & channel & ? & _ & Hh & _).
  apply tbind_Ok_inv in Hh as (? & author & ? & _ & Hh & _).
  injection Hh as _ <-. cbn [Context.h_guild].
  destruct (ev_guild_id event) as [g|]; [rewrite Hg in Hguild|];
    by injection Hguild as _ <-.
Qed.

(** X13. An interaction from outside any guild never reaches the callback of
    its command. When the event has no ['guild_id'], or one that is not true,
    the context that is built has no guild; if its checks pass,
    [on_interaction_create] calls the checks and nothing else, and dispatches
    a [command_error] event for a [CommandInvokeError] that wraps the
    [AttributeError] raised on [ctx.guild.id]. *)
Theorem interaction_outside_guild_never_runs
        (behave : callable -> Context.t -> outcome)
        (client : Client) (slash : list Command.t) (event : Event)
        (cmd : Command.t) (tr0 : list action) (ctx : Context.t) :
  py_eq (ev_version event) (JInt 1) = true ->
  find_command slash event = Ok cmd ->
  make_context client cmd event = (tr0, Ok ctx) ->
  match ev_guild_id event with
  | Some g => py_truthy g = false
  | None => True
  end ->
  Forall (passes behave ctx) (can_run_checks (Context.command ctx) ctx) ->
  Context.guild ctx = None /\
  on_interaction_create behave client slash event
  = (tr0 ++ map Called (can_run_checks (Context.command ctx) ctx)
         ++ [Dispatched (CommandInvokeError (Original (AttributeError "id")))],
     Ok tt).
Proof.
  intros Hver Hfind Hctx Hg Hchecks.
  assert (Hguild : Context.guild ctx = None).
  { unfold make_context in Hctx.
    destruct (List.find _ _) as [p|]; [|discriminate].
    destruct (p_annotation p) as [[]|]; try discriminate.
    unfold relabel in Hctx.
    destruct (Context.init client cmd event) as [tr r] eqn:Hinit.
    cbn [fst snd] in Hctx. injection Hctx as _ ->.
    by apply (init_outside_guild _ _ _ _ _ Hinit). }
  split; [exact Hguild|].
  unfold on_interaction_create. rewrite Hver. cbn [negb].
  rewrite Hfind. cbn [lift tbind]. rewrite Hctx. cbn [tbind app].
  unfold invoke, can_run. rewrite (run_checks_pass _ _ _ Hchecks).
  cbn [tbind negb]. unfold invoke_log_args. rewrite Hguild.
  destruct (Context.author ctx); cbn; by rewrite app_nil_r.
Qed.

Lemma interaction_outside_guild_never_runs_witness :
  on_interaction_create quiet (sample_client [] true false) [pay_cmd] dm_event
  = ([Looked (Get "channel" 20); Looked (Get "me-member" 1);
      Called (Check DefaultCheck None);
      Dispatched (CommandInvokeError (Original (AttributeError "id")))],
     Ok tt).
Proof.
  assert (Hctx : make_context (sample_client [] true false) pay_cmd dm_event
                 = ([Looked (Get "channel" 20); Looked (Get "me-member" 1)],
                    Ok dm_built)) by reflexivity.
  destruct (interaction_outside_guild_never_runs quiet
              (sample_client [] true false) [pay_cmd] dm_event pay_cmd
              _ _ eq_refl eq_refl Hctx I) as [_ Hrun].
  - repeat constructor; eexists; (split; [reflexivity|discriminate]).
  - rewrite Hrun. reflexivity.
Defined.

(** ** Entity resolution and binding, further *)

(** X14. Without a snapshot, as for the guild, the channel, the author and the
    bot member of a context, [_try_get] always returns an object, given a
    cache accessor and a fetch that fail with nothing but [HTTPException],
    [AttributeError] or [ValueError]. It asks the cache once. When fetching is
    not permitted it returns the bare default, whatever the cache gave. When
    fetching is permitted it returns what the cache gave, or else fetches and
    returns what was fetched, or the default if the fetch failed. *)
Theorem try_get_without_snapshot
        (client : Client) (default : entity)
        (get : Z -> result (option entity)) (fetch : Z -> result entity)
        (typename : string)
        (resolve_method : option (json -> result entity))
        (fng fq : option bool) :
  (forall e, get (entity_id default) = Raise e -> Context.caught e = true) ->
  (forall e, fetch (entity_id default) = Raise e -> Context.caught e = true) ->
  let id := entity_id default in
  exists tr o,
    Context._try_get client default (Some get) (Some fetch) typename
                     resolve_method None fng fq = (tr, Ok o) /\
    (Context.fng_of client fng = false ->
     tr = [Get typename id] /\ o = default) /\
    (Context.fng_of client fng = true ->
     match get id with
     | Ok (Some cached) => tr = [Get typename id] /\ o = cached
     | Ok None =>
         tr = [Get typename id; Fetch typename id] /\
         match fetch id with
         | Ok fetched => o = fetched
         | Raise _ => o = default
         end
     | Raise _ => tr = [Get typename id] /\ o = default
     end).
Proof.
  intros Hget Hfetch id. subst id.
  rewrite try_get_cache_first
    by (unfold cache_first; by destruct (Context.fq_of client fq)).
  unfold Context.get_or_fetch, Context.resolve_or_default.
  cbn [emit tbind].
  destruct (get (entity_id default)) as [[cached|]|e] eqn:Hg.
  - destruct (Context.fng_of client fng); eexists _, _;
      (split; [reflexivity|]); split; intros; done.
  - destruct (Context.fng_of client fng).
    + cbn [emit tbind].
      destruct (fetch (entity_id default)) as [fetched|e] eqn:Hf.
      * eexists _, _; (split; [reflexivity|]); split; intros; done.
      * rewrite (Hfetch e eq_refl).
        eexists _, _; (split; [reflexivity|]); split; intros; done.
    + eexists _, _; (split; [reflexivity|]); split; intros; done.
  - rewrite (Hget e eq_refl).
    eexists _, _; (split; [reflexivity|]); split; intros; done.
Qed.

Lemma try_get_without_snapshot_witness :
  exists tr o,
    Context._try_get (sample_client [] true false) (Object 10)
      (Some (fun i => Ok (get_guild (sample_client [] true false) i)))
      (Some (fetch_guild (sample_client [] true false))) "guild"
      None None None None = (tr, Ok o) /\
    tr = [Get "guild" 10] /\ o = Object 10.
Proof.
  destruct (try_get_without_snapshot (sample_client [] true false) (Object 10)
              (fun i => Ok (get_guild (sample_client [] true false) i))
              (fetch_guild (sample_client [] true false)) "guild"
              None None None)
    as (tr & o & Hrun & Hoff & _).
  - discriminate.
  - intros e [= <-]. reflexivity.
  - exists tr, o. split; [exact Hrun|]. by apply Hoff.
Defined.

Lemma after_loop_ok cmd kwargs last tr r :
  match last with Some (_, f) => call_ok f | None => True end ->
  Context.after_loop cmd kwargs last = (tr, Ok r) -> bound_ok r.
Proof.
  unfold Context.after_loop. intros Hlast.
  destruct (Command.slash cmd) as [subs|] eqn:Hs.
  - destruct last as [[name down]|]; [|discriminate].
    intros H. apply tbind_Ok_inv in H as (tr1 & child & tr2 & _ & H & _).
    by apply Hlast in H.
  - intros [= <- <-]. split; [done|]. cbn. apply dict_get_set_eq.
Qed.

Lemma kwargs_loop_ok client guild resolved down opts :
  Forall (fun opt => call_ok (down opt)) opts ->
  forall cmd kwargs last tr r,
    match last with Some (_, f) => call_ok f | None => True end ->
    Context.kwargs_loop client guild resolved down cmd kwargs last opts
    = (tr, Ok r) ->
    bound_ok r.
Proof.
  induction 1 as [|opt opts Hopt _ IH]; intros cmd kwargs last tr r Hlast.
  - cbn. by apply after_loop_ok.
  - cbn [Context.kwargs_loop].
    destruct (eo_value opt) as [value|].
    + destruct (Context.find_option cmd (eo_name opt)) as [k|];
        [|discriminate].
      intros H. apply tbind_Ok_inv in H as (tr1 & o & tr2 & _ & H & _).
      apply tbind_Ok_inv in H as (tr3 & v & tr4 & _ & H & _).
      by apply IH in H.
    + destruct (eo_options opt) as [subs|].
      * destruct (Command.slash cmd) as [children|]; [|discriminate].
        intros H. apply tbind_Ok_inv in H as (tr1 & child & tr2 & _ & H & _).
        by apply Hopt in H.
      * by apply IH.
Qed.

Lemma descend_ok client guild resolved : forall opt,
  call_ok (Context.descend client guild resolved opt).
Proof.
  fix IH 1. intros [n v [subs|]] c tr r; cbn [Context.descend].
  - apply kwargs_loop_ok; [|exact I].
    induction subs as [|o subs IHs]; constructor; [apply IH|exact IHs].
  - by apply after_loop_ok.
Qed.

(** X15. Whenever binding the options of an event succeeds, the command it
    ends on is a plain command, not a group, and the keyword arguments hold
    the context under the context parameter of that command, whatever the
    event gave under that name. A context that was built has such a command
    and such options, the client it was built for, and the cog of its
    command. *)
Theorem binding_ends_on_plain_command_with_context
        (client : Client) (cmd : Command.t) :
  (forall guild resolved options tr cmd' kwargs,
     Context._kwargs_from_options client guild resolved cmd options
     = (tr, Ok (cmd', kwargs)) ->
     Command.slash cmd' = None /\
     dict_get (Command._ctx_arg cmd') kwargs = Some VSelf) /\
  (forall event tr ctx,
     Context.init client cmd event = (tr, Ok ctx) ->
     Command.slash (Context.command ctx) = None /\
     dict_get (Command._ctx_arg (Context.command ctx)) (Context.options ctx)
     = Some VSelf /\
     Context.cog ctx = Command.cog (Context.command ctx) /\
     Context.client ctx = client).
Proof.
  assert (Hk : forall guild resolved options tr r,
             Context._kwargs_from_options client guild resolved cmd options
             = (tr, Ok r) -> bound_ok r).
  { intros guild resolved options tr r. unfold Context._kwargs_from_options.
    apply kwargs_loop_ok; [|exact I].
    apply Forall_forall. intros opt _. apply descend_ok. }
  split.
  - intros guild resolved options tr cmd' kwargs H. by apply Hk in H.
  - intros event tr ctx H. unfold Context.init in H.
    apply tbind_Ok_inv in H as (tr1 & h & tr2 & _ & H & _).
    apply tbind_Ok_inv in H as (tr3 & b & tr4 & Hb & H & _).
    apply tbind_Ok_inv in H as (tr5 & me & tr6 & _ & H & _).
    injection H as _ <-. cbn. apply Hk in Hb as [H1 H2]. done.
Qed.

Lemma binding_ends_on_plain_command_with_context_witness :
  Command.slash pay_cmd = None /\
  dict_get (Command._ctx_arg pay_cmd)
           [("amount", VRaw (JInt 5)); ("ctx", VSelf)] = Some VSelf.
Proof.
  exact (proj1 (binding_ends_on_plain_command_with_context
                  (sample_client [] true false) pay_cmd)
               (Some (Object 10)) Context.no_resolved
               [mkEvOpt "amount" (Some (JInt 5)) None] []
               pay_cmd [("amount", VRaw (JInt 5)); ("ctx", VSelf)] eq_refl).
Defined.

(** X16. Binding on a group goes down into the subcommand the event names. An
    entry with an ['options'] key is bound as its subcommand with these
    options, and the entries after it are ignored; a single entry with neither
    a value nor options is bound as its subcommand with no options. An entry
    that names no subcommand of the group raises [KeyError]. With no entry at
    all, binding on a group raises [UnboundLocalError], and binding on a plain
    command gives the context alone. *)
Theorem kwargs_subcommand_routing
        (client : Client) (guild : option entity)
        (resolved : list (string * list (string * json))) :
  (forall group subs name child inner rest,
     Command.slash group = Some subs ->
     dict_get name subs = Some child ->
     Context._kwargs_from_options client guild resolved group
       (mkEvOpt name None (Some inner) :: rest)
     = Context._kwargs_from_options client guild resolved child inner) /\
  (forall group subs name child,
     Command.slash group = Some subs ->
     dict_get name subs = Some child ->
     Context._kwargs_from_options client guild resolved group
       [mkEvOpt name None None]
     = Context._kwargs_from_options client guild resolved child []) /\
  (forall group subs name inner rest,
     Command.slash group = Some subs ->
     dict_get name subs = None ->
     Context._kwargs_from_options client guild resolved group
       (mkEvOpt name None (Some inner) :: rest)
     = ([], Raise (KeyError name))) /\
  (forall group subs,
     Command.slash group = Some subs ->
     Context._kwargs_from_options client guild resolved group []
     = ([], Raise (UnboundLocalError "opt"))) /\
  (forall cmd,
     Command.slash cmd = None ->
     Context._kwargs_from_options client guild resolved cmd []
     = ([], Ok (cmd, [(Command._ctx_arg cmd, VSelf)]))).
Proof.
  unfold Context._kwargs_from_options. repeat split.
  - intros group subs name child inner rest Hs Hc.
    cbn [Context.kwargs_loop eo_value eo_options eo_name].
    rewrite Hs. unfold dict_item. rewrite Hc. cbn [lift tbind Context.descend].
    by destruct (Context.kwargs_loop _ _ _ _ child _ _ _).
  - intros group subs name child Hs Hc.
    cbn [Context.kwargs_loop eo_value eo_options eo_name].
    unfold Context.after_loop at 1. rewrite Hs. unfold dict_item.
    rewrite Hc. cbn [lift tbind Context.descend].
    cbn [Context.kwargs_loop].
    by destruct (Context.after_loop child [] None).
  - intros group subs name inner rest Hs Hc.
    cbn [Context.kwargs_loop eo_value eo_options eo_name].
    rewrite Hs. unfold dict_item. by rewrite Hc.
  - intros group subs Hs. cbn. unfold Context.after_loop. by rewrite Hs.
  - intros cmd Hs. cbn. unfold Context.after_loop. by rewrite Hs.
Qed.

Lemma kwargs_subcommand_routing_witness :
  Context._kwargs_from_options (sample_client [] true false)
    (Some (Object 10)) Context.no_resolved admin_tree
    [mkEvOpt "ban" None (Some [])]
  = Context._kwargs_from_options (sample_client [] true false)
      (Some (Object 10)) Context.no_resolved ban_cmd [] /\
  Context._kwargs_from_options (sample_client [] true false)
    (Some (Object 10)) Context.no_resolved admin_tree []
  = ([], Raise (UnboundLocalError "opt")).
Proof.
  destruct (kwargs_subcommand_routing (sample_client [] true false)
              (Some (Object 10)) Context.no_resolved)
    as (Hfound & _ & _ & Hempty & _).
  split.
  - exact (Hfound admin_tree [("ban", ban_cmd)] "ban" ban_cmd [] []
                  eq_refl eq_refl).
  - exact (Hempty admin_tree [("ban", ban_cmd)] eq_refl).
Defined.







(** ** Responding *)

(** X19. A call of [respond] either ends with an exception before anything is
    sent, and then leaves [self.webhook] as it was, or sends exactly one
    request: the first response as a POST to the callback path of the
    interaction, after which [self.webhook] is set even if the request fails,
    and every later one as a PATCH to the path of the original message. *)
Theorem respond_sends_at_most_one_request
        (py_str : json -> string) (AllowedMentions : Type)
        (merge : AllowedMentions -> AllowedMentions -> AllowedMentions)
        (mentions_to_dict : AllowedMentions -> list (string * json))
        (http : string -> string -> option (list (string * json)) ->
                result json)
        (app_id : Z) (client_mentions : option AllowedMentions)
        (ctx : Context.t) (webhook : option Context.Webhook) (content : json)
        (embed : option Context.Embed) (embeds : option (list Context.Embed))
        (allowed_mentions : option AllowedMentions) (flags : option Z)
        (rtype : Z) :
  let method := match webhook with Some _ => "PATCH" | None => "POST" end in
  let path := match webhook with
              | Some _ => Context.original_path py_str app_id ctx
              | None => Context.callback_path py_str ctx
              end in
  let run := Context.respond py_str AllowedMentions merge mentions_to_dict
               http app_id client_mentions ctx webhook content embed embeds
               allowed_mentions flags rtype in
  (exists e, run = (webhook, (deprecation_warning rtype, Raise e))) \/
  (exists g body,
     Context.guild ctx = Some g /\
     run = (Some (match webhook with
                  | Some w => w
                  | None => Context.mk_webhook app_id (Context.token ctx)
                  end),
            (deprecation_warning rtype
             ++ [Context.Requested method path
                   (entity_id (Context.channel ctx)) (entity_id g)
                   (Some body)],
             _ <- http method path (Some body) ;; Ok tt))).
Proof.
  intros method path run. subst method path run.
  unfold Context.respond. fold (deprecation_warning rtype).
  destruct (Context.embed_truthy embed && Context.embeds_truthy embeds).
  { left. by eexists. }
  unfold Context.guild_dot_id.
  destruct webhook as [w|].
  - destruct (Context.guild ctx) as [g|]; [|left; by eexists].
    right. by eexists _, _.
  - destruct (Context.callback_data _ _ _ _ _ _) as [data|e];
      [|left; by eexists].
    destruct (Context.guild ctx) as [g|]; [|left; by eexists].
    right. by eexists _, _.
Qed.

Lemma callback_data_with_content
      (AllowedMentions : Type)
      (mentions_to_dict : AllowedMentions -> list (string * json))
      (content : string) (embeds : list json)
      (mentions : option AllowedMentions) (flags : option Z) (rtype : Z) :
  content <> "" \/ embeds <> [] ->
  exists inner,
    Context.callback_data AllowedMentions mentions_to_dict content embeds
                          mentions flags rtype
    = Ok [("type", JInt rtype); ("data", JDict inner)] /\
    dict_get "content" inner = Some (JStr content) /\
    dict_get "embeds" inner
    = match embeds with [] => None | _ => Some (JList embeds) end /\
    dict_get "flags" inner
    = match flags with
      | Some f => if f =? 0 then None else Some (JInt f)
      | None => None
      end.
Proof.
  intros Hdata. unfold Context.callback_data.
  assert (negb (String.eqb content "")
          || match embeds with [] => false | _ => true end = true) as ->.
  { destruct Hdata as [H|H].
    - apply String.eqb_neq in H. by rewrite H.
    - destruct embeds; [done|]. apply orb_true_r. }
  cbn [bind].
  destruct embeds as [|e es], mentions as [m|], flags as [f|];
    try destruct (f =? 0); eexists; (split; [reflexivity|]); done.
Qed.

(** X20. In a guild, with a content that is not empty and not both [embed] and
    [embeds], the first [respond] posts a body with the response type under
    ['type'] and, under ['data'], the content and the flags if any; it sets
    [self.webhook] to the webhook of the application and the token of the
    interaction. Any later [respond] patches the original message with a body
    that has the content and neither the response type nor the flags. [delete]
    sends one DELETE request, without a body, to the path of the original
    message. *)
Theorem respond_first_sends_then_edits
        (py_str : json -> string) (AllowedMentions : Type)
        (merge : AllowedMentions -> AllowedMentions -> AllowedMentions)
        (mentions_to_dict : AllowedMentions -> list (string * json))
        (http : string -> string -> option (list (string * json)) ->
                result json)
        (app_id : Z) (client_mentions : option AllowedMentions)
        (ctx : Context.t) (g : entity) (content : json)
        (embed : option Context.Embed) (embeds : option (list Context.Embed))
        (allowed_mentions : option AllowedMentions) (flags : option Z)
        (rtype : Z) :
  Context.guild ctx = Some g ->
  Context.embed_truthy embed && Context.embeds_truthy embeds = false ->
  py_str content <> "" ->
  (exists body inner,
     Context.respond py_str AllowedMentions merge mentions_to_dict http
       app_id client_mentions ctx None content embed embeds allowed_mentions
       flags rtype
     = (Some (Context.mk_webhook app_id (Context.token ctx)),
        (deprecation_warning rtype
         ++ [Context.Requested "POST" (Context.callback_path py_str ctx)
               (entity_id (Context.channel ctx)) (entity_id g) (Some body)],
         _ <- http "POST" (Context.callback_path py_str ctx) (Some body) ;;
         Ok tt)) /\
     dict_get "type" body = Some (JInt rtype) /\
     dict_get "data" body = Some (JDict inner) /\
     dict_get "content" inner = Some (JStr (py_str content)) /\
     dict_get "flags" inner
     = match flags with
       | Some f => if f =? 0 then None else Some (JInt f)
       | None => None
       end) /\
  (forall w, exists body,
     Context.respond py_str AllowedMentions merge mentions_to_dict http
       app_id client_mentions ctx (Some w) content embed embeds
       allowed_mentions flags rtype
     = (Some w,
        (deprecation_warning rtype
         ++ [Context.Requested "PATCH"
               (Context.original_path py_str app_id ctx)
               (entity_id (Context.channel ctx)) (entity_id g) (Some body)],
         _ <- http "PATCH" (Context.original_path py_str app_id ctx)
                   (Some body) ;;
         Ok tt)) /\
     dict_get "content" body = Some (JStr (py_str content)) /\
     dict_get "type" body = None /\
     dict_get "data" body = None /\
     dict_get "flags" body = None) /\
  Context.delete py_str http app_id ctx
  = ([Context.Requested "DELETE" (Context.original_path py_str app_id ctx)
        (entity_id (Context.channel ctx)) (entity_id g) None],
     _ <- http "DELETE" (Context.original_path py_str app_id ctx) None ;;
     Ok tt).
Proof.
  intros Hg Hboth Hcontent. split; [|split].
  - destruct (callback_data_with_content AllowedMentions mentions_to_dict
                (py_str content) (Context.embed_dicts embed embeds)
                (Context.merged_mentions AllowedMentions merge client_mentions
                                         allowed_mentions)
                flags rtype (or_introl Hcontent))
      as (inner & Hdata & Hc & _ & Hf).
    exists [("type", JInt rtype); ("data", JDict inner)], inner.
    unfold Context.respond. fold (deprecation_warning rtype).
    rewrite Hboth, Hdata. unfold Context.guild_dot_id. rewrite Hg.
    done.
  - intros w. eexists.
    unfold Context.respond. fold (deprecation_warning rtype).
    rewrite Hboth. unfold Context.guild_dot_id. rewrite Hg.
    split; [reflexivity|]. unfold Context.edit_data.
    apply String.eqb_neq in Hcontent. rewrite Hcontent. cbn [negb].
    destruct (Context.embed_dicts embed embeds),
             (Context.merged_mentions _ _ _ _); done.
  - unfold Context.delete, Context.guild_dot_id. by rewrite Hg.
Qed.

Lemma respond_first_sends_then_edits_witness :
  exists body inner,
    Context.respond str_of unit (fun _ _ => tt) (fun _ => []) accepting 7
      None ban_ctx None (JStr "pong") None None None
      (Some MessageFlags.EPHEMERAL)
      InteractionResponseType.ChannelMessageWithSource
    = (Some (Context.mk_webhook 7 (JStr "token")),
       ([Context.Requested "POST" "/interactions/100/token/callback" 20 10
                           (Some body)], Ok tt)) /\
    dict_get "type" body = Some (JInt 4) /\
    dict_get "data" body = Some (JDict inner) /\
    dict_get "content" inner = Some (JStr "pong") /\
    dict_get "flags" inner = Some (JInt 64).
Proof.
  destruct (respond_first_sends_then_edits str_of unit (fun _ _ => tt)
              (fun _ => []) accepting 7 None ban_ctx (Full "Guild" 10)
              (JStr "pong") None None None (Some MessageFlags.EPHEMERAL)
              InteractionResponseType.ChannelMessageWithSource
              eq_refl eq_refl)
    as ((body & inner & Hrun & Hty & Hdata & Hc & Hf) & _); [discriminate|].
  exists body, inner. split; [exact Hrun|]. split; [exact Hty|].
  split; [exact Hdata|]. split; [exact Hc|exact Hf].
Defined.

Lemma embed_dicts_nil (embed : option Context.Embed)
      (embeds : option (list Context.Embed)) :
  Context.embed_truthy embed = false ->
  Context.embeds_truthy embeds = false ->
  Context.embed_dicts embed embeds = [].
Proof.
  unfold Context.embed_dicts. intros -> H.
  by destruct embeds as [[|e l]|].
Qed.

(** X21. [respond] raises [TypeError] when given both an [embed] and [embeds]
    that are true. A first response with an empty content and no embed raises
    [ValueError] when its type is [ChannelMessageWithSource]; with another
    type it raises [KeyError] when allowed mentions are set. On a context
    without a guild [respond] raises and [delete] raises [AttributeError]. In
    all these cases nothing is sent and [self.webhook] stays as it was. *)
Theorem respond_refuses_before_sending
        (py_str : json -> string) (AllowedMentions : Type)
        (merge : AllowedMentions -> AllowedMentions -> AllowedMentions)
        (mentions_to_dict : AllowedMentions -> list (string * json))
        (http : string -> string -> option (list (string * json)) ->
                result json)
        (app_id : Z) (client_mentions : option AllowedMentions)
        (ctx : Context.t) (webhook : option Context.Webhook) (content : json)
        (embed : option Context.Embed) (embeds : option (list Context.Embed))
        (allowed_mentions : option AllowedMentions) (flags : option Z)
        (rtype : Z) :
  let run := Context.respond py_str AllowedMentions merge mentions_to_dict
               http app_id client_mentions ctx webhook content embed embeds
               allowed_mentions flags rtype in
  (Context.embed_truthy embed = true ->
   Context.embeds_truthy embeds = true ->
   run = (webhook,
          (deprecation_warning rtype,
           Raise (TypeError "Cannot specify both embed and embeds")))) /\
  (webhook = None ->
   py_str content = "" ->
   Context.embed_truthy embed = false ->
   Context.embeds_truthy embeds = false ->
   rtype = InteractionResponseType.ChannelMessageWithSource ->
   run = (None,
          (deprecation_warning rtype,
           Raise (ValueError "sending channel message with no content")))) /\
  (webhook = None ->
   py_str content = "" ->
   Context.embed_truthy embed = false ->
   Context.embeds_truthy embeds = false ->
   rtype <> InteractionResponseType.ChannelMessageWithSource ->
   Context.merged_mentions AllowedMentions merge client_mentions
                           allowed_mentions <> None ->
   run = (None, (deprecation_warning rtype, Raise (KeyError "data")))) /\
  (Context.guild ctx = None ->
   (exists e, run = (webhook, (deprecation_warning rtype, Raise e))) /\
   Context.delete py_str http app_id ctx = ([], Raise (AttributeError "id"))).
Proof.
  intros run. subst run. unfold Context.respond.
  fold (deprecation_warning rtype). split; [|split; [|split]].
  - by intros -> ->.
  - intros -> Hc He Hes ->. rewrite He, Hc. cbn [andb].
    rewrite embed_dicts_nil by done. done.
  - intros -> Hc He Hes Hr Hm. rewrite He, Hc. cbn [andb].
    rewrite embed_dicts_nil by done. unfold Context.callback_data.
    apply Z.eqb_neq in Hr. cbn [String.eqb negb orb]. rewrite Hr.
    cbn [bind].
    by destruct (Context.merged_mentions _ _ _ _).
  - intros Hg. unfold Context.delete, Context.guild_dot_id. rewrite Hg.
    split; [|done].
    destruct (_ && _); [by eexists|].
    destruct webhook; [by eexists|].
    destruct (Context.callback_data _ _ _ _ _ _); by eexists.
Qed.

Lemma respond_refuses_before_sending_witness :
  Context.respond str_of unit (fun _ _ => tt) (fun _ => []) accepting 7
    None ban_ctx None (JStr "pong") (Some sample_embed)
    (Some [sample_embed]) None None
    InteractionResponseType.ChannelMessageWithSource
  = (None, ([], Raise (TypeError "Cannot specify both embed and embeds"))) /\
  Context.respond str_of unit (fun _ _ => tt) (fun _ => []) accepting 7
    None ban_ctx None (JStr "") None None None None
    InteractionResponseType.ChannelMessageWithSource
  = (None,
     ([], Raise (ValueError "sending channel message with no content"))).
Proof.
  split.
  - exact (proj1 (respond_refuses_before_sending str_of unit (fun _ _ => tt)
                    (fun _ => []) accepting 7 None ban_ctx None (JStr "pong")
                    (Some sample_embed) (Some [sample_embed]) None None
                    InteractionResponseType.ChannelMessageWithSource)
                 eq_refl eq_refl).
  - exact (proj1 (proj2
             (respond_refuses_before_sending str_of unit (fun _ _ => tt)
                (fun _ => []) accepting 7 None ban_ctx None (JStr "")
                None None None None
                InteractionResponseType.ChannelMessageWithSource))
             eq_refl eq_refl eq_refl eq_refl eq_refl).
Defined.

Lemma edit_data_embeds (AllowedMentions : Type)
      (mentions_to_dict : AllowedMentions -> list (string * json))
      (content : string) (embeds : list json)
      (mentions : option AllowedMentions) :
  dict_get "embeds"
    (Context.edit_data AllowedMentions mentions_to_dict content embeds
                       mentions)
  = match embeds with [] => None | _ => Some (JList embeds) end.
Proof.
  unfold Context.edit_data.
  destruct (negb (String.eqb content "")), embeds, mentions; done.
Qed.

Lemma callback_data_embeds (AllowedMentions : Type)
      (mentions_to_dict : AllowedMentions -> list (string * json))
      (content : string) (embeds : list json)
      (mentions : option AllowedMentions) (flags : option Z) (rtype : Z)
      (data : list (string * json)) :
  Context.callback_data AllowedMentions mentions_to_dict content embeds
                        mentions flags rtype = Ok data ->
  body_embeds "POST" data
  = match embeds with [] => None | _ => Some (JList embeds) end.
Proof.
  destruct (String.eqb content "") eqn:Hc.
  - destruct embeds as [|e es].
    + unfold Context.callback_data. rewrite Hc. cbn [negb orb].
      destruct (rtype =? _); [discriminate|]. cbn [bind].
      destruct mentions; [discriminate|].
      destruct flags as [f|]; [destruct (f =? 0)|];
        cbn; intros [= <-]; done.
    + destruct (callback_data_with_content AllowedMentions mentions_to_dict
                  content (e :: es) mentions flags rtype)
        as (inner & -> & _ & He & _); [by right|].
      intros [= <-]. unfold body_embeds. cbn. exact He.
  - destruct (callback_data_with_content AllowedMentions mentions_to_dict
                content embeds mentions flags rtype)
      as (inner & -> & _ & He & _); [left; by apply String.eqb_neq|].
    intros [= <-]. unfold body_embeds. cbn. exact He.
Qed.

(** X22. [respond] sends at most ten embeds: a single [embed] that is true as
    a list of one, otherwise the first ten of [embeds], each as its
    [to_dict()]. These are the embeds of the body of the request it sends,
    under ['embeds'] when the response is edited and under ['data']['embeds']
    when it is first sent, and the body has no embeds entry when there is
    none. *)
Theorem respond_sends_at_most_ten_embeds
        (py_str : json -> string) (AllowedMentions : Type)
        (merge : AllowedMentions -> AllowedMentions -> AllowedMentions)
        (mentions_to_dict : AllowedMentions -> list (string * json))
        (http : string -> string -> option (list (string * json)) ->
                result json)
        (app_id : Z) (client_mentions : option AllowedMentions)
        (ctx : Context.t) (webhook : option Context.Webhook) (content : json)
        (embed : option Context.Embed) (embeds : option (list Context.Embed))
        (allowed_mentions : option AllowedMentions) (flags : option Z)
        (rtype : Z) :
  let sent := Context.embed_dicts embed embeds in
  (length sent <= 10)%nat /\
  (forall e, embed = Some e -> Context.embed_bool e = true ->
             sent = [JDict (Context.embed_to_dict e)]) /\
  (forall l, Context.embed_truthy embed = false -> embeds = Some l ->
             sent = map (fun emb => JDict (Context.embed_to_dict emb))
                        (firstn 10 l)) /\
  (forall method path c g body,
     In (Context.Requested method path c g (Some body))
        (fst (snd (Context.respond py_str AllowedMentions merge
                     mentions_to_dict http app_id client_mentions ctx
                     webhook content embed embeds allowed_mentions flags
                     rtype))) ->
     body_embeds method body
     = match sent with [] => None | _ => Some (JList sent) end).
Proof.
  intros sent. subst sent. repeat split.
  - unfold Context.embed_dicts.
    destruct (if Context.embed_truthy embed then _ else _) as [l|];
      [|cbn; lia].
    rewrite length_map, length_firstn. lia.
  - intros e -> He. unfold Context.embed_dicts. cbn. by rewrite He.
  - intros l He ->. unfold Context.embed_dicts. by rewrite He.
  - intros method path c g body. unfold Context.respond.
    fold (deprecation_warning rtype).
    assert (Hw : ~ In (Context.Requested method path c g (Some body))
                      (deprecation_warning rtype)).
    { unfold deprecation_warning. destruct (_ || _); [|by intros []].
      by intros [|[]]. }
    destruct (_ && _); [done|].
    destruct webhook as [w|].
    + destruct (Context.guild_dot_id ctx); [|done]. cbn [fst snd].
      intros H. apply in_app_or in H as [H|[H|[]]]; [done|].
      injection H as <- <- <- <- <-. unfold body_embeds. cbn.
      apply edit_data_embeds.
    + destruct (Context.callback_data _ _ _ _ _ _) as [data|e] eqn:Hd;
        [|done].
      destruct (Context.guild_dot_id ctx); [|done]. cbn [fst snd].
      intros H. apply in_app_or in H as [H|[H|[]]]; [done|].
      injection H as <- <- <- <- <-.
      by apply (callback_data_embeds _ _ _ _ _ _ _ _ Hd).
Qed.

Lemma respond_sends_at_most_ten_embeds_witness :
  Context.embed_dicts None (Some (repeat sample_embed 12))
  = repeat (JDict [("title", JStr "Pong")]) 10.
Proof.
  exact (proj1 (proj2 (proj2
           (respond_sends_at_most_ten_embeds str_of unit (fun _ _ => tt)
              (fun _ => []) accepting 7 None ban_ctx None (JStr "pong")
              None (Some (repeat sample_embed 12)) None None
              InteractionResponseType.ChannelMessageWithSource)))
           (repeat sample_embed 12) eq_refl eq_refl).
Defined.

(** ** Reconciliation and requests, further *)

(** X23. For a command of the code whose name the API does not hold,
    [sync_cmds] files one creation, with the serialised command as its body
    and no identifier, files no update and no deletion, and leaves the command
    as it is. For a remote definition whose name the code does not have, it
    files one deletion with the remote identifier, without a body, and files
    no creation and no update. *)
Theorem sync_cmds_creates_and_deletes
        (state : SlashBot.state) (todo : gmap string Command.t)
        (rows : list json) (guild_id : option Z)
        (done : gmap pykey (list (string * json))) :
  SlashBot.index_done rows = Ok done ->
  (forall k, k ∈ dom done -> exists i, SlashBot.done_id done k = Ok i) ->
  exists state' todo',
    SlashBot.sync_cmds state todo rows guild_id = Ok (state', todo') /\
    (forall s c,
       todo !! s = Some c -> done !! KStr s = None ->
       SlashBot.lookup_request (SlashBot.POST state') guild_id (KStr s)
       = Some (SlashBot.mk_request (Some (Command.to_dict c)) None
                                   (Some (guild_id, KStr s))) /\
       SlashBot.lookup_request (SlashBot.PATCH state') guild_id (KStr s)
       = SlashBot.lookup_request (SlashBot.PATCH state) guild_id (KStr s) /\
       SlashBot.lookup_request (SlashBot.DELETE state') guild_id (KStr s)
       = SlashBot.lookup_request (SlashBot.DELETE state) guild_id (KStr s) /\
       todo' !! s = Some c) /\
    (forall k remote i,
       done !! k = Some remote -> (k ∉ SlashBot.todo_keys todo) ->
       SlashBot.done_id done k = Ok i ->
       SlashBot.lookup_request (SlashBot.DELETE state') guild_id k
       = Some (SlashBot.mk_request None (Some i) None) /\
       SlashBot.lookup_request (SlashBot.POST state') guild_id k
       = SlashBot.lookup_request (SlashBot.POST state) guild_id k /\
       SlashBot.lookup_request (SlashBot.PATCH state') guild_id k
       = SlashBot.lookup_request (SlashBot.PATCH state) guild_id k).
Proof.
  intros Hdone Hids. unfold SlashBot.sync_cmds. rewrite Hdone. cbn [bind].
  destruct (create_loop guild_id (elements (SlashBot.to_create done todo))
                        state todo) as (P' & Hrun1 & HfP & HsetP).
  { intros k Hk. apply elem_of_elements in Hk.
    unfold SlashBot.to_create in Hk. apply elem_of_difference in Hk as [Hk _].
    apply elem_of_todo_keys in Hk as (s & -> & [c Hc]).
    exists c. unfold SlashBot.todo_item. by rewrite Hc. }
  rewrite Hrun1. cbn [bind].
  destruct (update_loop done guild_id
                        (elements (SlashBot.to_update done todo))
                        (NoDup_elements _)
                        (SlashBot.mk_state P' (SlashBot.PATCH state)
                                           (SlashBot.DELETE state)) todo)
    as (U' & todo' & Hrun2 & HfU & Hft & _ & _).
  { intros k Hk. apply elem_of_elements in Hk.
    unfold SlashBot.to_update in Hk.
    apply elem_of_intersection in Hk as [Hd Hk].
    apply elem_of_todo_keys in Hk as (s & -> & [c Hc]).
    destruct (Hids _ Hd) as [i Hi].
    apply elem_of_dom in Hd as [remote Hr].
    by exists s, c, remote, i. }
  rewrite Hrun2. cbn [bind SlashBot.POST SlashBot.DELETE].
  destruct (delete_loop done guild_id
                        (elements (SlashBot.to_delete done todo))
                        (SlashBot.mk_state P' U' (SlashBot.DELETE state))
                        todo') as (D' & Hrun3 & HfD & HsetD).
  { intros k Hk. apply elem_of_elements in Hk.
    unfold SlashBot.to_delete in Hk. apply elem_of_difference in Hk as [Hd _].
    by apply Hids. }
  rewrite Hrun3. cbn [SlashBot.POST SlashBot.PATCH SlashBot.DELETE] in *.
  eexists _, _. split; [reflexivity|].
  cbn [SlashBot.POST SlashBot.PATCH SlashBot.DELETE]. split.
  - intros s c Hc Hr.
    assert (Hnd : KStr s ∉ dom done) by (by apply not_elem_of_dom).
    assert (Hint : KStr s ∈ SlashBot.todo_keys todo)
      by (apply elem_of_todo_keys; by eexists s).
    split; [|split; [|split]].
    + apply HsetP.
      * rewrite elem_of_elements. unfold SlashBot.to_create. set_solver.
      * unfold SlashBot.todo_item. by rewrite Hc.
    + apply HfU. rewrite elem_of_elements. unfold SlashBot.to_update.
      set_solver.
    + apply HfD. rewrite elem_of_elements. unfold SlashBot.to_delete.
      set_solver.
    + rewrite Hft; [done|]. rewrite elem_of_elements.
      unfold SlashBot.to_update. set_solver.
  - intros k remote i Hr Hk Hi.
    assert (Hd : k ∈ dom done) by (apply elem_of_dom; by eexists).
    split; [|split].
    + apply HsetD; [|done]. rewrite elem_of_elements.
      unfold SlashBot.to_delete. set_solver.
    + apply HfP. rewrite elem_of_elements. unfold SlashBot.to_create.
      set_solver.
    + apply HfU. rewrite elem_of_elements. unfold SlashBot.to_update.
      set_solver.
Qed.

Lemma sync_cmds_creates_and_deletes_witness :
  exists state' todo',
    SlashBot.sync_cmds SlashBot.empty_state sample_todo
                       [JDict remote_pay; JDict remote_old] None
    = Ok (state', todo') /\
    SlashBot.lookup_request (SlashBot.POST state') None (KStr "ping")
    = Some (SlashBot.mk_request (Some (Command.to_dict ping_cmd)) None
                                (Some (None, KStr "ping"))) /\
    SlashBot.lookup_request (SlashBot.DELETE state') None (KStr "old")
    = Some (SlashBot.mk_request None (Some 501) None).
Proof.
  destruct (sync_cmds_creates_and_deletes SlashBot.empty_state sample_todo
              [JDict remote_pay; JDict remote_old] None sample_done)
    as (state' & todo' & Hrun & Hcreate & Hdelete).
  - vm_compute. reflexivity.
  - intros k Hk. apply elem_of_dom in Hk as [r Hr].
    unfold sample_done in Hr.
    apply lookup_insert_Some in Hr as [[<- <-]|[_ Hr]]; [by exists 500|].
    apply lookup_singleton_Some in Hr as [<- <-]. by exists 501.
  - exists state', todo'. split; [exact Hrun|]. split.
    + apply (Hcreate "ping" ping_cmd); reflexivity.
    + apply (Hdelete (KStr "old") remote_old 501); [reflexivity| |reflexivity].
      by vm_compute.
Defined.

Lemma foldM_preserves {A B} (f : A -> B -> result A) (P : A -> Prop)
      (l : list B) :
  (forall a x a', In x l -> P a -> f a x = Ok a' -> P a') ->
  forall a a', P a -> foldM f a l = Ok a' -> P a'.
Proof.
  induction l as [|x l IH]; intros Hf a a' Ha; cbn [foldM].
  - by intros [= <-].
  - destruct (f a x) as [a1|e] eqn:E; cbn [bind]; [|discriminate].
    apply IH; [|by apply (Hf a x); [left|..]].
    intros b y b' Hy. apply Hf. by right.
Qed.

Lemma set_request_other rs g k r g' :
  g' <> g -> SlashBot.set_request rs g k r !! g' = rs !! g'.
Proof. intros H. unfold SlashBot.set_request. by rewrite lookup_insert_ne. Qed.

Lemma same_but_id_set_id c c' i :
  same_but_id c c' -> same_but_id c (Command.set_id (Some i) c').
Proof.
  intros [->|[j ->]]; right; exists i; [done|]. by destruct c.
Qed.

Lemma kept_start g st0 todo0 : kept g st0 todo0 (st0, todo0).
Proof.
  split; [done|]. intros s. destruct (todo0 !! s) as [c|] eqn:E; [|done].
  exists c. split; [done|by left].
Qed.

Lemma kept_create g st0 todo0 a k a' :
  kept g st0 todo0 a -> SlashBot.create_step g a k = Ok a' ->
  kept g st0 todo0 a'.
Proof.
  intros [Hst Htodo]. unfold SlashBot.create_step.
  destruct (SlashBot.todo_item (snd a) k); cbn [bind]; [|discriminate].
  intros [= <-]. split; [|done]. intros g' Hg. cbn.
  rewrite set_request_other by done. by apply Hst.
Qed.

Lemma kept_delete done g st0 todo0 a k a' :
  kept g st0 todo0 a -> SlashBot.delete_step done g a k = Ok a' ->
  kept g st0 todo0 a'.
Proof.
  intros [Hst Htodo]. unfold SlashBot.delete_step.
  destruct (SlashBot.done_id done k); cbn [bind]; [|discriminate].
  intros [= <-]. split; [|done]. intros g' Hg. cbn.
  rewrite set_request_other by done. by apply Hst.
Qed.

Lemma kept_update done g st0 todo0 a k a' :
  kept g st0 todo0 a -> SlashBot.update_step done g a k = Ok a' ->
  kept g st0 todo0 a'.
Proof.
  intros [Hst Htodo]. unfold SlashBot.update_step.
  destruct (SlashBot.todo_item (snd a) k); cbn [bind]; [|discriminate].
  destruct (done !! k); cbn [bind]; [|discriminate].
  destruct (SlashBot.up_to_date _ _);
    (destruct (SlashBot.done_id done k) as [i|]; cbn [bind];
     [|discriminate]); intros [= <-].
  - split; [done|]. intros s. specialize (Htodo s). cbn [snd].
    unfold SlashBot.set_todo_id. destruct k as [s'| |]; try done.
    destruct (decide (s = s')) as [->|Hne].
    + rewrite lookup_alter_eq.
      destruct (todo0 !! s') as [c|].
      * destruct Htodo as (c' & -> & Hc). eexists. split; [done|].
        by apply same_but_id_set_id.
      * by rewrite Htodo.
    + by rewrite lookup_alter_ne.
  - split; [|done]. intros g' Hg. cbn.
    rewrite set_request_other by done. by apply Hst.
Qed.

Lemma sync_cmds_kept state todo rows g state' todo' :
  SlashBot.sync_cmds state todo rows g = Ok (state', todo') ->
  kept g state todo (state', todo').
Proof.
  unfold SlashBot.sync_cmds.
  destruct (SlashBot.index_done rows) as [done|]; cbn [bind]; [|discriminate].
  destruct (foldM (SlashBot.create_step g) _ _) as [a1|] eqn:E1; cbn [bind];
    [|discriminate].
  destruct (foldM (SlashBot.update_step done g) _ _) as [a2|] eqn:E2;
    cbn [bind]; [|discriminate].
  intros E3.
  eapply foldM_preserves in E1;
    [|intros ? ? ? _; apply kept_create|apply kept_start].
  eapply foldM_preserves in E2; [|intros ? ? ? _; apply kept_update|exact E1].
  eapply foldM_preserves in E3; [|intros ? ? ? _; apply kept_delete|exact E2].
  exact E3.
Qed.

(** X24. A run of [sync_cmds] for one scope leaves the requests filed for
    every other scope as they are, in all of POST, PATCH and DELETE. It
    neither adds nor removes a command of the code, and changes nothing of a
    command but its identifier. *)
Theorem sync_cmds_touches_only_its_scope
        (state : SlashBot.state) (todo : gmap string Command.t)
        (rows : list json) (guild_id : option Z)
        (state' : SlashBot.state) (todo' : gmap string Command.t) :
  SlashBot.sync_cmds state todo rows guild_id = Ok (state', todo') ->
  (forall g, g <> guild_id ->
     SlashBot.POST state' !! g = SlashBot.POST state !! g /\
     SlashBot.PATCH state' !! g = SlashBot.PATCH state !! g /\
     SlashBot.DELETE state' !! g = SlashBot.DELETE state !! g) /\
  (forall s, match todo !! s with
             | Some c => exists c', todo' !! s = Some c' /\ same_but_id c c'
             | None => todo' !! s = None
             end).
Proof.
  intros H. apply sync_cmds_kept in H as [Hscopes Hcommands]. split.
  - intros g Hg. exact (Hscopes g Hg).
  - exact Hcommands.
Qed.

Lemma sync_cmds_touches_only_its_scope_witness :
  exists state' todo',
    SlashBot.sync_cmds SlashBot.empty_state sample_todo
                       [JDict remote_pay; JDict remote_old] (Some 10)
    = Ok (state', todo') /\
    SlashBot.POST state' !! (None : option Z) = None /\
    exists c', todo' !! "pay" = Some c' /\ same_but_id pay_new c'.
Proof.
  destruct (SlashBot.sync_cmds SlashBot.empty_state sample_todo
              [JDict remote_pay; JDict remote_old] (Some 10))
    as [[state' todo']|e] eqn:Hrun; [|vm_compute in Hrun; discriminate].
  destruct (sync_cmds_touches_only_its_scope _ _ _ _ _ _ Hrun)
    as [Hst Htodo].
  exists state', todo'. split; [reflexivity|]. split.
  - destruct (Hst None) as (HP & _); [discriminate|]. exact HP.
  - exact (Htodo "pay").
Defined.

(** X25. Whether a command is up to date depends on the fields ['name'],
    ['description'] and ['options'] of the remote definition only: setting or
    removing any other field, such as its identifier or its version, does not
    change the verdict. *)
Theorem up_to_date_ignores_other_fields
        (remote cmd_dict : list (string * json)) (k : string) (v : json) :
  k <> "name" -> k <> "description" -> k <> "options" ->
  SlashBot.up_to_date (dict_set k v remote) cmd_dict
  = SlashBot.up_to_date remote cmd_dict /\
  SlashBot.up_to_date (dict_del k remote) cmd_dict
  = SlashBot.up_to_date remote cmd_dict.
Proof.
  intros Hn Hd Ho. unfold SlashBot.up_to_date, get_eq.
  rewrite !dict_get_set_ne, !dict_get_del_ne by congruence. done.
Qed.

Lemma up_to_date_ignores_other_fields_witness :
  SlashBot.up_to_date (dict_set "version" (JStr "2") remote_pay)
                      (Command.to_dict pay_new)
  = SlashBot.up_to_date remote_pay (Command.to_dict pay_new) /\
  SlashBot.up_to_date (dict_del "version" remote_pay)
                      (Command.to_dict pay_new)
  = SlashBot.up_to_date remote_pay (Command.to_dict pay_new).
Proof.
  apply (up_to_date_ignores_other_fields remote_pay (Command.to_dict pay_new)
           "version" (JStr "2")); discriminate.
Defined.

(* debug guild *)
Lemma file_command_scoped (g : Z) (slash : list Command.t) : forall G,
  G !! (None : option Z) = None ->
  fold_left (SlashBot.file_command (Some g)) slash G !! None = None.
Proof.
  induction slash as [|c slash IH]; intros G HG; [done|].
  cbn [fold_left]. apply IH. unfold SlashBot.file_command.
  rewrite lookup_insert_ne; [done|].
  by destruct (Command.guild_id c) as [[]|].
Qed.

Lemma tasks_of_method_inv app_id method rs t :
  t ∈ SlashBot.tasks_of_method app_id method rs ->
  exists g k r,
    SlashBot.lookup_request rs g k = Some r /\
    t = task_of app_id method g k r.
Proof.
  unfold SlashBot.tasks_of_method. intros H.
  apply list_elem_of_bind in H as ([g guild] & H & Hg).
  apply list_elem_of_bind in H as ([k r] & H & Hk).
  apply elem_of_map_to_list in Hg. apply elem_of_map_to_list in Hk.
  exists g, k, r. split.
  - unfold SlashBot.lookup_request. by rewrite Hg.
  - unfold task_of. destruct (SlashBot.r_id r);
      by apply list_elem_of_singleton in H.
Qed.

Lemma sync_guild_scoped http app_id (g : option Z) st G st' G' :
  g <> None ->
  SlashBot.sync_guild http app_id (st, G) g = Ok (st', G') ->
  (SlashBot.POST st !! (None : option Z) = None /\
   SlashBot.PATCH st !! (None : option Z) = None /\
   SlashBot.DELETE st !! (None : option Z) = None /\
   G !! (None : option Z) = None) ->
  (SlashBot.POST st' !! (None : option Z) = None /\
   SlashBot.PATCH st' !! (None : option Z) = None /\
   SlashBot.DELETE st' !! (None : option Z) = None /\
   G' !! (None : option Z) = None).
Proof.
  intros Hg. unfold SlashBot.sync_guild. cbn [fst snd].
  destruct (G !! g) as [todo|]; [|by intros [= <- <-]].
  destruct (http _ _ _) as [answer|]; cbn [bind]; [|discriminate].
  destruct (SlashBot.rows answer) as [rows|]; cbn [bind]; [|discriminate].
  destruct (SlashBot.sync_cmds st todo rows g) as [[st1 todo1]|] eqn:E;
    cbn [bind]; [|discriminate].
  intros [= <- <-] (HP & HU & HD & HG).
  apply sync_cmds_kept in E as [Hst _].
  destruct (Hst None) as (EP & EU & ED); [done|]. cbn [fst] in *.
  rewrite EP, EU, ED, lookup_insert_ne by done. done.
Qed.

Lemma file_command_eq d G x :
  SlashBot.file_command d G x
  = <[scope_of d x := <[Command.name x := in_scope d x]>
                        (default ∅ (G !! scope_of d x))]> G.
Proof. reflexivity. Qed.

Lemma lookup_cmd_file d G x s n :
  lookup_cmd (SlashBot.file_command d G x) s n
  = if decide (s = scope_of d x /\ n = Command.name x)
    then Some (in_scope d x) else lookup_cmd G s n.
Proof.
  rewrite file_command_eq. unfold lookup_cmd.
  destruct (decide (s = scope_of d x)) as [->|Hs].
  - rewrite lookup_insert_eq.
    destruct (decide (n = Command.name x)) as [->|Hn].
    + rewrite lookup_insert_eq. by rewrite decide_True.
    + rewrite lookup_insert_ne by done. rewrite decide_False by tauto.
      by destruct (G !! scope_of d x).
  - rewrite lookup_insert_ne by done. by rewrite decide_False by tauto.
Qed.

Lemma filed_commands d slash : forall G cmd,
  In cmd slash ->
  exists last,
    In last slash /\ Command.name last = Command.name cmd /\
    scope_of d last = scope_of d cmd /\
    lookup_cmd (fold_left (SlashBot.file_command d) slash G)
               (scope_of d cmd) (Command.name cmd)
    = Some (in_scope d last).
Proof.
  induction slash as [|x slash IH] using rev_ind; intros G cmd Hin; [done|].
  rewrite fold_left_app. cbn [fold_left]. rewrite lookup_cmd_file.
  destruct (decide (scope_of d cmd = scope_of d x /\
                    Command.name cmd = Command.name x)) as [[Hs Hn]|Hne].
  - exists x. rewrite in_app_iff. split; [right; by left|]. done.
  - apply in_app_iff in Hin as [Hin|[<-|[]]]; [|tauto].
    destruct (IH G cmd Hin) as (last & Hl & Hn & Hs & Hlook).
    exists last. rewrite in_app_iff. split; [by left|]. done.
Qed.

Lemma same_but_id_trans c c' c'' :
  same_but_id c c' -> same_but_id c' c'' -> same_but_id c c''.
Proof.
  intros H [->|[i ->]]; [done|]. by apply same_but_id_set_id.
Qed.

Lemma kept_filed_refl G : kept_filed G G.
Proof.
  intros s n. destruct (lookup_cmd G s n) as [c|] eqn:E; [|done].
  exists c. split; [done|by left].
Qed.

Lemma sync_guild_kept_filed http app_id G0 st G x st' G' :
  kept_filed G0 G ->
  SlashBot.sync_guild http app_id (st, G) x = Ok (st', G') ->
  kept_filed G0 G'.
Proof.
  intros Hk. unfold SlashBot.sync_guild. cbn [fst snd].
  destruct (G !! x) as [todo|] eqn:Hx; [|by intros [= <- <-]].
  destruct (http _ _ _) as [answer|]; cbn [bind]; [|discriminate].
  destruct (SlashBot.rows answer) as [rows|]; cbn [bind]; [|discriminate].
  destruct (SlashBot.sync_cmds st todo rows x) as [[st1 todo1]|] eqn:E;
    cbn [bind]; [|discriminate].
  intros [= <- <-]. apply sync_cmds_kept in E as [_ Htodo]. cbn [snd] in Htodo.
  intros s n. specialize (Hk s n). unfold lookup_cmd in *.
  destruct (decide (s = x)) as [->|Hne].
  - rewrite lookup_insert_eq. rewrite Hx in Hk. specialize (Htodo n).
    destruct (match G0 !! x with Some t => t !! n | None => None end)
      as [c|].
    + destruct Hk as (c' & Hc' & Hsame). rewrite Hc' in Htodo.
      destruct Htodo as (c'' & Hc'' & Hsame').
      exists c''. split; [done|]. by eapply same_but_id_trans.
    + by rewrite Hk in Htodo.
  - by rewrite lookup_insert_ne.
Qed.

(** X26. With a debug guild, [register_commands] files every command under a
    guild: a command with a guild under its own, a command without one
    under the debug guild. Under that guild and the name of the command
    stands the command of that name and scope that was filed last, with that
    guild as its guild, and it still stands there when [register_commands]
    returns, as it was or with an identifier bound to it. No command is left
    in the global scope and every task created is for a guild. *)
Theorem debug_guild_files_nothing_globally
        (http : string -> string -> option (list (string * json)) ->
                result json)
        (g app_id : Z) (slash : list Command.t)
        (guilds' : gmap (option Z) (gmap string Command.t))
        (tasks : list SlashBot.task) :
  SlashBot.register_commands http (Some g) app_id slash
  = Ok (guilds', tasks) ->
  (forall cmd,
     In cmd slash ->
     exists scope last c',
       scope_of (Some g) cmd = Some scope /\
       (Command.guild_id cmd = None -> scope = g) /\
       In last slash /\
       Command.name last = Command.name cmd /\
       scope_of (Some g) last = Some scope /\
       lookup_cmd (fold_left (SlashBot.file_command (Some g)) slash ∅)
                  (Some scope) (Command.name cmd)
       = Some (in_scope (Some g) last) /\
       lookup_cmd guilds' (Some scope) (Command.name cmd) = Some c' /\
       same_but_id (in_scope (Some g) last) c') /\
  fold_left (SlashBot.file_command (Some g)) slash ∅ !! None = None /\
  guilds' !! None = None /\
  Forall (fun t => SlashBot.t_guild_id t <> None) tasks.
Proof.
  intros H.
  assert (Hfiled : fold_left (SlashBot.file_command (Some g)) slash ∅
                   !! (None : option Z) = None)
    by (by apply file_command_scoped).
  unfold SlashBot.register_commands in H.
  set (guilds := fold_left (SlashBot.file_command (Some g)) slash ∅) in *.
  unfold SlashBot.sync_guild at 1 in H. cbn [fst snd] in H.
  rewrite Hfiled in H. cbn [bind] in H.
  destruct (foldM _ _ _) as [[st G]|] eqn:E; cbn [bind] in H; [|discriminate].
  injection H as <- <-.
  assert (Hkept : kept_filed guilds G).
  { revert E.
    apply (foldM_preserves (SlashBot.sync_guild http app_id)
             (fun a => kept_filed guilds (snd a))).
    - intros [st1 G1] x [st2 G2] _ Hk Hrun. cbn [snd] in *.
      by eapply sync_guild_kept_filed.
    - apply kept_filed_refl. }
  assert (Hinv : SlashBot.POST st !! (None : option Z) = None /\
                 SlashBot.PATCH st !! (None : option Z) = None /\
                 SlashBot.DELETE st !! (None : option Z) = None /\
                 G !! (None : option Z) = None).
  { revert E.
    apply (foldM_preserves (SlashBot.sync_guild http app_id)
             (fun a => SlashBot.POST (fst a) !! (None : option Z) = None /\
                       SlashBot.PATCH (fst a) !! (None : option Z) = None /\
                       SlashBot.DELETE (fst a) !! (None : option Z) = None /\
                       snd a !! (None : option Z) = None)).
    - intros [st1 G1] x [st2 G2] Hx Hinv Hrun. cbn [fst snd] in *.
      apply filter_In in Hx as [_ Hx].
      eapply sync_guild_scoped; [|exact Hrun|exact Hinv]. by destruct x.
    - done. }
  destruct Hinv as (HP & HU & HD & HG).
  split; [|split; [exact Hfiled|split; [exact HG|]]].
  - intros cmd Hin.
    destruct (filed_commands (Some g) slash ∅ cmd Hin)
      as (last & Hl & Hn & Hs & Hlook).
    fold guilds in Hlook.
    assert (Hscope : exists scope, scope_of (Some g) cmd = Some scope /\
                                   (Command.guild_id cmd = None -> scope = g)).
    { unfold scope_of. destruct (Command.guild_id cmd) as [[| |]|];
        eexists; split; try done. }
    destruct Hscope as (scope & Hsc & Hglobal).
    rewrite Hsc in Hlook, Hs. specialize (Hkept (Some scope) (Command.name cmd)).
    rewrite Hlook in Hkept. destruct Hkept as (c' & Hc' & Hsame).
    by exists scope, last, c'.
  - apply Forall_forall. intros t Ht.
    unfold SlashBot.tasks_of in Ht. rewrite !elem_of_app in Ht.
    destruct Ht as [Ht|[Ht|Ht]];
      apply tasks_of_method_inv in Ht as (g' & k & r & Hl & ->);
      unfold SlashBot.lookup_request in Hl; cbn; intros ->;
      rewrite ?HP, ?HU, ?HD in Hl; done.
Qed.

Lemma debug_guild_files_nothing_globally_witness :
  exists guilds' tasks c',
    SlashBot.register_commands empty_api (Some 10) 7 [pay_new; ping_cmd]
    = Ok (guilds', tasks) /\
    lookup_cmd guilds' (Some 10) "ping" = Some c' /\
    guilds' !! (None : option Z) = None /\
    Forall (fun t => SlashBot.t_guild_id t <> None) tasks.
Proof.
  destruct (SlashBot.register_commands empty_api (Some 10) 7
              [pay_new; ping_cmd])
    as [[guilds' tasks]|e] eqn:Hrun; [|vm_compute in Hrun; discriminate].
  destruct (debug_guild_files_nothing_globally empty_api 10 7
              [pay_new; ping_cmd] guilds' tasks Hrun)
    as (Hall & _ & Hnone & Htasks).
  destruct (Hall ping_cmd) as (scope & last & c' & Hs & _ & _ & _ & _ & _
                               & Hc' & _); [right; by left|].
  injection Hs as <-.
  exists guilds', tasks, c'. split; [reflexivity|].
  split; [exact Hc'|]. split; [exact Hnone|exact Htasks].
Defined.

(** X27. The tasks [register_commands] creates are exactly the requests filed
    in [state], one for each method, scope and name; and no task keeps an
    identifier among its keyword arguments, where it would be sent with the
    request: the identifier has gone into the path. *)
Theorem tasks_are_the_filed_requests (app_id : Z) (st : SlashBot.state)
        (t : SlashBot.task) :
  (t ∈ SlashBot.tasks_of app_id st <->
   exists g k r,
     (SlashBot.lookup_request (SlashBot.POST st) g k = Some r /\
      t = task_of app_id "POST" g k r) \/
     (SlashBot.lookup_request (SlashBot.PATCH st) g k = Some r /\
      t = task_of app_id "PATCH" g k r) \/
     (SlashBot.lookup_request (SlashBot.DELETE st) g k = Some r /\
      t = task_of app_id "DELETE" g k r)) /\
  (t ∈ SlashBot.tasks_of app_id st ->
   SlashBot.r_id (SlashBot.t_kwargs t) = None).
Proof.
  assert (Hto : t ∈ SlashBot.tasks_of app_id st ->
                exists g k r,
                  (SlashBot.lookup_request (SlashBot.POST st) g k = Some r /\
                   t = task_of app_id "POST" g k r) \/
                  (SlashBot.lookup_request (SlashBot.PATCH st) g k = Some r /\
                   t = task_of app_id "PATCH" g k r) \/
                  (SlashBot.lookup_request (SlashBot.DELETE st) g k = Some r /\
                   t = task_of app_id "DELETE" g k r)).
  { unfold SlashBot.tasks_of. rewrite !elem_of_app.
    intros [H|[H|H]]; apply tasks_of_method_inv in H as (g & k & r & H & ->);
      exists g, k, r; auto. }
  split; [split; [exact Hto|]|].
  - intros (g & k & r & [[H ->]|[[H ->]|[H ->]]]); unfold SlashBot.tasks_of;
      rewrite !elem_of_app; eauto using tasks_of_method_elem.
  - intros H. apply Hto in H as (g & k & r & [[_ ->]|[[_ ->]|[_ ->]]]); done.
Qed.

Lemma tasks_are_the_filed_requests_witness :
  SlashBot.r_id (SlashBot.t_kwargs
                   (task_of 7 "DELETE" None (KStr "old")
                            (SlashBot.mk_request None (Some 501) None)))
  = None.
Proof.
  pose (st := SlashBot.mk_state ∅ ∅
                {[ None := {[ KStr "old" :=
                                SlashBot.mk_request None (Some 501) None ]} ]}).
  destruct (tasks_are_the_filed_requests 7 st
              (task_of 7 "DELETE" None (KStr "old")
                       (SlashBot.mk_request None (Some 501) None)))
    as [Hiff Hid].
  apply Hid, Hiff.
  exists None, (KStr "old"), (SlashBot.mk_request None (Some 501) None).
  right. right. split; reflexivity.
Defined.

(** X28. However its request ends, [process_command] logs its debug line, once
    and last, after the error line if the request failed with [HTTPException];
    and [HTTPException] never leaves it. A task filed without a command, as
    every deletion is, changes no command; any other task changes at most the
    identifier of the one command it was filed for. *)
Theorem process_command_logs_last_and_binds_one
        (http : string -> string -> option (list (string * json)) ->
                result json)
        (guilds : gmap (option Z) (gmap string Command.t))
        (t : SlashBot.task) :
  let run := SlashBot.process_command http guilds t in
  let debug := SlashBot.Debug (SlashBot.t_method t) (SlashBot.t_name t)
                              (SlashBot.t_guild_id t) in
  (fst (snd run) = [debug] \/
   fst (snd run) = [SlashBot.Exception (SlashBot.t_name t); debug]) /\
  snd (snd run) <> Raise HTTPException /\
  (SlashBot.r_cmd (SlashBot.t_kwargs t) = None -> fst run = guilds) /\
  (forall g s,
     lookup_cmd (fst run) g s = lookup_cmd guilds g s \/
     (SlashBot.r_cmd (SlashBot.t_kwargs t) = Some (g, KStr s) /\
      exists c i, lookup_cmd guilds g s = Some c /\
                  lookup_cmd (fst run) g s
                  = Some (Command.set_id (Some i) c))).
Proof.
  intros run debug. subst run debug. unfold SlashBot.process_command.
  destruct (http _ _ _) as [data|e].
  - destruct (SlashBot.r_cmd (SlashBot.t_kwargs t)) as [[g0 k0]|];
      [|cbn; repeat split; auto; discriminate].
    assert (Hint : forall j, py_int j <> Raise HTTPException).
    { intros [| | |s| |]; cbn; try discriminate.
      by destruct (int_of_str s). }
    destruct (match data with JDict d => _ | _ => _ end) as [i|e] eqn:Hi.
    + cbn [fst snd]. split; [by left|]. split; [discriminate|].
      split; [discriminate|]. intros g s.
      destruct k0 as [s0| |]; try (by left).
      destruct (decide (g = g0 /\ s = s0)) as [[-> ->]|Hne].
      * destruct (lookup_cmd guilds g0 s0) as [c|] eqn:Hc.
        -- right. split; [done|]. exists c, i. split; [done|].
           by apply lookup_cmd_set_cmd_id.
        -- left. unfold lookup_cmd, SlashBot.set_cmd_id in *.
           rewrite lookup_alter_eq.
           destruct (guilds !! g0) as [todo|]; [|done]. cbn.
           by rewrite lookup_alter_eq, Hc.
      * left. unfold lookup_cmd, SlashBot.set_cmd_id.
        destruct (decide (g = g0)) as [->|Hg].
        -- rewrite lookup_alter_eq.
           destruct (guilds !! g0) as [todo|]; [|done]. cbn.
           rewrite lookup_alter_ne; [done|]. intros <-. by apply Hne.
        -- by rewrite lookup_alter_ne.
    + cbn [fst snd]. split; [by left|]. split.
      * intros [= ->]. destruct data as [| | | | |d]; try discriminate.
        unfold dict_item in Hi. destruct (dict_get "id" d) as [j|];
          cbn in Hi; [by apply Hint in Hi|discriminate].
      * split; [discriminate|]. intros; by left.
  - destruct e; cbn; repeat split; auto; try discriminate; intros; by left.
Qed.

Lemma process_command_logs_last_and_binds_one_witness :
  fst (SlashBot.process_command creating_http sample_guilds delete_old)
  = sample_guilds.
Proof.
  exact (proj1 (proj2 (proj2
           (process_command_logs_last_and_binds_one creating_http
              sample_guilds delete_old))) eq_refl).
Defined.

(** X29. [SlashBot.__init__] without keywords of its own sets no debug guild,
    [resolve_not_fetch] and not [fetch_if_not_get]. The debug guild is never
    0: a [debug_guild] keyword that is not true (0, [None], an empty string)
    gives none, and so does one that [int] turns into 0. *)
Theorem SlashBot_init_settings
        (kw_debug_guild kw_resolve_not_fetch kw_fetch_if_not_get
         : option json) :
  SlashBot.init None None None = Ok (SlashBot.mk_settings None true false) /\
  (forall s,
     SlashBot.init kw_debug_guild kw_resolve_not_fetch kw_fetch_if_not_get
     = Ok s ->
     SlashBot.s_debug_guild s <> Some 0 /\
     (forall j, kw_debug_guild = Some j -> py_truthy j = false ->
                SlashBot.s_debug_guild s = None) /\
     (forall j z, kw_debug_guild = Some j -> py_truthy j = true ->
                  py_int j = Ok z ->
                  SlashBot.s_debug_guild s
                  = if z =? 0 then None else Some z)).
Proof.
  split; [reflexivity|]. intros s. unfold SlashBot.init.
  destruct (py_int _) as [z|] eqn:Hz; cbn [bind]; [|discriminate].
  intros [= <-]. cbn [SlashBot.s_debug_guild]. split; [|split].
  - destruct (z =? 0) eqn:E; [done|]. apply Z.eqb_neq in E. congruence.
  - intros j -> Hj. rewrite Hj in Hz. by injection Hz as <-.
  - intros j z' -> Hj Hint. rewrite Hj, Hint in Hz. by injection Hz as <-.
Qed.

Lemma SlashBot_init_settings_witness :
  SlashBot.s_debug_guild (SlashBot.mk_settings None true true) = None.
Proof.
  destruct (SlashBot_init_settings (Some (JStr "")) None (Some (JInt 1)))
    as [_ H].
  destruct (H (SlashBot.mk_settings None true true) eq_refl) as (_ & Hf & _).
  exact (Hf (JStr "") eq_refl eq_refl).
Defined.
